(** * YM7 Hobby: the real-time messaging core

    A shallow embedding of the WebSocket security gate
    ([backend/websocket/security.js]), the connection registry (the
    module required as [../middleware/auth], at the end of
    [backend/utils/startupValidation.js]), the WebSocket server and its
    message handler (required as [./messageHandler]; both in
    [unnamed/part_005]), the token blacklist (class [TokenBlacklist], at
    the end of [backend/routes/buddies.js]) and the part of the relational
    schema these touch ([database/schema-complete.sql]).

    JavaScript strings are sequences of UTF-16 code units, numbers that the
    code uses as identifiers are integers, [Map]s are finite maps, and the
    handlers are state transformers over one [World] that holds the maps,
    the sockets, the datastore and a chronological trace of what was sent,
    closed and logged.  Every handler runs to completion: the suspension
    points at [await] are not interleaved with other handlers. *)

(** Beyond these, the second part of the file covers the hourly sweep of
    the limiters, the HTTP middleware of [../middleware/auth] with the
    logout route ([backend/routes/users.js]) and [pool.setUserContext]
    ([backend/config/production.js]), and the password rules of
    [utils/security] (in [backend/utils/startupValidation.js]). *)

From Stdlib Require Import ZArith NArith List String Ascii Bool Lia.
From stdpp Require Import gmap strings list fin_maps.
Import ListNotations.

Local Open Scope Z_scope.

(* ===================================================================== *)
(** ** JavaScript values *)
(* ===================================================================== *)

Module JS.

(** A string is the list of its UTF-16 code units. *)
Abbreviation jsstring := (list N).

(** The code units of an ASCII literal of the source. *)
Definition u16 (s : string) : jsstring :=
  List.map N_of_ascii (list_ascii_of_string s).

(** What [JSON.parse] can return, plus [undefined] for a missing
    property.  Numbers are kept by their integer value: the only numbers
    the handlers use are user ids. *)
#[local] Unset Elimination Schemes.
Inductive JSVal : Type :=
| JUndefined
| JNull
| JBool (b : bool)
| JNum (n : Z)
| JStr (s : jsstring)
| JArr (items : list JSVal)
| JObj (props : list (jsstring * JSVal)).
#[local] Set Elimination Schemes.

(** [typeof v], as far as the validators distinguish. *)
Inductive JSType := TUndefined | TObject | TBoolean | TNumber | TString.

Definition typeof (v : JSVal) : JSType :=
  match v with
  | JUndefined => TUndefined
  | JNull => TObject
  | JBool _ => TBoolean
  | JNum _ => TNumber
  | JStr _ => TString
  | JArr _ => TObject
  | JObj _ => TObject
  end.

Definition is_object (v : JSVal) : bool :=
  match typeof v with TObject => true | _ => false end.
Definition is_string (v : JSVal) : bool :=
  match typeof v with TString => true | _ => false end.
Definition is_number (v : JSVal) : bool :=
  match typeof v with TNumber => true | _ => false end.

(** ToBoolean. *)
Definition truthy (v : JSVal) : bool :=
  match v with
  | JUndefined | JNull => false
  | JBool b => b
  | JNum n => negb (n =? 0)
  | JStr s => negb (Nat.eqb (List.length s) 0)
  | JArr _ | JObj _ => true
  end.

Definition jsstring_eqb (a b : jsstring) : bool := bool_decide (a = b).

(** Property read [v.k]: the last binding of a parsed object wins;
    anything that is not a plain object has none of the properties the
    handlers read. *)
Fixpoint assoc_last (k : jsstring) (props : list (jsstring * JSVal))
         (found : JSVal) : JSVal :=
  match props with
  | [] => found
  | (k', v) :: rest =>
      assoc_last k rest (if jsstring_eqb k' k then v else found)
  end.

Definition get_prop (v : JSVal) (k : string) : JSVal :=
  match v with
  | JObj props => assoc_last (u16 k) props JUndefined
  | _ => JUndefined
  end.

(** *** [String.prototype.trim] *)

(** WhiteSpace and LineTerminator code points of ECMAScript. *)
Definition isWhiteSpace (c : N) : bool :=
  (((9 <=? c) && (c <=? 13)) || (c =? 32) || (c =? 160) || (c =? 5760)
   || ((8192 <=? c) && (c <=? 8202)) || (c =? 8232) || (c =? 8233)
   || (c =? 8239) || (c =? 8287) || (c =? 12288) || (c =? 65279))%N.

Fixpoint trimStart (s : jsstring) : jsstring :=
  match s with
  | c :: s' => if isWhiteSpace c then trimStart s' else s
  | [] => []
  end.

Definition trimEnd (s : jsstring) : jsstring := rev (trimStart (rev s)).

Definition trim (s : jsstring) : jsstring := trimEnd (trimStart s).

(** *** [s.replace(/c/g, rep)] for a one-character pattern and a
    replacement text without [$]. *)
Definition replaceAll (c : N) (rep : jsstring) (s : jsstring) : jsstring :=
  flat_map (fun x => if (x =? c)%N then rep else [x]) s.

(** *** Regular expressions of the shape the source uses

    A pattern is a sequence of atoms; an atom is a class of code units,
    taken once or one-or-more times.  [test] looks for a match starting
    at any position, as [RegExp.prototype.test] does for a pattern
    without the [g] and [y] flags. *)
Inductive atom := One (cls : N -> bool) | Plus (cls : N -> bool).

Fixpoint match_here (p : list atom) : jsstring -> bool :=
  match p with
  | [] => fun _ => true
  | One cls :: p' =>
      fun s => match s with
               | c :: s' => cls c && match_here p' s'
               | [] => false
               end
  | Plus cls :: p' =>
      fix plus (s : jsstring) : bool :=
        match s with
        | c :: s' => cls c && (plus s' || match_here p' s')
        | [] => false
        end
  end.

Fixpoint test (p : list atom) (s : jsstring) : bool :=
  match_here p s ||
  match s with
  | [] => false
  | _ :: s' => test p s'
  end.

(** Canonicalisation under the [i] flag (no [u] flag): only the ASCII
    letters fold onto each other. *)
Definition toUpper (c : N) : N :=
  (if (97 <=? c) && (c <=? 122) then c - 32 else c)%N.

Definition chr_i (a : ascii) : atom :=
  One (fun c => (toUpper c =? toUpper (N_of_ascii a))%N).

(** A literal, case-insensitive. *)
Definition lit_i (s : string) : list atom :=
  List.map chr_i (list_ascii_of_string s).

(** [\w] *)
Definition isWord (c : N) : bool :=
  (((48 <=? c) && (c <=? 57)) || ((65 <=? c) && (c <=? 90))
   || (c =? 95) || ((97 <=? c) && (c <=? 122)))%N.

(** *** The result of a division of two array lengths *)
Inductive ratio := NaN | PosInfinity | Quot (num den : nat).

Definition div_lengths (num den : nat) : ratio :=
  match den, num with
  | O, O => NaN
  | O, _ => PosInfinity
  | _, _ => Quot num den
  end.

(** [r > 0.3].  Every comparison with [NaN] is false.  For a quotient of
    two lengths below 2^50 the rounded quotient exceeds the double
    nearest to 0.3 exactly when the exact one exceeds 3/10. *)
Definition gt_0_3 (r : ratio) : bool :=
  match r with
  | NaN => false
  | PosInfinity => true
  | Quot num den => Nat.ltb (3 * den) (10 * num)
  end.

End JS.

Import JS.

(* ===================================================================== *)
(** ** [backend/websocket/security.js]: the pure validators *)
(* ===================================================================== *)

Module Security.

Definition MAX_MESSAGE_SIZE : Z := 1024 * 10.
Definition MAX_CONNECTIONS_PER_IP : nat := 10.
Definition MAX_CONNECTIONS_PER_USER : Z := 3.

(** [Buffer.byteLength(data) <= this.MAX_MESSAGE_SIZE] *)
Definition validateMessageSize (data : list Byte.byte) : bool :=
  Z.of_nat (List.length data) <=? MAX_MESSAGE_SIZE.

Definition validateMessageStructure (message : JSVal) : bool :=
  if negb (is_object message) || match message with JNull => true | _ => false end
  then false
  else
    let type := get_prop message "type" in
    if negb (truthy type) || negb (is_string type) then false
    else
      match type with
      | JStr t =>
          if jsstring_eqb t (u16 "authenticate") then
            is_string (get_prop message "token")
          else if jsstring_eqb t (u16 "private_message") then
            is_number (get_prop message "toUserId")
            && match get_prop message "message" with
               | JStr body => Nat.leb (List.length body) 1000
               | _ => false
               end
          else if jsstring_eqb t (u16 "typing_start")
                  || jsstring_eqb t (u16 "typing_stop") then
            is_number (get_prop message "toUserId")
          else if jsstring_eqb t (u16 "ping") then true
          else false
      | _ => false
      end.

Definition getMessageRateWindow (messageType : jsstring) : Z :=
  if jsstring_eqb messageType (u16 "private_message") then 60000
  else if jsstring_eqb messageType (u16 "typing_start") then 10000
  else if jsstring_eqb messageType (u16 "typing_stop") then 10000
  else if jsstring_eqb messageType (u16 "authenticate") then 30000
  else 60000.

Definition getMessageRateLimit (messageType : jsstring) : nat :=
  if jsstring_eqb messageType (u16 "private_message") then 60
  else if jsstring_eqb messageType (u16 "typing_start") then 10
  else if jsstring_eqb messageType (u16 "typing_stop") then 10
  else if jsstring_eqb messageType (u16 "authenticate") then 5
  else 60.

(** The seven dangerous patterns, in the order of the source. *)
Definition dangerousPatterns : list (list atom) :=
  [ lit_i "<script";
    lit_i "javascript:";
    lit_i "on" ++ [Plus isWord] ++ lit_i "=";
    lit_i "data:text/html";
    lit_i "vbscript:";
    lit_i "expression(";
    lit_i "url(javascript:" ].

(** The character class of the density check: the angle brackets, the
    single, double and back quote, the braces, the square brackets, the
    parentheses and the semicolon. *)
Definition isSpecialChar (c : N) : bool :=
  existsb (N.eqb c) [60; 62; 39; 34; 96; 123; 125; 91; 93; 40; 41; 59]%N.

Definition specialCharRatio (content : jsstring) : ratio :=
  div_lengths (List.length (List.filter isSpecialChar content))
              (List.length content).

Definition validateMessageContent (content : JSVal) : bool :=
  match content with
  | JStr s =>
      if existsb (fun pattern => test pattern s) dangerousPatterns then false
      else if gt_0_3 (specialCharRatio s) then false
      else true
  | _ => false
  end.

(** The six replacements, in the order of the source, before [trim]. *)
Definition escapeHtml (s : jsstring) : jsstring :=
  replaceAll 47 (u16 "&#x2F;")
    (replaceAll 39 (u16 "&#x27;")
      (replaceAll 34 (u16 "&quot;")
        (replaceAll 62 (u16 "&gt;")
          (replaceAll 60 (u16 "&lt;")
            (replaceAll 38 (u16 "&amp;") s))))).

Definition sanitizeMessageContent (content : JSVal) : jsstring :=
  match content with
  | JStr s => trim (escapeHtml s)
  | _ => []
  end.

End Security.

(* ===================================================================== *)
(** ** The datastore, as [database/schema-complete.sql] declares it *)
(* ===================================================================== *)

Module Db.

(** A bcrypt hash text determines, and is determined by, the salt it
    embeds and the digest that follows it (the cost is always 10). *)
Record BcryptHash := { hash_salt : N; hash_digest : N }.

#[global] Instance BcryptHash_eq_dec : EqDecision BcryptHash.
Proof. solve_decision. Defined.

(** A row of [messages].  [from_user_id] is nullable. *)
Record MessageRow := {
  msg_id : Z;
  from_user_id : option Z;
  to_user_id : Z;
  msg_body : jsstring;
  msg_read : bool;
  created_at : Z
}.

Record t := {
  users : gmap Z string;              (* users.id -> users.status *)
  buddies : list (Z * Z);             (* (user_id, buddy_user_id) *)
  blocks : list (Z * Z);              (* (blocker_id, blocked_id) *)
  messages : list MessageRow;         (* in insertion order *)
  messages_id_seq : Z;                (* last value of the SERIAL *)
  token_blacklist : list (BcryptHash * Z);  (* (token_hash, expires_at) *)
  faults : list bool                  (* whether the next queries fail *)
}.

Definition set_users v (d : t) : t :=
  {| users := v; buddies := buddies d; blocks := blocks d;
     messages := messages d; messages_id_seq := messages_id_seq d;
     token_blacklist := token_blacklist d; faults := faults d |}.
Definition set_messages v seq (d : t) : t :=
  {| users := users d; buddies := buddies d; blocks := blocks d;
     messages := v; messages_id_seq := seq;
     token_blacklist := token_blacklist d; faults := faults d |}.
Definition set_token_blacklist v (d : t) : t :=
  {| users := users d; buddies := buddies d; blocks := blocks d;
     messages := messages d; messages_id_seq := messages_id_seq d;
     token_blacklist := v; faults := faults d |}.
Definition set_faults v (d : t) : t :=
  {| users := users d; buddies := buddies d; blocks := blocks d;
     messages := messages d; messages_id_seq := messages_id_seq d;
     token_blacklist := token_blacklist d; faults := v |}.

(** Every call of [db.query] first learns whether the store answers at
    all: the head of [faults] says whether this call is rejected for a
    reason that the schema does not show (a lost connection, a timeout,
    a text the engine cannot encode). *)
Definition next_fault (d : t) : bool * t :=
  match faults d with
  | [] => (false, d)
  | b :: rest => (b, set_faults rest d)
  end.

(** [length(text)] of PostgreSQL counts characters: a surrogate pair is
    one character. *)
Definition isHighSurrogate (c : N) : bool := ((55296 <=? c) && (c <=? 56319))%N.
Definition isLowSurrogate (c : N) : bool := ((56320 <=? c) && (c <=? 57343))%N.

Fixpoint char_length (s : jsstring) : nat :=
  match s with
  | [] => O
  | c :: rest =>
      match rest with
      | d :: rest' =>
          if isHighSurrogate c && isLowSurrogate d
          then S (char_length rest')
          else S (char_length rest)
      | [] => 1%nat
      end
  end.

(** [SELECT 1 FROM buddies WHERE (user_id = $1 AND buddy_user_id = $2)
     OR (user_id = $2 AND buddy_user_id = $1)].  A NULL parameter equals
    nothing. *)
Definition buddy_edge_rows (d : t) (p1 : option Z) (p2 : Z) : list (Z * Z) :=
  match p1 with
  | None => []
  | Some a =>
      List.filter (fun r => ((fst r =? a) && (snd r =? p2))
                            || ((fst r =? p2) && (snd r =? a)))
                  (buddies d)
  end.

(** [SELECT 1 FROM blocks WHERE blocker_id = $1 AND blocked_id = $2] *)
Definition block_rows (d : t) (blocker : Z) (blocked : option Z) : list (Z * Z) :=
  match blocked with
  | None => []
  | Some b =>
      List.filter (fun r => (fst r =? blocker) && (snd r =? b)) (blocks d)
  end.

(** [SELECT buddy_user_id FROM buddies WHERE user_id = $1] *)
Definition buddy_ids (d : t) (uid : Z) : list Z :=
  List.map snd (List.filter (fun r => fst r =? uid) (buddies d)).

(** The constraints of [messages] on a new row:
    [CHECK (length(message) BETWEEN 1 AND 1000)],
    [CHECK (from_user_id != to_user_id)] (satisfied by NULL) and the two
    foreign keys into [users]. *)
Definition messages_accepts (d : t) (from : option Z) (to : Z)
           (body : jsstring) : bool :=
  Nat.leb 1 (char_length body) && Nat.leb (char_length body) 1000
  && match from with
     | None => true
     | Some a => negb (a =? to) && bool_decide (is_Some (users d !! a))
     end
  && bool_decide (is_Some (users d !! to)).

(** [INSERT INTO messages (from_user_id, to_user_id, message)
     VALUES ($1, $2, $3) RETURNING id, created_at].  The id is drawn from
    the sequence before the constraints are checked. *)
Definition insert_message (d : t) (from : option Z) (to : Z)
           (body : jsstring) (now : Z) : option (Z * Z) * t :=
  let id := messages_id_seq d + 1 in
  if messages_accepts d from to body then
    (Some (id, now),
     set_messages (messages d ++
                   [{| msg_id := id; from_user_id := from; to_user_id := to;
                       msg_body := body; msg_read := false;
                       created_at := now |}]) id d)
  else (None, set_messages (messages d) id d).

(** [UPDATE users SET status = $1 WHERE id = $2] *)
Definition update_status (d : t) (status : string) (uid : Z) : t :=
  match users d !! uid with
  | Some _ => set_users (<[uid := status]> (users d)) d
  | None => d
  end.

(** [INSERT INTO token_blacklist (token_hash, expires_at) VALUES ($1, $2)
     ON CONFLICT (token_hash) DO NOTHING] *)
Definition insert_blacklist (d : t) (h : BcryptHash) (expires_at : Z) : t :=
  if existsb (fun r => bool_decide (fst r = h)) (token_blacklist d) then d
  else set_token_blacklist (token_blacklist d ++ [(h, expires_at)]) d.

(** [SELECT 1 FROM token_blacklist WHERE token_hash = $1
     AND expires_at > NOW()] *)
Definition blacklist_rows (d : t) (h : BcryptHash) (now : Z)
  : list (BcryptHash * Z) :=
  List.filter (fun r => bool_decide (fst r = h) && (now <? snd r))
              (token_blacklist d).


End Db.

(* ===================================================================== *)
(** ** The process state and the effects of a handler *)
(* ===================================================================== *)

Module Runtime.

(** A connection is named by a number; the [ws] object it names carries
    the fields the server sets on it, the library's [readyState]
    (0 connecting, 1 open, 2 closing, 3 closed) and whether its
    [send] and [close] raise. *)
Abbreviation conn := nat.

Record Socket := {
  ip : jsstring;
  isAuthenticated : bool;
  userId : option Z;
  isAlive : bool;
  readyState : Z;
  throws : bool
}.

Inductive Direction := Outgoing | Incoming.

(** The objects handed to [JSON.stringify] and [ws.send]. *)
Inductive ServerMsg :=
| MsgError (message : string)
| MsgAuthSuccess (id : Z) (email : jsstring)
| MsgAuthError (message : string)
| MsgPrivate (fromUserId : option Z) (message : jsstring) (messageId : Z)
             (timestamp : Z) (direction : Direction)
| MsgBuddyStatus (uid : Z) (status : string) (timestamp : Z)
| MsgTyping (type : jsstring) (fromUserId : option Z) (timestamp : Z)
| MsgPong.

(** What a handler did, oldest first: a [send] or [close] that returned,
    or a console line (its fixed text). *)
Inductive Event :=
| EvSend (c : conn) (m : ServerMsg)
| EvClose (c : conn) (code : Z) (reason : string)
| EvLog (text : string).

Record World := {
  sockets : gmap conn Socket;
  wsConnections : gmap Z conn;          (* the registry module *)
  connections : gmap Z conn;            (* SecureWebSocketServer.connections *)
  connectionAttempts : gmap jsstring (list Z);  (* security *)
  messageRates : gmap jsstring (list Z);        (* security *)
  userConnections : gmap Z Z;                   (* security *)
  db : Db.t;
  trace : list Event
}.

Definition set_sockets v (w : World) : World :=
  {| sockets := v; wsConnections := wsConnections w;
     connections := connections w;
     connectionAttempts := connectionAttempts w;
     messageRates := messageRates w; userConnections := userConnections w;
     db := db w; trace := trace w |}.
Definition set_wsConnections v (w : World) : World :=
  {| sockets := sockets w; wsConnections := v;
     connections := connections w;
     connectionAttempts := connectionAttempts w;
     messageRates := messageRates w; userConnections := userConnections w;
     db := db w; trace := trace w |}.
Definition set_connections v (w : World) : World :=
  {| sockets := sockets w; wsConnections := wsConnections w;
     connections := v;
     connectionAttempts := connectionAttempts w;
     messageRates := messageRates w; userConnections := userConnections w;
     db := db w; trace := trace w |}.
Definition set_connectionAttempts v (w : World) : World :=
  {| sockets := sockets w; wsConnections := wsConnections w;
     connections := connections w;
     connectionAttempts := v;
     messageRates := messageRates w; userConnections := userConnections w;
     db := db w; trace := trace w |}.
Definition set_messageRates v (w : World) : World :=
  {| sockets := sockets w; wsConnections := wsConnections w;
     connections := connections w;
     connectionAttempts := connectionAttempts w;
     messageRates := v; userConnections := userConnections w;
     db := db w; trace := trace w |}.
Definition set_userConnections v (w : World) : World :=
  {| sockets := sockets w; wsConnections := wsConnections w;
     connections := connections w;
     connectionAttempts := connectionAttempts w;
     messageRates := messageRates w; userConnections := v;
     db := db w; trace := trace w |}.
Definition set_db v (w : World) : World :=
  {| sockets := sockets w; wsConnections := wsConnections w;
     connections := connections w;
     connectionAttempts := connectionAttempts w;
     messageRates := messageRates w; userConnections := userConnections w;
     db := v; trace := trace w |}.
Definition set_trace v (w : World) : World :=
  {| sockets := sockets w; wsConnections := wsConnections w;
     connections := connections w;
     connectionAttempts := connectionAttempts w;
     messageRates := messageRates w; userConnections := userConnections w;
     db := db w; trace := v |}.

(** *** Computations that read and change the world and may raise *)

Inductive Outcome (A : Type) :=
| Ok (a : A)
| Throw (e : string).
Arguments Ok {A} a.
Arguments Throw {A} e.

Definition M (A : Type) : Type := World -> Outcome A * World.

Definition ret {A} (a : A) : M A := fun w => (Ok a, w).

Definition bind {A B} (m : M A) (k : A -> M B) : M B :=
  fun w =>
    match m w with
    | (Ok a, w') => k a w'
    | (Throw e, w') => (Throw e, w')
    end.

Definition throw {A} (e : string) : M A := fun w => (Throw e, w).

(** [try { body } catch (error) { handler }] *)
Definition tryCatch {A} (body : M A) (handler : string -> M A) : M A :=
  fun w =>
    match body w with
    | (Ok a, w') => (Ok a, w')
    | (Throw e, w') => handler e w'
    end.

Definition gets {A} (f : World -> A) : M A := fun w => (Ok (f w), w).
Definition modify (f : World -> World) : M unit := fun w => (Ok tt, f w).

Declare Scope js_scope.
Delimit Scope js_scope with js.
Notation "'let!' x ':=' m 'in' k" := (bind m (fun x => k))
  (at level 10, x name, m at level 100, k at level 200) : js_scope.
Notation "m ;; k" := (bind m (fun _ => k))
  (at level 100, k at level 200, right associativity) : js_scope.
Local Open Scope js_scope.

(** [for (const x of xs) body(x)]: an exception leaves the loop. *)
Fixpoint forEach {A} (xs : list A) (body : A -> M unit) : M unit :=
  match xs with
  | [] => ret tt
  | x :: rest => body x ;; forEach rest body
  end.

Definition log (text : string) : M unit :=
  modify (fun w => set_trace (trace w ++ [EvLog text]) w).

(** *** The socket methods *)

Definition ws_send (c : conn) (m : ServerMsg) : M unit :=
  fun w =>
    match sockets w !! c with
    | Some s =>
        if throws s then (Throw "send failed", w)
        else (Ok tt, set_trace (trace w ++ [EvSend c m]) w)
    | None => (Throw "no such socket", w)
    end.

Definition set_readyState (v : Z) (s : Socket) : Socket :=
  {| ip := ip s; isAuthenticated := isAuthenticated s; userId := userId s;
     isAlive := isAlive s; readyState := v; throws := throws s |}.

(** [ws.close(code, reason)] starts the closing handshake of an open
    socket; the close event comes later, from outside. *)
Definition ws_close (c : conn) (code : Z) (reason : string) : M unit :=
  fun w =>
    match sockets w !! c with
    | Some s =>
        if throws s then (Throw "close failed", w)
        else
          let s' := if readyState s =? 1 then set_readyState 2 s else s in
          (Ok tt, set_trace (trace w ++ [EvClose c code reason])
                    (set_sockets (<[c := s']> (sockets w)) w))
    | None => (Throw "no such socket", w)
    end.

(** [ws && ws.readyState === 1] for a possibly absent connection. *)
Definition isOpen (w : World) (oc : option conn) : bool :=
  match oc with
  | Some c =>
      match sockets w !! c with
      | Some s => readyState s =? 1
      | None => false
      end
  | None => false
  end.

(** *** [db.query], one call per statement *)

Definition db_query {A} (q : Db.t -> option A * Db.t) : M A :=
  fun w =>
    match Db.next_fault (db w) with
    | (true, d) => (Throw "query failed", set_db d w)
    | (false, d) =>
        match q d with
        | (Some a, d') => (Ok a, set_db d' w)
        | (None, d') => (Throw "constraint violated", set_db d' w)
        end
    end.

End Runtime.

Import Runtime.
Local Open Scope js_scope.

(* ===================================================================== *)
(** ** [backend/websocket/security.js]: the counters *)
(* ===================================================================== *)

Module Counters.

Import Security.

(** One-minute sliding window of connection attempts per IP.  A refused
    attempt stores nothing. *)
Definition checkConnectionLimit (ip : jsstring) (now : Z) : M bool :=
  fun w =>
    let windowStart := now - 60 * 1000 in
    let attempts := default [] (connectionAttempts w !! ip) in
    let attempts := List.filter (fun time => windowStart <? time) attempts in
    if Nat.leb MAX_CONNECTIONS_PER_IP (List.length attempts) then (Ok false, w)
    else
      (Ok true,
       set_connectionAttempts
         (<[ip := attempts ++ [now]]> (connectionAttempts w)) w).

(** [this.userConnections.get(userId) || 0] *)
Definition checkUserConnectionLimit (uid : Z) : M bool :=
  fun w =>
    let currentConnections := default 0 (userConnections w !! uid) in
    if MAX_CONNECTIONS_PER_USER <=? currentConnections then (Ok false, w)
    else
      (Ok true,
       set_userConnections
         (<[uid := currentConnections + 1]> (userConnections w)) w).

(** [this.userConnections.get(userId) || 1]: an absent count and a
    stored zero both read as one. *)
Definition removeUserConnection (uid : Z) : M unit :=
  fun w =>
    let currentConnections :=
      match userConnections w !! uid with
      | Some n => if n =? 0 then 1 else n
      | None => 1
      end in
    (Ok tt,
     set_userConnections
       (<[uid := Z.max 0 (currentConnections - 1)]> (userConnections w)) w).

(** Sliding window per [ip:messageType] key.  The window and the ceiling
    are those of the five message types that pass structure validation,
    the only ones this is called with. *)
Definition checkMessageRateLimit (ip messageType : jsstring) (now : Z)
  : M bool :=
  fun w =>
    let key := ip ++ u16 ":" ++ messageType in
    let windowMs := getMessageRateWindow messageType in
    let maxMessages := getMessageRateLimit messageType in
    let messages := default [] (messageRates w !! key) in
    let messages := List.filter (fun time => now - windowMs <? time) messages in
    if Nat.leb maxMessages (List.length messages) then (Ok false, w)
    else
      (Ok true,
       set_messageRates (<[key := messages ++ [now]]> (messageRates w)) w).

End Counters.

(* ===================================================================== *)
(** ** The connection registry ([wsConnections] and its functions) *)
(* ===================================================================== *)

Module Registry.

Definition disconnectUserWebSocket (uid : Z) : M unit :=
  let! connection := gets (fun w => wsConnections w !! uid) in
  match connection with
  | Some c =>
      tryCatch
        (ws_close c 1000 "Logged out" ;;
         log "Disconnected WebSocket for user")
        (fun _ => log "Error disconnecting WebSocket:") ;;
      modify (fun w => set_wsConnections (delete uid (wsConnections w)) w)
  | None => ret tt
  end.

Definition registerWebSocketConnection (uid : Z) (ws : conn) : M unit :=
  let! existing := gets (fun w => wsConnections w !! uid) in
  match existing with
  | Some e =>
      tryCatch
        (ws_close e 1000 "New connection established")
        (fun _ => log "Error closing existing WebSocket:")
  | None => ret tt
  end ;;
  modify (fun w => set_wsConnections (<[uid := ws]> (wsConnections w)) w) ;;
  log "Registered WebSocket for user".

Definition getWebSocketConnection (uid : Z) : M (option conn) :=
  gets (fun w => wsConnections w !! uid).

Definition getConnectionCount : M nat :=
  gets (fun w => size (wsConnections w)).

End Registry.

(* ===================================================================== *)
(** ** The message handler (class [MessageHandler]) *)
(* ===================================================================== *)

Module MessageHandler.

Import Security Registry.

Definition socket_userId (c : conn) : M (option Z) :=
  gets (fun w => match sockets w !! c with
                 | Some s => userId s
                 | None => None
                 end).

(** The recipient id as a query parameter.  The handlers below run only
    on messages whose [toUserId] passed [typeof ... === 'number']; for
    anything else the statement is rejected. *)
Definition int_param (v : JSVal) : M Z :=
  match v with
  | JNum n => ret n
  | _ => throw "invalid input syntax for type integer"
  end.

Definition handlePrivateMessage (ws : conn) (message : JSVal) (now : Z)
  : M unit :=
  tryCatch
    (let toUserId := get_prop message "toUserId" in
     let content := get_prop message "message" in
     if negb (validateMessageContent content) then
       ws_send ws (MsgError "Message contains invalid content")
     else
       let sanitizedContent := sanitizeMessageContent content in
       let! sender := socket_userId ws in
       let! to := int_param toUserId in
       let! areBuddies :=
         db_query (fun d => (Some (Db.buddy_edge_rows d sender to), d)) in
       if Nat.eqb (List.length areBuddies) 0 then
         ws_send ws (MsgError "You can only message your buddies")
       else
         let! isBlocked :=
           db_query (fun d => (Some (Db.block_rows d to sender), d)) in
         if Nat.ltb 0 (List.length isBlocked) then
           ws_send ws (MsgError "Cannot send message to this user")
         else
           let! savedMessage :=
             db_query (fun d => Db.insert_message d sender to
                                                  sanitizedContent now) in
           ws_send ws (MsgPrivate sender sanitizedContent
                                  (fst savedMessage) (snd savedMessage)
                                  Outgoing) ;;
           let! recipientWs := getWebSocketConnection to in
           let! recipientOpen := gets (fun w => isOpen w recipientWs) in
           match recipientWs with
           | Some r =>
               if recipientOpen then
                 ws_send r (MsgPrivate sender sanitizedContent
                                       (fst savedMessage) (snd savedMessage)
                                       Incoming)
               else ret tt
           | None => ret tt
           end ;;
           log "Message sent")
    (fun _ =>
       log "Private message handling error:" ;;
       ws_send ws (MsgError "Failed to send message")).

Definition type_text (message : JSVal) : jsstring :=
  match get_prop message "type" with
  | JStr t => t
  | _ => []
  end.

Definition handleTypingIndicator (ws : conn) (message : JSVal) (now : Z)
  : M unit :=
  tryCatch
    (let toUserId := get_prop message "toUserId" in
     let! sender := socket_userId ws in
     let! to := int_param toUserId in
     let! areBuddies :=
       db_query (fun d => (Some (Db.buddy_edge_rows d sender to), d)) in
     if Nat.eqb (List.length areBuddies) 0 then ret tt
     else
       let! recipientWs := getWebSocketConnection to in
       let! recipientOpen := gets (fun w => isOpen w recipientWs) in
       match recipientWs with
       | Some r =>
           if recipientOpen then
             ws_send r (MsgTyping (type_text message) sender now)
           else ret tt
       | None => ret tt
       end)
    (fun _ => log "Typing indicator handling error:").

End MessageHandler.

(* ===================================================================== *)
(** ** The WebSocket server (class [SecureWebSocketServer]) *)
(* ===================================================================== *)

Module Server.

Import Security Counters Registry MessageHandler.

(** The claims of a verified access token. *)
Record Decoded := { tok_id : Z; tok_email : jsstring; tok_type : jsstring }.

Definition new_socket (faulty : bool) : Socket :=
  {| ip := []; isAuthenticated := false; userId := None; isAlive := false;
     readyState := 1; throws := faulty |}.

Definition set_fields (ip' : jsstring) (auth : bool) (uid : option Z)
           (alive : bool) (s : Socket) : Socket :=
  {| ip := ip'; isAuthenticated := auth; userId := uid; isAlive := alive;
     readyState := readyState s; throws := throws s |}.

Definition update_socket (c : conn) (f : Socket -> Socket) : M unit :=
  modify (fun w => set_sockets (alter f c (sockets w)) w).

Definition socket_field {A} (c : conn) (f : Socket -> A) (dflt : A) : M A :=
  gets (fun w => match sockets w !! c with
                 | Some s => f s
                 | None => dflt
                 end).

Section WithLibraries.

(** The two library calls whose results the server consumes:
    [JSON.parse(data.toString())] and
    [jwt.verify(token, process.env.JWT_SECRET)]; [None] is a raised
    exception. *)
Variable JSON_parse : list Byte.byte -> option JSVal.
Variable jwt_verify : jsstring -> option Decoded.

Definition notifyBuddiesStatusChange (uid : Z) (status : string) (now : Z)
  : M unit :=
  tryCatch
    (let! buddies := db_query (fun d => (Some (Db.buddy_ids d uid), d)) in
     forEach buddies
       (fun buddy =>
          let! buddyWs := gets (fun w => connections w !! buddy) in
          let! buddyOpen := gets (fun w => isOpen w buddyWs) in
          match buddyWs with
          | Some b =>
              if buddyOpen then ws_send b (MsgBuddyStatus uid status now)
              else ret tt
          | None => ret tt
          end))
    (fun _ => log "Error notifying buddies about status change:").

Definition handleAuthentication (ws : conn) (token : JSVal) (now : Z)
  : M unit :=
  tryCatch
    (if negb (truthy token) then throw "Authentication token required"
     else
       let! decoded :=
         match token with
         | JStr t =>
             match jwt_verify t with
             | Some d => ret d
             | None => throw "jwt malformed"
             end
         | _ => throw "jwt must be a string"
         end in
       if negb (jsstring_eqb (tok_type decoded) (u16 "access")) then
         throw "Invalid token type"
       else
         let! allowed := checkUserConnectionLimit (tok_id decoded) in
         if negb allowed then
           ws_close ws 1008 "Too many connections for this user"
         else
           update_socket ws
             (fun s => set_fields (ip s) true (Some (tok_id decoded))
                                  (isAlive s) s) ;;
           registerWebSocketConnection (tok_id decoded) ws ;;
           modify (fun w => set_connections
                              (<[tok_id decoded := ws]> (connections w)) w) ;;
           db_query (fun d => (Some tt,
                               Db.update_status d "online" (tok_id decoded))) ;;
           ws_send ws (MsgAuthSuccess (tok_id decoded) (tok_email decoded)) ;;
           log "WebSocket authenticated for user" ;;
           notifyBuddiesStatusChange (tok_id decoded) "online" now)
    (fun _ =>
       log "WebSocket authentication error:" ;;
       ws_send ws (MsgAuthError "Authentication failed") ;;
       ws_close ws 1008 "Authentication failed").

Definition handleMessage (ws : conn) (message : JSVal) (now : Z) : M unit :=
  let type := type_text message in
  if jsstring_eqb type (u16 "authenticate") then
    handleAuthentication ws (get_prop message "token") now
  else if jsstring_eqb type (u16 "private_message") then
    let! authenticated := socket_field ws isAuthenticated false in
    if authenticated then handlePrivateMessage ws message now else ret tt
  else if jsstring_eqb type (u16 "typing_start")
          || jsstring_eqb type (u16 "typing_stop") then
    let! authenticated := socket_field ws isAuthenticated false in
    if authenticated then handleTypingIndicator ws message now else ret tt
  else if jsstring_eqb type (u16 "ping") then
    ws_send ws MsgPong
  else
    ws_send ws (MsgError "Unknown message type").

(** [setupMessageHandler(ws)]: the [message] listener it installs on the
    socket, applied to one payload. *)
Definition setupMessageHandler (ws : conn) (data : list Byte.byte) (now : Z) : M unit :=
  tryCatch
    (if negb (validateMessageSize data) then
       ws_close ws 1009 "Message too large"
     else
       let! message :=
         match JSON_parse data with
         | Some v => ret v
         | None => throw "Unexpected token in JSON"
         end in
       if negb (validateMessageStructure message) then
         ws_send ws (MsgError "Invalid message format")
       else
         let! ip := socket_field ws ip [] in
         let! withinRate := checkMessageRateLimit ip (type_text message) now in
         if negb withinRate then
           ws_send ws (MsgError "Rate limit exceeded")
         else
           handleMessage ws message now)
    (fun _ =>
       log "WebSocket message handling error:" ;;
       ws_send ws (MsgError "Invalid message")).

(** [setupEvents]: the [connection] listener it installs, applied to the
    open socket [ws] that the library has just created. *)
Definition setupEvents (ws : conn) (remoteAddress : jsstring)
           (faulty : bool) (now : Z) : M unit :=
  modify (fun w => set_sockets (<[ws := new_socket faulty]> (sockets w)) w) ;;
  log "New WebSocket connection from" ;;
  let! accepted := checkConnectionLimit remoteAddress now in
  if negb accepted then ws_close ws 1008 "Too many connections"
  else update_socket ws (set_fields remoteAddress false None true).

(** [if (ws.userId)] *)
Definition truthy_id (uid : option Z) : option Z :=
  match uid with
  | Some n => if n =? 0 then None else Some n
  | None => None
  end.

(** [setupCloseHandler(ws)]: the [close] listener it installs; the
    library has just moved the socket to the closed state. *)
Definition setupCloseHandler (ws : conn) (now : Z) : M unit :=
  update_socket ws (set_readyState 3) ;;
  log "WebSocket connection closed for user" ;;
  let! uid := socket_userId ws in
  match truthy_id uid with
  | Some u =>
      modify (fun w => set_connections (delete u (connections w)) w) ;;
      disconnectUserWebSocket u ;;
      tryCatch
        (db_query (fun d => (Some tt, Db.update_status d "offline" u)) ;;
         notifyBuddiesStatusChange u "offline" now)
        (fun _ => log "Error updating user status on disconnect:")
  | None => ret tt
  end.

End WithLibraries.

End Server.

(* ===================================================================== *)
(** ** The token blacklist (class [TokenBlacklist]) *)
(* ===================================================================== *)

Module TokenBlacklist.

(** What [jwt.decode] reads from a token: the user id and the expiry,
    either of which may be missing. *)
Record Claims := { claim_id : option Z; claim_exp : option Z }.

Section WithLibraries.

(** [jwt.decode(token)], [None] for a token it cannot decode; and the
    digest bcrypt computes from a salt and a text at cost 10. *)
Variable jwt_decode : jsstring -> option Claims.
Variable bcrypt_digest : N -> jsstring -> N.

(** [bcrypt.hash(token, 10)] with the salt the library has drawn for
    this call. *)
Definition bcrypt_hash (salt : N) (token : jsstring) : Db.BcryptHash :=
  {| Db.hash_salt := salt; Db.hash_digest := bcrypt_digest salt token |}.

(** [bcrypt.compare(token, hash)]: rehash with the salt of [hash]. *)
Definition bcrypt_compare (token : jsstring) (h : Db.BcryptHash) : bool :=
  bool_decide (bcrypt_hash (Db.hash_salt h) token = h).

Definition addToken (salt : N) (token : jsstring) : M bool :=
  tryCatch
    (match jwt_decode token with
     | None =>
         log "Invalid token format for blacklisting" ;; ret false
     | Some decoded =>
         match claim_exp decoded with
         | None =>
             log "Invalid token format for blacklisting" ;; ret false
         | Some exp =>
             if exp =? 0 then
               log "Invalid token format for blacklisting" ;; ret false
             else
               let tokenHash := bcrypt_hash salt token in
               let expiresAt := exp * 1000 in
               db_query (fun d =>
                 (Some tt, Db.insert_blacklist d tokenHash expiresAt)) ;;
               log "Token blacklisted for user" ;;
               ret true
         end
     end)
    (fun _ => log "Token blacklist error:" ;; ret false).

Definition isTokenBlacklisted (salt : N) (token : jsstring) (now : Z)
  : M bool :=
  tryCatch
    (let tokenHash := bcrypt_hash salt token in
     let! result :=
       db_query (fun d => (Some (Db.blacklist_rows d tokenHash now), d)) in
     ret (Nat.ltb 0 (List.length result)))
    (fun _ => log "Token blacklist check error:" ;; ret true).

End WithLibraries.

End TokenBlacklist.

(* ===================================================================== *)
(** ** Vocabulary of the statements *)
(* ===================================================================== *)

Module Vocabulary.

(** The six characters that [escapeHtml] rewrites: ampersand, the angle
    brackets, the double and single quote and the slash. *)
Definition isEscaped (c : N) : bool :=
  existsb (N.eqb c) [38; 60; 62; 34; 39; 47]%N.

(** What one code unit becomes under the six replacements. *)
Definition escape1 (c : N) : jsstring :=
  (if c =? 38 then u16 "&amp;"
   else if c =? 60 then u16 "&lt;"
   else if c =? 62 then u16 "&gt;"
   else if c =? 34 then u16 "&quot;"
   else if c =? 39 then u16 "&#x27;"
   else if c =? 47 then u16 "&#x2F;"
   else [c])%N.

(** The code units of a text that are not white space. *)
Definition visible (s : jsstring) : jsstring :=
  List.filter (fun x => negb (isWhiteSpace x)) s.

(** The wire message [{type: 'private_message', toUserId, message}]. *)
Definition private_message (to : Z) (body : jsstring) : JSVal :=
  JObj [ (u16 "type", JStr (u16 "private_message"));
         (u16 "toUserId", JNum to);
         (u16 "message", JStr body) ].

(** Running a handler: the events it appended and the world it left. *)
Definition run {A} (m : M A) (w : World) : World := snd (m w).
Definition result {A} (m : M A) (w : World) : Outcome A := fst (m w).

(** A buddy edge between [a] and [b], in either direction. *)
Definition buddy_edge (d : Db.t) (a b : Z) : bool :=
  existsb (fun r => ((fst r =? a) && (snd r =? b))
                    || ((fst r =? b) && (snd r =? a))) (Db.buddies d).

(** [blocker] has blocked [blocked]. *)
Definition has_blocked (d : Db.t) (blocker blocked : Z) : bool :=
  existsb (fun r => (fst r =? blocker) && (snd r =? blocked)) (Db.blocks d).


(** Whether the [n]-th next call of [db.query] is rejected. *)
Definition fault_at (n : nat) (d : Db.t) : bool := nth n (Db.faults d) false.

(** A computation that leaves the per-user connection counts alone. *)
Definition keeps_user_counts {A} (m : M A) : Prop :=
  forall w, userConnections (run m w) = userConnections w.

(** The connections a status change of [uid] is pushed to: for each
    buddy row of [uid], in row order, the buddy's connection in
    [SecureWebSocketServer.connections] when it is open. *)
Definition open_connections (socks : gmap conn Socket) (conns : gmap Z conn)
           (ids : list Z) : list conn :=
  flat_map (fun b => match conns !! b with
                     | Some c =>
                         match socks !! c with
                         | Some sc => if readyState sc =? 1 then [c] else []
                         | None => []
                         end
                     | None => []
                     end) ids.

Definition fanout_targets (w : World) (uid : Z) : list conn :=
  open_connections (sockets w) (connections w) (Db.buddy_ids (db w) uid).

(** Whether a call on the socket raises. *)
Definition raises (socks : gmap conn Socket) (c : conn) : bool :=
  match socks !! c with
  | Some sc => throws sc
  | None => true
  end.

(** The WebSocket close codes for a policy violation and for a message
    that is too big; the server closes with the first when it refuses a
    connection or an authentication. *)
Definition CLOSE_POLICY_VIOLATION : Z := 1008.
Definition CLOSE_MESSAGE_TOO_BIG : Z := 1009.

(** The message types that a connection may use before it has
    authenticated. *)
Definition ignored_before_authentication (type : jsstring) : Prop :=
  type = u16 "private_message" \/ type = u16 "typing_start"
  \/ type = u16 "typing_stop".

End Vocabulary.

Import Vocabulary.

(* ===================================================================== *)
(** ** Concrete worlds used to exercise the statements *)
(* ===================================================================== *)

Module Scenario.

(** Alice is user 1 on connection 10, Bob user 2 on connection 20, Carol
    user 3 on connection 30.  Alice and Bob are buddies, Alice and Carol
    are buddies, Carol has blocked Alice, Dave (4) is nobody's buddy. *)
Definition open_socket (uid : Z) (faulty : bool) : Socket :=
  {| ip := u16 "10.0.0.1"; isAuthenticated := true; userId := Some uid;
     isAlive := true; readyState := 1; throws := faulty |}.

Definition store : Db.t :=
  {| Db.users := <[1 := "online"%string]> (<[2 := "online"%string]>
                   (<[3 := "online"%string]> (<[4 := "offline"%string]> ∅)));
     Db.buddies := [(1, 2); (2, 1); (1, 3); (3, 1)];
     Db.blocks := [(3, 1)];
     Db.messages := [];
     Db.messages_id_seq := 0;
     Db.token_blacklist := [];
     Db.faults := [] |}.

Definition world : World :=
  {| sockets := <[10%nat := open_socket 1 false]>
                  (<[20%nat := open_socket 2 false]>
                     (<[30%nat := open_socket 3 false]> ∅));
     wsConnections := <[1 := 10%nat]> (<[2 := 20%nat]> (<[3 := 30%nat]> ∅));
     connections := <[1 := 10%nat]> (<[2 := 20%nat]> (<[3 := 30%nat]> ∅));
     connectionAttempts := ∅;
     messageRates := ∅;
     userConnections := <[1 := 1]> (<[2 := 1]> (<[3 := 1]> ∅));
     db := store;
     trace := [] |}.

(** The same world with the third statement of the next handler
    rejected by the store. *)
Definition world_insert_down : World :=
  set_db (Db.set_faults [false; false; true] store) world.

(** The same world with Bob's socket raising on every call. *)
Definition world_bob_faulty : World :=
  set_sockets (<[20%nat := open_socket 2 true]> (sockets world)) world.

(** A verifier that accepts the access tokens [tok-1] of Alice and
    [tok-2] of Bob and nothing else. *)
Definition jwt (token : jsstring) : option Server.Decoded :=
  if jsstring_eqb token (u16 "tok-1") then
    Some {| Server.tok_id := 1; Server.tok_email := u16 "alice@example.org";
            Server.tok_type := u16 "access" |}
  else if jsstring_eqb token (u16 "tok-2") then
    Some {| Server.tok_id := 2; Server.tok_email := u16 "bob@example.org";
            Server.tok_type := u16 "access" |}
  else None.

(** A process that has just started, over the same store. *)
Definition fresh : World :=
  {| sockets := ∅; wsConnections := ∅; connections := ∅;
     connectionAttempts := ∅; messageRates := ∅; userConnections := ∅;
     db := store; trace := [] |}.

(** The wire message [{type: 'authenticate', token}]. *)
Definition authenticate (token : string) : JSVal :=
  JObj [ (u16 "type", JStr (u16 "authenticate"));
         (u16 "token", JStr (u16 token)) ].

(** Alice connects on [c], authenticates, and the connection closes. *)
Definition session (c : conn) (now : Z) : M unit :=
  Server.setupEvents c (u16 "10.0.0.1") false now ;;
  Server.handleMessage jwt c (authenticate "tok-1") now ;;
  Server.setupCloseHandler c (now + 500).

(** Alice connects on [c] and tries to authenticate. *)
Definition attempt (c : conn) (now : Z) : M unit :=
  Server.setupEvents c (u16 "10.0.0.1") false now ;;
  Server.handleMessage jwt c (authenticate "tok-1") now.

(** A payload of 10 KiB and one byte. *)
Definition oversized : list Byte.byte := List.repeat Byte.x20 (Z.to_nat 10241).

(** A parser that knows one payload: the bytes [pm] stand for Alice's
    [private_message] to Bob. *)
Definition payload_pm : list Byte.byte := [Byte.x70; Byte.x6d].
Definition parse (data : list Byte.byte) : option JSVal :=
  match data with
  | [Byte.x70; Byte.x6d] => Some (private_message 2 (u16 "hello"))
  | _ => None
  end.

(** Connection 40 has been accepted but has not authenticated. *)
Definition world_with_guest : World :=
  set_sockets
    (<[40%nat := {| ip := u16 "10.0.0.9"; isAuthenticated := false;
                    userId := None; isAlive := true; readyState := 1;
                    throws := false |}]> (sockets world)) world.

(** A decoder that reads the expiry 1700000000 from every token, and a
    stand-in for the bcrypt digest. *)
Definition decode (token : jsstring) : option TokenBlacklist.Claims :=
  Some {| TokenBlacklist.claim_id := Some 1;
          TokenBlacklist.claim_exp := Some 1700000000 |}.
Definition digest (salt : N) (token : jsstring) : N :=
  (salt * 31 + N.of_nat (List.length token))%N.

End Scenario.

(* ===================================================================== *)
(** ** Further vocabulary *)
(* ===================================================================== *)

Module Notions.

(** The five characters that only occur escaped in a sanitized text: the
    angle brackets, the double and single quote and the slash. *)
Definition isMarkup (c : N) : bool :=
  existsb (N.eqb c) [60; 62; 34; 39; 47]%N.

(** Whether one of the dangerous patterns matches somewhere in a text. *)
Definition dangerous (s : jsstring) : bool :=
  existsb (fun pattern => test pattern s) Security.dangerousPatterns.

(** The class of code units an atom accepts. *)
Definition atom_class (a : atom) : N -> bool :=
  match a with One cls => cls | Plus cls => cls end.

End Notions.

Import Notions.

(* ===================================================================== *)
(** ** [backend/websocket/security.js]: the hourly sweep *)
(* ===================================================================== *)

Module Sweep.

(** What the sweep does to one of the two maps of timestamp lists: every
    list keeps the entries of the last hour, and a key whose list becomes
    empty is deleted.  (Deleting the current key and setting an existing
    one while iterating a [Map] visits every entry once.) *)
Definition sweepWindows (oneHourAgo : Z) (m : gmap jsstring (list Z))
  : gmap jsstring (list Z) :=
  omap (fun times =>
          match List.filter (fun time => oneHourAgo <? time) times with
          | [] => None
          | recent => Some recent
          end) m.

(** [if (count === 0) this.userConnections.delete(userId)] *)
Definition sweepCounts (m : gmap Z Z) : gmap Z Z :=
  omap (fun count => if count =? 0 then None else Some count) m.

Definition cleanupRateLimits (now : Z) : M unit :=
  modify (fun w =>
    let oneHourAgo := now - 60 * 60 * 1000 in
    set_userConnections (sweepCounts (userConnections w))
      (set_messageRates (sweepWindows oneHourAgo (messageRates w))
         (set_connectionAttempts
            (sweepWindows oneHourAgo (connectionAttempts w)) w))).

End Sweep.

(* ===================================================================== *)
(** ** Vocabulary of the limiters *)
(* ===================================================================== *)

Module Limiter.

(** Running the same step on a list of inputs, collecting the answers;
    an exception ends the run. *)
Fixpoint each {A B} (xs : list A) (f : A -> M B) : M (list B) :=
  match xs with
  | [] => ret []
  | x :: rest =>
      let! b := f x in
      let! bs := each rest f in
      ret (b :: bs)
  end.

(** The attempts recorded for an IP, the messages recorded for an
    [ip:type] key, the count recorded for a user: what the limiters read,
    an absent entry reading as empty or zero. *)
Definition attempts_of (w : World) (ip : jsstring) : list Z :=
  default [] (connectionAttempts w !! ip).

Definition rate_key (ip type : jsstring) : jsstring := ip ++ u16 ":" ++ type.

Definition messages_of (w : World) (ip type : jsstring) : list Z :=
  default [] (messageRates w !! rate_key ip type).

Definition count_of (w : World) (uid : Z) : Z :=
  default 0 (userConnections w !! uid).

(** Times that all lie within one window of each other and of the
    recorded ones. *)
Definition within_window (window : Z) (recorded times : list Z) : Prop :=
  forall t now, In t (recorded ++ times) -> In now times -> now - window < t.

(** The answers of a limiter with [limit] slots of which [used] are
    taken, to [n] calls in one window. *)
Definition answers (limit used n : nat) : list bool :=
  List.map (fun i => Nat.ltb (used + i) limit) (List.seq 0 n).

End Limiter.

Import Limiter.

(* ===================================================================== *)
(** ** Vocabulary of the handlers *)
(* ===================================================================== *)

Module Frames.

(** A computation that relates every world it is run in to the world it
    leaves, whether it returns or raises. *)
Definition preserves {A} (R : World -> World -> Prop) (m : M A) : Prop :=
  forall w, R w (run m w).

(** A computation that never raises. *)
Definition returns {A} (m : M A) : Prop :=
  forall w, exists a, result m w = Ok a.

(** The relation of leaving a reading of the world as it was. *)
Definition same {B} (f : World -> B) : World -> World -> Prop :=
  fun w w' => f w' = f w.


(** A relation that holds along every run of a handler that only reads
    the store: it is a preorder, and it relates a world to what the
    console, the socket methods and a consumed entry of the schedule of
    failures make of it. *)
Record frame (R : World -> World -> Prop) : Prop := {
  frame_refl : forall w, R w w;
  frame_trans : forall w1 w2 w3, R w1 w2 -> R w2 w3 -> R w1 w3;
  frame_trace : forall w evs, R w (set_trace (trace w ++ evs) w);
  frame_close :
    forall w c s, sockets w !! c = Some s ->
                  R w (set_sockets
                         (<[c := if readyState s =? 1 then set_readyState 2 s
                                 else s]> (sockets w)) w);
  frame_fault : forall w, R w (set_db (snd (Db.next_fault (db w))) w)
}.
Arguments frame_refl {R} _.
Arguments frame_trans {R} _.
Arguments frame_trace {R} _.
Arguments frame_close {R} _.
Arguments frame_fault {R} _.

(** A relation that holds along every run of every handler of a
    message: besides the above, it relates a world to what the
    statements of the handlers, the registries, the limiters and the
    marking of an authenticated socket make of it. *)
Record handler_frame (R : World -> World -> Prop) : Prop := {
  handler_base : frame R;
  handler_db : forall w d, R w (set_db d w);
  handler_wsConnections : forall w m, R w (set_wsConnections m w);
  handler_connections : forall w m, R w (set_connections m w);
  handler_userConnections : forall w m, R w (set_userConnections m w);
  handler_messageRates : forall w m, R w (set_messageRates m w);
  handler_mark :
    forall w c uid,
      R w (set_sockets
             (alter (fun s => Server.set_fields (ip s) true (Some uid)
                                                (isAlive s) s)
                    c (sockets w)) w)
}.
Arguments handler_base {R} _.
Arguments handler_db {R} _.
Arguments handler_wsConnections {R} _.
Arguments handler_connections {R} _.
Arguments handler_userConnections {R} _.
Arguments handler_messageRates {R} _.
Arguments handler_mark {R} _.

(** What a socket object says of itself, when it exists. *)
Definition socket_view {B} (g : Socket -> B) (c : conn) (w : World)
  : option B :=
  g <$> sockets w !! c.

(** The tables of the store, without the schedule of its failures. *)
Definition tables (w : World)
  : gmap Z string * list (Z * Z) * list (Z * Z) * list Db.MessageRow * Z
    * list (Db.BcryptHash * Z) :=
  (Db.users (db w), Db.buddies (db w), Db.blocks (db w), Db.messages (db w),
   Db.messages_id_seq (db w), Db.token_blacklist (db w)).

(** The process state outside the sockets, the store and the console:
    the two registries and the three maps of the limiters. *)
Definition bookkeeping (w : World)
  : gmap Z conn * gmap Z conn * gmap jsstring (list Z)
    * gmap jsstring (list Z) * gmap Z Z :=
  (wsConnections w, connections w, connectionAttempts w, messageRates w,
   userConnections w).

(** The tokens that [handleAuthentication] turns down before it looks at
    the connection limit: a missing one, one that is not a text, one
    that [jwt.verify] rejects, one whose type is not [access]. *)
Inductive refused_token (jwt_verify : jsstring -> option Server.Decoded)
  : JSVal -> Prop :=
| token_missing token :
    truthy token = false -> refused_token jwt_verify token
| token_not_text token :
    is_string token = false -> refused_token jwt_verify token
| token_unverified t :
    jwt_verify t = None -> refused_token jwt_verify (JStr t)
| token_of_other_type t decoded :
    jwt_verify t = Some decoded ->
    Server.tok_type decoded <> u16 "access" ->
    refused_token jwt_verify (JStr t).

(** What [registerWebSocketConnection] does about the connection that
    the registry names for the user: nothing when there is none, a
    [close] when there is one, a console line when that [close]
    raises. *)
Definition supersession (w : World) (uid : Z) : list Event :=
  match wsConnections w !! uid with
  | None => []
  | Some e =>
      if raises (sockets w) e
      then [EvLog "Error closing existing WebSocket:"]
      else [EvClose e 1000 "New connection established"]
  end.

(** The world in which [handleAuthentication] issues the status update
    for an accepted token: the slot is counted, the socket is marked,
    the connection is in both registries. *)
Definition marked (w : World) (ws : conn) (uid : Z) : World :=
  let counted :=
    set_userConnections (<[uid := count_of w uid + 1]> (userConnections w)) w in
  set_sockets
    (alter (fun s => Server.set_fields (ip s) true (Some uid) (isAlive s) s)
           ws (sockets counted)) counted.

Definition installed (w : World) (ws : conn) (uid : Z) : World :=
  let registered :=
    run (Registry.registerWebSocketConnection uid ws) (marked w ws uid) in
  set_connections (<[uid := ws]> (connections registered)) registered.

(** What [handleAuthentication] does when anything in it raises. *)
Definition authentication_failed (ws : conn) : M unit :=
  log "WebSocket authentication error:" ;;
  ws_send ws (MsgAuthError "Authentication failed") ;;
  ws_close ws 1008 "Authentication failed".

End Frames.

Import Frames.

(* ===================================================================== *)
(** ** Further worlds *)
(* ===================================================================== *)

Module Cases.

(** The scenario after sixty chat messages from Alice's address in the
    second before. *)
Definition world_after_sixty : World :=
  set_messageRates
    (<[rate_key (u16 "10.0.0.1") (u16 "private_message")
       := List.repeat 1000 60]> ∅) Scenario.world.

(** The wire messages [{type: 'typing_start', toUserId}] and
    [{type: 'ping'}]. *)
Definition typing_start (to : Z) : JSVal :=
  JObj [ (u16 "type", JStr (u16 "typing_start")); (u16 "toUserId", JNum to) ].

Definition ping : JSVal := JObj [ (u16 "type", JStr (u16 "ping")) ].

(** A parser that knows one more payload: the byte [p] stands for a
    ping. *)
Definition parse (data : list Byte.byte) : option JSVal :=
  match data with
  | [Byte.x70] => Some ping
  | _ => Scenario.parse data
  end.

(** [jwt.verify] as the HTTP middleware sees it: the verifier of the
    scenario, raising the library's general error for a token it does
    not know. *)
Definition verify (token : jsstring) : Server.Decoded + string :=
  match Scenario.jwt token with
  | Some decoded => inl decoded
  | None => inr "JsonWebTokenError"%string
  end.

(** A body of a thousand code units: 999 letters and an ampersand. *)
Definition long_body : jsstring := List.repeat 97%N 999 ++ [38%N].

(** The scenario while the store rejects the next statement. *)
Definition world_store_down : World :=
  set_db (Db.set_faults [true] Scenario.store) Scenario.world.

End Cases.

(* ===================================================================== *)
(** ** The HTTP side: [middleware/auth] and the logout route *)
(* ===================================================================== *)

Module Http.

(** What a handler makes of a request: it answers, or it hands the
    request on, with [req.user] when it has set it. *)
Inductive Response :=
| Refused (status : Z) (code : string)
| LoggedOut.

Inductive Step :=
| Responded (r : Response)
| Next (user : option Server.Decoded).

(** [s.split(sep)] for a separator of one code unit. *)
Fixpoint split (sep : N) (s : jsstring) : list jsstring :=
  match s with
  | [] => [[]]
  | c :: rest =>
      if (c =? sep)%N then [] :: split sep rest
      else
        match split sep rest with
        | piece :: pieces => (c :: piece) :: pieces
        | [] => [[c]]
        end
  end.

(** [authHeader && authHeader.split(' ')[1]], when it is truthy. *)
Definition bearer (authHeader : option jsstring) : option jsstring :=
  match authHeader with
  | None => None
  | Some [] => None
  | Some h =>
      match nth_error (split 32 h) 1 with
      | Some [] => None
      | Some token => Some token
      | None => None
      end
  end.

Section WithLibraries.

(** [jwt.verify], which returns the claims or raises an error with a
    name; [jwt.decode] and the bcrypt digest as for the blacklist. *)
Variable jwt_verify : jsstring -> Server.Decoded + string.
Variable jwt_decode : jsstring -> option TokenBlacklist.Claims.
Variable bcrypt_digest : N -> jsstring -> N.

(** [pool.setUserContext]: one statement for a truthy id, its failure
    logged and swallowed.  (The session setting itself is read only by
    the row-level-security policies.) *)
Definition setUserContext (userId : Z) : M unit :=
  if userId =? 0 then ret tt
  else
    tryCatch (db_query (fun d => (Some tt, d)))
             (fun _ => log "Error setting user context:").

Definition verify (token : jsstring) : M Server.Decoded :=
  match jwt_verify token with
  | inl decoded => ret decoded
  | inr name => throw name
  end.

Definition authenticateToken (salt : N) (authHeader : option jsstring)
           (now : Z) : M Step :=
  match bearer authHeader with
  | None => ret (Responded (Refused 401 "MISSING_TOKEN"))
  | Some token =>
      tryCatch
        (let! revoked :=
           TokenBlacklist.isTokenBlacklisted bcrypt_digest salt token now in
         if revoked then ret (Responded (Refused 401 "TOKEN_REVOKED"))
         else
           let! decoded := verify token in
           if negb (jsstring_eqb (Server.tok_type decoded) (u16 "access")) then
             ret (Responded (Refused 403 "INVALID_TOKEN_TYPE"))
           else
             setUserContext (Server.tok_id decoded) ;;
             ret (Next (Some decoded)))
        (fun name =>
           if String.eqb name "TokenExpiredError" then
             ret (Responded (Refused 401 "TOKEN_EXPIRED"))
           else if String.eqb name "JsonWebTokenError" then
             ret (Responded (Refused 403 "INVALID_TOKEN"))
           else
             log "Authentication error:" ;;
             ret (Responded (Refused 500 "AUTH_FAILED")))
  end.

Definition optionalAuth (salt : N) (authHeader : option jsstring) (now : Z)
  : M Step :=
  match bearer authHeader with
  | None => ret (Next None)
  | Some token =>
      tryCatch
        (let! revoked :=
           TokenBlacklist.isTokenBlacklisted bcrypt_digest salt token now in
         if negb revoked then
           let! decoded := verify token in
           if jsstring_eqb (Server.tok_type decoded) (u16 "access") then
             setUserContext (Server.tok_id decoded) ;;
             ret (Next (Some decoded))
           else ret (Next None)
         else ret (Next None))
        (fun _ => log "Optional auth failed:" ;; ret (Next None))
  end.

(** The handler of [POST /logout], which runs behind
    [authenticateToken] and so with [req.user] set. *)
Definition logout (salt : N) (authHeader : option jsstring)
           (user : Server.Decoded) : M Response :=
  tryCatch
    (match bearer authHeader with
     | Some token =>
         let! _ := TokenBlacklist.addToken jwt_decode bcrypt_digest salt token in
         ret tt
     | None => ret tt
     end ;;
     Registry.disconnectUserWebSocket (Server.tok_id user) ;;
     ret LoggedOut)
    (fun _ => log "Logout route error:" ;; ret (Refused 500 "LOGOUT_FAILED")).

End WithLibraries.

End Http.

(* ===================================================================== *)
(** ** [utils/security]: password strength *)
(* ===================================================================== *)

Module Passwords.

Definition isLower (c : N) : bool := ((97 <=? c) && (c <=? 122))%N.
Definition isUpper (c : N) : bool := ((65 <=? c) && (c <=? 90))%N.
Definition isDigit (c : N) : bool := ((48 <=? c) && (c <=? 57))%N.

(** [.] matches any code unit but the four line terminators. *)
Definition isLineTerminator (c : N) : bool :=
  existsb (N.eqb c) [10; 13; 8232; 8233]%N.

(** A match of [.*[cls]] at the start of a text: some run of code units
    that are not line terminators, then one of the class. *)
Fixpoint dot_star_then (cls : N -> bool) (s : jsstring) : bool :=
  match s with
  | [] => false
  | c :: rest => cls c || (negb (isLineTerminator c) && dot_star_then cls rest)
  end.

(** [/(?=.*[cls])/.test(s)]: the lookahead holds at some position. *)
Fixpoint test_lookahead (cls : N -> bool) (s : jsstring) : bool :=
  dot_star_then cls s ||
  match s with
  | [] => false
  | _ :: rest => test_lookahead cls rest
  end.

Definition isStrongPassword (password : jsstring) : bool :=
  if Nat.ltb (List.length password) 8 then false
  else if negb (test_lookahead isLower password) then false
  else if negb (test_lookahead isUpper password) then false
  else if negb (test_lookahead isDigit password) then false
  else true.

Definition calculatePasswordStrength (password : jsstring) : Z :=
  let score := 0 in
  let score := if Nat.leb 8 (List.length password) then score + 1 else score in
  let score := if Nat.leb 12 (List.length password) then score + 1 else score in
  let score := if test [One isLower] password then score + 1 else score in
  let score := if test [One isUpper] password then score + 1 else score in
  let score := if test [One isDigit] password then score + 1 else score in
  let score :=
    if test [One (fun c => negb (isLower c || isUpper c || isDigit c))] password
    then score + 1 else score in
  Z.min score 5.

(** [labels[score] || 'Very Weak'] *)
Definition getPasswordStrengthLabel (password : jsstring) : string :=
  let score := calculatePasswordStrength password in
  if score =? 0 then "Very Weak"
  else if score =? 1 then "Weak"
  else if score =? 2 then "Fair"
  else if score =? 3 then "Good"
  else if score =? 4 then "Strong"
  else if score =? 5 then "Very Strong"
  else "Very Weak".

End Passwords.

(* ===================================================================== *)
(** ** Vocabulary of lengths *)
(* ===================================================================== *)

Module Lengths.

(** By how many code units the six replacements lengthen a text. *)
Definition growth (s : jsstring) : nat :=
  list_sum (List.map (fun c => (List.length (escape1 c) - 1)%nat) s).

(** A text of the Basic Multilingual Plane: no surrogate pair in it. *)
Definition plain_plane (s : jsstring) : bool :=
  forallb (fun c => negb (Db.isHighSurrogate c)) s.

End Lengths.

Import Lengths.

(* ===================================================================== *)
(** * Properties *)
(* ===================================================================== *)

(** ** Sanity checks of the validators on concrete texts *)

Example sanitize_demo :
  Security.sanitizeMessageContent (JStr (u16 "  <b>Tom & 'Jerry'</b> "))
  = u16 "&lt;b&gt;Tom &amp; &#x27;Jerry&#x27;&lt;&#x2F;b&gt;".
Proof. reflexivity. Qed.

Example content_demo :
  List.map (fun s => Security.validateMessageContent (JStr (u16 s)))
    ["hello"; "<SCRIPT>x"; "a onclick=1"; "on="; "((()))"; "(((aaaaaaa"; ""]%string
  = [true; false; false; true; false; true; true].
Proof. reflexivity. Qed.

(** ** Sanitisation *)

Section Sanitize.

Import Security.

Lemma replaceAll_app c rep a b :
  replaceAll c rep (a ++ b) = replaceAll c rep a ++ replaceAll c rep b.
Proof. unfold replaceAll. apply flat_map_app. Qed.

Lemma escapeHtml_app a b : escapeHtml (a ++ b) = escapeHtml a ++ escapeHtml b.
Proof. unfold escapeHtml. now rewrite !replaceAll_app. Qed.

Lemma escapeHtml_one c : escapeHtml [c] = escape1 c.
Proof.
  unfold escapeHtml, escape1, replaceAll.
  destruct (N.eqb_spec c 38) as [->|H38]; [reflexivity|].
  destruct (N.eqb_spec c 60) as [->|H60]; [reflexivity|].
  destruct (N.eqb_spec c 62) as [->|H62]; [reflexivity|].
  destruct (N.eqb_spec c 34) as [->|H34]; [reflexivity|].
  destruct (N.eqb_spec c 39) as [->|H39]; [reflexivity|].
  destruct (N.eqb_spec c 47) as [->|H47]; [reflexivity|].
  cbn [flat_map app].
  repeat match goal with
         | H : c <> ?k |- context [(c =? ?k)%N] =>
             rewrite (proj2 (N.eqb_neq c k) H); cbn [flat_map app]
         end.
  reflexivity.
Qed.

Lemma escapeHtml_flat_map s : escapeHtml s = flat_map escape1 s.
Proof.
  induction s as [|c s IH]; [reflexivity|].
  change (c :: s) with ([c] ++ s).
  rewrite escapeHtml_app, escapeHtml_one, IH. reflexivity.
Qed.

Lemma escape1_plain c : isEscaped c = false -> escape1 c = [c].
Proof.
  unfold isEscaped, escape1. cbn [existsb].
  rewrite !orb_false_iff. intros (-> & -> & -> & -> & -> & -> & _).
  reflexivity.
Qed.

Lemma escape1_escaped c :
  isEscaped c = true ->
  exists rest, escape1 c = 38%N :: rest /\ (3 <= List.length rest)%nat
               /\ forallb (fun x => negb (isWhiteSpace x)) (escape1 c) = true.
Proof.
  unfold isEscaped, escape1. cbn [existsb]. intros H.
  destruct (N.eqb_spec c 38); [eexists; repeat split; cbn; lia|].
  destruct (N.eqb_spec c 60); [eexists; repeat split; cbn; lia|].
  destruct (N.eqb_spec c 62); [eexists; repeat split; cbn; lia|].
  destruct (N.eqb_spec c 34); [eexists; repeat split; cbn; lia|].
  destruct (N.eqb_spec c 39); [eexists; repeat split; cbn; lia|].
  destruct (N.eqb_spec c 47); [eexists; repeat split; cbn; lia|].
  discriminate H.
Qed.

Lemma escapeHtml_plain s :
  existsb isEscaped s = false -> escapeHtml s = s.
Proof.
  rewrite escapeHtml_flat_map.
  induction s as [|c s IH]; [reflexivity|].
  cbn [existsb flat_map]. rewrite orb_false_iff. intros [Hc Hs].
  rewrite (escape1_plain c Hc), (IH Hs). reflexivity.
Qed.

(** *** [trim] *)

Lemma trimStart_head s c t :
  trimStart s = c :: t -> isWhiteSpace c = false.
Proof.
  induction s as [|x s IH]; cbn [trimStart]; [discriminate|].
  destruct (isWhiteSpace x) eqn:E; [exact IH|].
  intros [= <- _]. exact E.
Qed.

Lemma trimStart_fix c t :
  isWhiteSpace c = false -> trimStart (c :: t) = c :: t.
Proof. intros H. cbn [trimStart]. now rewrite H. Qed.

Lemma trimStart_idem s : trimStart (trimStart s) = trimStart s.
Proof.
  destruct (trimStart s) as [|c t] eqn:E; [reflexivity|].
  apply trimStart_fix. exact (trimStart_head _ _ _ E).
Qed.

Lemma trimStart_snoc l c :
  isWhiteSpace c = false -> trimStart (l ++ [c]) = trimStart l ++ [c].
Proof.
  intros H. induction l as [|x l IH]; cbn [trimStart app].
  - now rewrite H.
  - destruct (isWhiteSpace x); [exact IH | reflexivity].
Qed.

Lemma trimEnd_cons c t :
  isWhiteSpace c = false -> trimEnd (c :: t) = c :: trimEnd t.
Proof.
  intros H. unfold trimEnd. cbn [rev].
  rewrite (trimStart_snoc _ _ H), rev_app_distr. reflexivity.
Qed.

Lemma trimEnd_idem s : trimEnd (trimEnd s) = trimEnd s.
Proof. unfold trimEnd. now rewrite rev_involutive, trimStart_idem. Qed.

Lemma trim_idem s : trim (trim s) = trim s.
Proof.
  unfold trim.
  destruct (trimStart s) as [|c t] eqn:E; [reflexivity|].
  pose proof (trimStart_head _ _ _ E) as Hc.
  rewrite (trimEnd_cons c t Hc), (trimStart_fix c _ Hc).
  rewrite <- (trimEnd_cons c t Hc). apply trimEnd_idem.
Qed.

(** [trim] removes white space only. *)

Lemma visible_app a b : visible (a ++ b) = visible a ++ visible b.
Proof. apply List.filter_app. Qed.

Lemma visible_rev s : visible (rev s) = rev (visible s).
Proof.
  induction s as [|c s IH]; [reflexivity|].
  cbn [rev]. rewrite visible_app, IH. unfold visible at 2 3.
  cbn [List.filter]. destruct (negb (isWhiteSpace c)); cbn [rev app].
  - reflexivity.
  - now rewrite app_nil_r.
Qed.

Lemma visible_trimStart s : visible (trimStart s) = visible s.
Proof.
  induction s as [|c s IH]; [reflexivity|].
  cbn [trimStart]. destruct (isWhiteSpace c) eqn:E; [|reflexivity].
  rewrite IH. unfold visible. cbn [List.filter]. now rewrite E.
Qed.

Lemma visible_trim s : visible (trim s) = visible s.
Proof.
  unfold trim, trimEnd.
  rewrite visible_rev, visible_trimStart, visible_rev, rev_involutive.
  apply visible_trimStart.
Qed.

Lemma visible_escape_length s :
  (List.length (visible s) <= List.length (visible (flat_map escape1 s)))%nat
  /\ (existsb isEscaped s = true ->
      (List.length (visible s) < List.length (visible (flat_map escape1 s)))%nat).
Proof.
  induction s as [|c s [IHle IHlt]]; [split; [reflexivity | discriminate]|].
  cbn [flat_map existsb]. rewrite visible_app, length_app.
  change (visible (c :: s)) with (visible ([c] ++ s)).
  rewrite visible_app, length_app.
  destruct (isEscaped c) eqn:E.
  - destruct (escape1_escaped c E) as (rest & Heq & Hlen & Hvis).
    assert (visible (escape1 c) = escape1 c) as ->.
    { unfold visible. apply forallb_filter_id. exact Hvis. }
    assert (List.length (visible [c]) <= 1)%nat.
    { unfold visible. cbn. destruct (negb (isWhiteSpace c)); cbn; lia. }
    rewrite Heq. cbn [List.length]. split; intros; lia.
  - rewrite (escape1_plain c E). cbn [orb]. split; [lia|].
    intros H. specialize (IHlt H). lia.
Qed.

Lemma escaped_in_visible_escape s :
  existsb isEscaped s = true -> In 38%N (visible (flat_map escape1 s)).
Proof.
  induction s as [|c s IH]; [discriminate|].
  cbn [existsb flat_map]. rewrite visible_app, in_app_iff.
  destruct (isEscaped c) eqn:E.
  - intros _. left.
    destruct (escape1_escaped c E) as (rest & Heq & _ & Hvis).
    assert (visible (escape1 c) = escape1 c) as ->.
    { unfold visible. apply forallb_filter_id. exact Hvis. }
    rewrite Heq. now left.
  - cbn [orb]. intros H. right. exact (IH H).
Qed.

Lemma isEscaped_visible c : isEscaped c = true -> isWhiteSpace c = false.
Proof.
  unfold isEscaped. cbn [existsb].
  destruct (N.eqb_spec c 38) as [->|?]; [reflexivity|].
  destruct (N.eqb_spec c 60) as [->|?]; [reflexivity|].
  destruct (N.eqb_spec c 62) as [->|?]; [reflexivity|].
  destruct (N.eqb_spec c 34) as [->|?]; [reflexivity|].
  destruct (N.eqb_spec c 39) as [->|?]; [reflexivity|].
  destruct (N.eqb_spec c 47) as [->|?]; [reflexivity|].
  discriminate.
Qed.

Lemma in_escaped s : In 38%N s -> existsb isEscaped s = true.
Proof.
  intros H. apply existsb_exists. exists 38%N. split; [exact H | reflexivity].
Qed.

End Sanitize.

(** C4, as stated, fails: escaping the ampersand that the first pass
    produced changes the text again. *)
Lemma sanitize_not_stable :
  ~ (forall s : jsstring,
        Security.sanitizeMessageContent
          (JStr (Security.sanitizeMessageContent (JStr s)))
        = Security.sanitizeMessageContent (JStr s)).
Proof.
  intros H. specialize (H (u16 "&")). vm_compute in H. discriminate H.
Qed.

(** C4 (amended): re-applying [sanitizeMessageContent] leaves a sanitized
    text unchanged exactly when the original text contains none of the six
    escaped characters; for every other text the second pass changes the
    result again. *)
Theorem sanitize_stable_iff (s : jsstring) :
  Security.sanitizeMessageContent
    (JStr (Security.sanitizeMessageContent (JStr s)))
  = Security.sanitizeMessageContent (JStr s)
  <-> existsb isEscaped s = false.
Proof.
  cbn [Security.sanitizeMessageContent]. split.
  - intros Heq. destruct (existsb isEscaped s) eqn:E; [exfalso | reflexivity].
    set (t := trim (Security.escapeHtml s)) in *.
    assert (Hvis : visible t = visible (flat_map escape1 s)).
    { unfold t. now rewrite visible_trim, escapeHtml_flat_map. }
    assert (Ht : existsb isEscaped t = true).
    { apply in_escaped.
      apply (proj1 (filter_In (fun x => negb (isWhiteSpace x)) 38%N t)).
      fold (visible t). rewrite Hvis. now apply escaped_in_visible_escape. }
    apply (f_equal visible) in Heq.
    rewrite visible_trim, escapeHtml_flat_map in Heq.
    pose proof (proj2 (visible_escape_length t) Ht) as Hlt.
    rewrite Heq in Hlt. lia.
  - intros E. rewrite (escapeHtml_plain s E).
    assert (Et : existsb isEscaped (trim s) = false).
    { destruct (existsb isEscaped (trim s)) eqn:E'; [|reflexivity].
      apply existsb_exists in E' as (x & Hin & Hx).
      assert (In x s) as Hs.
      { assert (In x (visible (trim s))) as Hv.
        { apply filter_In. split; [exact Hin|].
          now rewrite (isEscaped_visible x Hx). }
        rewrite visible_trim in Hv. now apply filter_In in Hv as [? _]. }
      assert (existsb isEscaped s = true) as Hc
        by (apply existsb_exists; eauto).
      congruence. }
    rewrite (escapeHtml_plain _ Et). apply trim_idem.
Qed.

(** ** Stepping through a handler *)

Section Steps.

Lemma ws_send_ok w c s m :
  sockets w !! c = Some s -> throws s = false ->
  ws_send c m w = (Ok tt, set_trace (trace w ++ [EvSend c m]) w).
Proof. intros Hs Ht. unfold ws_send. now rewrite Hs, Ht. Qed.

Lemma ws_send_throws w c s m :
  sockets w !! c = Some s -> throws s = true ->
  ws_send c m w = (Throw "send failed", w).
Proof. intros Hs Ht. unfold ws_send. now rewrite Hs, Ht. Qed.

Lemma db_query_ok {A} (q : Db.t -> option A * Db.t) w :
  Db.faults (db w) = [] ->
  db_query q w =
  match q (db w) with
  | (Some a, d') => (Ok a, set_db d' w)
  | (None, d') => (Throw "constraint violated", set_db d' w)
  end.
Proof. intros Hf. unfold db_query, Db.next_fault. now rewrite Hf. Qed.

Lemma filter_empty_existsb {A} (f : A -> bool) l :
  Nat.eqb (List.length (List.filter f l)) 0 = negb (existsb f l).
Proof.
  induction l as [|x l IH]; [reflexivity|].
  cbn [List.filter existsb]. destruct (f x); [reflexivity | exact IH].
Qed.

Lemma filter_nonempty_existsb {A} (f : A -> bool) l :
  Nat.ltb 0 (List.length (List.filter f l)) = existsb f l.
Proof.
  induction l as [|x l IH]; [reflexivity|].
  cbn [List.filter existsb]. destruct (f x); [reflexivity | exact IH].
Qed.


End Steps.

(** ** Routing a private message *)

Section Routing.

Import Security Registry MessageHandler.

Variables (w : World) (ws : conn) (s : Socket) (a : Z) (message : JSVal)
          (to : Z) (body : jsstring) (now : Z).
Hypothesis Hs : sockets w !! ws = Some s.
Hypothesis Ht : throws s = false.
Hypothesis Hu : userId s = Some a.
Hypothesis Hf : Db.faults (db w) = [].
Hypothesis Hto : get_prop message "toUserId" = JNum to.
Hypothesis Hbody : get_prop message "message" = JStr body.
Hypothesis Hvalid : validateMessageContent (JStr body) = true.

Let text := sanitizeMessageContent (JStr body).

Ltac to_relationship_checks :=
  unfold run, handlePrivateMessage;
  rewrite Hto, Hbody, Hvalid; cbn [negb];
  unfold socket_userId, int_param, getWebSocketConnection,
         tryCatch, bind, gets, ret;
  rewrite Hs, Hu;
  rewrite db_query_ok by assumption; unfold Db.buddy_edge_rows;
  rewrite filter_empty_existsb; fold (buddy_edge (db w) a to).

Ltac to_insert Hb Hk :=
  to_relationship_checks; rewrite Hb; cbn [negb];
  rewrite db_query_ok by (cbn; assumption);
  cbn [db set_db]; unfold Db.block_rows;
  rewrite filter_nonempty_existsb; fold (has_blocked (db w) to a);
  rewrite Hk.



Lemma pm_rejected :
  buddy_edge (db w) a to = true -> has_blocked (db w) to a = false ->
  Db.messages_accepts (db w) (Some a) to text = false ->
  let w' := run (handlePrivateMessage ws message now) w in
  trace w' = trace w ++ [EvLog "Private message handling error:";
                         EvSend ws (MsgError "Failed to send message")]
  /\ Db.messages (db w') = Db.messages (db w).
Proof.
  intros Hb Hk Hacc. to_insert Hb Hk.
  rewrite db_query_ok by (cbn; assumption).
  cbn [db set_db]. unfold Db.insert_message. fold text. rewrite Hacc.
  unfold log, modify. cbn [trace set_trace set_db].
  erewrite ws_send_ok by (cbn; eassumption).
  cbn. rewrite <- app_assoc. split; reflexivity.
Qed.

Lemma pm_stored :
  buddy_edge (db w) a to = true -> has_blocked (db w) to a = false ->
  Db.messages_accepts (db w) (Some a) to text = true ->
  let w' := run (handlePrivateMessage ws message now) w in
  let id := Db.messages_id_seq (db w) + 1 in
  Db.messages (db w')
  = Db.messages (db w)
    ++ [{| Db.msg_id := id; Db.from_user_id := Some a; Db.to_user_id := to;
           Db.msg_body := text; Db.msg_read := false; Db.created_at := now |}]
  /\ exists tail,
      trace w'
      = trace w ++ EvSend ws (MsgPrivate (Some a) text id now Outgoing) :: tail.
Proof.
  intros Hb Hk Hacc. to_insert Hb Hk.
  rewrite db_query_ok by (cbn; assumption).
  cbn [db set_db]. unfold Db.insert_message. fold text. rewrite Hacc.
  erewrite ws_send_ok by (cbn; eassumption).
  cbn [fst snd wsConnections set_trace set_db isOpen sockets trace].
  unfold log, modify.
  destruct (wsConnections w !! to) as [r|]; cbn [isOpen].
  - destruct (sockets w !! r) as [sr|] eqn:Hr;
      cbn [sockets set_trace set_db]; rewrite ?Hr.
    + destruct (readyState sr =? 1).
      * unfold ws_send. cbn [sockets set_trace set_db]. rewrite Hr.
        destruct (throws sr); cbn [sockets set_trace set_db trace db];
          rewrite ?Hs, ?Ht; cbn; (split; [reflexivity|]);
          rewrite <- ?app_assoc; eexists; reflexivity.
      * cbn. split; [reflexivity|]. rewrite <- app_assoc. eexists; reflexivity.
    + cbn. split; [reflexivity|]. rewrite <- app_assoc. eexists; reflexivity.
  - cbn. split; [reflexivity|]. rewrite <- app_assoc. eexists; reflexivity.
Qed.

End Routing.

Section RoutingClaims.

Import Security MessageHandler.

Variable jwt_verify : jsstring -> option Server.Decoded.


End RoutingClaims.

Example scenario_check :
  sockets Scenario.world !! 10%nat = Some (Scenario.open_socket 1 false)
  /\ buddy_edge Scenario.store 1 2 = true.
Proof. split; reflexivity. Qed.

Example scenario_run :
  trace (run (MessageHandler.handlePrivateMessage 10
                (private_message 2 (u16 "hello")) 77) Scenario.world)
  = [EvSend 10%nat (MsgPrivate (Some 1) (u16 "hello") 1 77 Outgoing);
     EvSend 20%nat (MsgPrivate (Some 1) (u16 "hello") 1 77 Incoming);
     EvLog "Message sent"].
Proof. vm_compute. reflexivity. Qed.




(** The two relationship errors on concrete users: Dave is not Alice's
    buddy; Carol is, and has blocked her. *)
Example relationship_replies :
  trace (run (Server.handleMessage Scenario.jwt 10
                (private_message 4 (u16 "hello")) 77) Scenario.world)
  = [EvSend 10%nat (MsgError "You can only message your buddies")]
  /\ trace (run (Server.handleMessage Scenario.jwt 10
                   (private_message 3 (u16 "hello")) 77) Scenario.world)
     = [EvSend 10%nat (MsgError "Cannot send message to this user")].
Proof. vm_compute. split; reflexivity. Qed.

(** C3: whenever the handler reaches the insert of the sanitized message
    and the insert fails (the store rejects the call, or the row violates
    a constraint of [messages]), nothing is stored, no [private_message]
    event is sent to anyone, and the only thing sent is the error reply to
    the sender (on a sender socket that still accepts it). *)
Theorem failed_insert_no_delivery
        (w : World) (ws : conn) (s : Socket) (a : Z) (message : JSVal)
        (to : Z) (body : jsstring) (now : Z) :
  sockets w !! ws = Some s ->
  userId s = Some a ->
  get_prop message "toUserId" = JNum to ->
  get_prop message "message" = JStr body ->
  Security.validateMessageContent (JStr body) = true ->
  fault_at 0 (db w) = false ->
  fault_at 1 (db w) = false ->
  buddy_edge (db w) a to = true ->
  has_blocked (db w) to a = false ->
  (fault_at 2 (db w) = true
   \/ Db.messages_accepts (db w) (Some a) to
        (Security.sanitizeMessageContent (JStr body)) = false) ->
  let w' := run (MessageHandler.handlePrivateMessage ws message now) w in
  Db.messages (db w') = Db.messages (db w)
  /\ trace w'
     = trace w
       ++ EvLog "Private message handling error:"
          :: (if throws s then []
              else [EvSend ws (MsgError "Failed to send message")]).
Proof.
  intros Hs Hu Hto Hbody Hvalid F0 F1 Hb Hk Hfail.
  unfold run, MessageHandler.handlePrivateMessage.
  rewrite Hto, Hbody, Hvalid. cbn [negb]. cbv zeta.
  generalize dependent (Security.sanitizeMessageContent (JStr body)).
  intros text Hfail.
  destruct w as [socks wsC conns cA mR uC d tr].
  destruct d as [us bud blk msgs seq tb fl].
  unfold fault_at, buddy_edge, has_blocked, Db.messages_accepts in *.
  cbn [sockets db Db.faults Db.buddies Db.blocks Db.users]
    in Hs, F0, F1, Hb, Hk, Hfail.
  unfold MessageHandler.socket_userId, MessageHandler.int_param,
    Registry.getWebSocketConnection, tryCatch, bind, gets, ret, db_query,
    Db.next_fault, Db.buddy_edge_rows, Db.block_rows, Db.insert_message,
    Db.messages_accepts, log, modify, ws_send.
  cbn [sockets db trace set_db set_trace Db.faults Db.set_faults Db.buddies
       Db.blocks Db.users fst snd].
  rewrite Hs, Hu.
  destruct fl as [|f0 [|f1 [|f2 fl]]]; cbn [nth] in F0, F1, Hfail; subst;
    cbn [sockets db trace set_db set_trace Db.faults Db.set_faults Db.buddies
         Db.blocks Db.users Db.messages Db.set_messages fst snd];
    rewrite filter_empty_existsb, Hb; cbn [negb];
    cbn [sockets db trace set_db set_trace Db.faults Db.set_faults Db.buddies
         Db.blocks Db.users Db.messages Db.set_messages fst snd];
    rewrite filter_nonempty_existsb, Hk;
    cbn [sockets db trace set_db set_trace Db.faults Db.set_faults Db.buddies
         Db.blocks Db.users Db.messages Db.set_messages fst snd].
  all: destruct Hfail as [Hfail|Hfail]; try discriminate Hfail; subst;
    try destruct f2; rewrite ?Hfail;
    cbn [sockets db trace set_db set_trace Db.faults Db.set_faults Db.buddies
         Db.blocks Db.users Db.messages Db.set_messages fst snd];
    rewrite ?Hs; destruct (throws s);
    cbn [sockets db trace set_db set_trace Db.faults Db.set_faults Db.buddies
         Db.blocks Db.users Db.messages Db.set_messages fst snd];
    rewrite <- ?app_assoc; split; reflexivity.
Qed.

(** C3 at work: Alice writes to Bob while the store rejects the insert. *)
Lemma failed_insert_no_delivery_witness :
  Db.messages (db (run (MessageHandler.handlePrivateMessage 10
                          (private_message 2 (u16 "hello")) 77)
                       Scenario.world_insert_down)) = []
  /\ trace (run (MessageHandler.handlePrivateMessage 10
                   (private_message 2 (u16 "hello")) 77)
                Scenario.world_insert_down)
     = [EvLog "Private message handling error:";
        EvSend 10%nat (MsgError "Failed to send message")].
Proof.
  exact (failed_insert_no_delivery
           Scenario.world_insert_down 10 (Scenario.open_socket 1 false) 1
           (private_message 2 (u16 "hello")) 2 (u16 "hello") 77
           eq_refl eq_refl eq_refl eq_refl eq_refl eq_refl eq_refl eq_refl
           eq_refl (or_introl eq_refl)).
Defined.

(** ** The empty body *)

(** C10, as stated, fails in its last part: the empty body passes both
    validators, but it is not accepted for persistence.  Between two
    buddies, with no block and a working store, nothing is stored and the
    sender is told the message failed. *)
Lemma empty_body_not_persisted :
  let msg := private_message 2 [] in
  let w' := run (Server.handleMessage Scenario.jwt 10 msg 77) Scenario.world in
  Security.validateMessageStructure msg = true
  /\ Security.validateMessageContent (JStr []) = true
  /\ Db.messages (db w') = []
  /\ trace w' = [EvLog "Private message handling error:";
                 EvSend 10%nat (MsgError "Failed to send message")].
Proof. vm_compute. repeat split. Qed.

(** C10 (amended): [validateMessageContent] returns true for the empty
    string: the special-character ratio is 0/0, not a number, the test
    against 0.3 is false, and no dangerous pattern matches; an empty
    [private_message] body passes structure validation too.  It then
    reaches the insert, where [messages] refuses a text of length 0: in a
    run without failures between two buddies, nothing is stored and the
    sender receives the failure reply. *)
Theorem empty_body_validated_then_refused
        (w : World) (ws : conn) (s : Socket) (a to : Z) (now : Z) :
  sockets w !! ws = Some s ->
  throws s = false ->
  userId s = Some a ->
  Db.faults (db w) = [] ->
  buddy_edge (db w) a to = true ->
  has_blocked (db w) to a = false ->
  let w' := run (MessageHandler.handlePrivateMessage ws (private_message to [])
                                                     now) w in
  Security.specialCharRatio [] = NaN
  /\ gt_0_3 NaN = false
  /\ existsb (fun pattern => test pattern []) Security.dangerousPatterns = false
  /\ Security.validateMessageContent (JStr []) = true
  /\ Security.validateMessageStructure (private_message to []) = true
  /\ Db.messages_accepts (db w) (Some a) to
       (Security.sanitizeMessageContent (JStr [])) = false
  /\ Db.messages (db w') = Db.messages (db w)
  /\ trace w' = trace w ++ [EvLog "Private message handling error:";
                            EvSend ws (MsgError "Failed to send message")].
Proof.
  intros Hs Ht Hu Hf Hb Hk w'.
  assert (Hacc : Db.messages_accepts (db w) (Some a) to
                   (Security.sanitizeMessageContent (JStr [])) = false)
    by reflexivity.
  destruct (pm_rejected w ws s a (private_message to []) to [] now
              Hs Ht Hu Hf eq_refl eq_refl eq_refl Hb Hk Hacc) as [Htr Hm].
  repeat split; try reflexivity; assumption.
Qed.

(** The amended C10 at work: Alice sends Bob an empty body. *)
Lemma empty_body_validated_then_refused_witness :
  Db.messages (db (run (MessageHandler.handlePrivateMessage 10
                          (private_message 2 []) 77) Scenario.world)) = []
  /\ trace (run (MessageHandler.handlePrivateMessage 10
                   (private_message 2 []) 77) Scenario.world)
     = [EvLog "Private message handling error:";
        EvSend 10%nat (MsgError "Failed to send message")].
Proof.
  destruct (empty_body_validated_then_refused
              Scenario.world 10 (Scenario.open_socket 1 false) 1 2 77
              eq_refl eq_refl eq_refl eq_refl eq_refl eq_refl)
    as (_ & _ & _ & _ & _ & _ & Hm & Htr).
  exact (conj Hm Htr).
Defined.

(** ** The connection registry *)

Section RegistryFacts.

Import Registry.

(** A list of bindings with distinct keys holds at most one binding of
    a key. *)
Lemma bindings_of_key_unique {V} (l : list (Z * V)) (k : Z) (v : V) :
  NoDup (l.*1) -> (k, v) ∈ l ->
  List.filter (fun e => fst e =? k) l = [(k, v)].
Proof.
  induction l as [|[k' v'] l IH]; intros Hnd Hin.
  - inversion Hin.
  - cbn [fmap list_fmap fst] in Hnd. apply NoDup_cons in Hnd as [Hk' Hnd].
    cbn [List.filter fst].
    apply elem_of_cons in Hin as [Heq|Hin].
    + injection Heq as <- <-. rewrite Z.eqb_refl. f_equal.
      clear IH Hnd. induction l as [|[k2 v2] l IH]; [reflexivity|].
      cbn [List.filter fst]. cbn [fmap list_fmap fst] in Hk'.
      apply not_elem_of_cons in Hk' as [Hne Hk'].
      destruct (Z.eqb_spec k2 k) as [->|_]; [congruence | exact (IH Hk')].
    + destruct (Z.eqb_spec k' k) as [->|_]; [|exact (IH Hnd Hin)].
      exfalso. apply Hk'. apply list_elem_of_fmap. exists (k, v). auto.
Qed.

Lemma bindings_of_key_at_most_one {V} (l : list (Z * V)) (k : Z) :
  NoDup (l.*1) ->
  (List.length (List.filter (fun e => (fst e =? k)%Z) l) <= 1)%nat.
Proof.
  intros Hnd.
  destruct (List.filter (fun e => (fst e =? k)%Z) l) as [|[k' v] rest] eqn:E;
    [cbn; lia|].
  assert (In (k', v) (List.filter (fun e => (fst e =? k)%Z) l)) as Hin
    by (rewrite E; now left).
  apply filter_In in Hin as [Hin Hk]. cbn [fst] in Hk.
  apply Z.eqb_eq in Hk. subst k'.
  rewrite (bindings_of_key_unique l k v Hnd) in E
    by (now apply list_elem_of_In).
  injection E as <-. cbn. lia.
Qed.

(** The registry is a map: whatever its content, a user id has at most
    one entry. *)
Lemma registry_at_most_one (m : gmap Z conn) (uid : Z) :
  (List.length (List.filter (fun e => (fst e =? uid)%Z) (map_to_list m)) <= 1)%nat.
Proof. apply bindings_of_key_at_most_one, NoDup_fst_map_to_list. Qed.

Lemma registry_entry (m : gmap Z conn) (uid : Z) (c : conn) :
  m !! uid = Some c ->
  List.filter (fun e => (fst e =? uid)%Z) (map_to_list m) = [(uid, c)].
Proof.
  intros H. apply bindings_of_key_unique.
  - apply NoDup_fst_map_to_list.
  - now apply elem_of_map_to_list.
Qed.

End RegistryFacts.

(** C2: when [c1] is registered for a user and [register(userId, c2)] is
    invoked, [close] is called on [c1] while the registry still names
    [c1], then [c2] is installed; afterwards the registry holds exactly
    one entry for the user, and it is [c2].  Whatever the registry holds,
    a user id never has more than one entry. *)
Theorem register_supersedes
        (w : World) (uid : Z) (c1 c2 : conn) (s1 : Socket) :
  wsConnections w !! uid = Some c1 ->
  sockets w !! c1 = Some s1 ->
  throws s1 = false ->
  let closing := ws_close c1 1000 "New connection established" in
  let w1 := run closing w in
  let w' := run (Registry.registerWebSocketConnection uid c2) w in
  (* the close comes first, on a registry that still names c1 *)
  result closing w = Ok tt
  /\ trace w1 = trace w ++ [EvClose c1 1000 "New connection established"]
  /\ wsConnections w1 !! uid = Some c1
  /\ (readyState s1 = 1 ->
      readyState <$> (sockets w1 !! c1) = Some 2)
  (* then the new connection is installed *)
  /\ wsConnections w' = <[uid := c2]> (wsConnections w1)
  /\ sockets w' = sockets w1
  /\ trace w' = trace w1 ++ [EvLog "Registered WebSocket for user"]
  (* one entry for the user afterwards, the new connection *)
  /\ List.filter (fun e => (fst e =? uid)%Z) (map_to_list (wsConnections w'))
     = [(uid, c2)]
  (* and never more than one entry for any user *)
  /\ (forall (v : World) (u : Z),
         List.length (List.filter (fun e => (fst e =? u)%Z)
                                  (map_to_list (wsConnections v))) <= 1)%nat.
Proof.
  intros Hreg Hs Ht closing w1 w'.
  unfold w', w1, closing, run, result, Registry.registerWebSocketConnection,
    bind, gets, tryCatch, ws_close, modify, log.
  rewrite Hreg, Hs, Ht.
  cbn [fst snd wsConnections sockets trace set_wsConnections set_trace
       set_sockets].
  repeat split.
  - exact Hreg.
  - intros Hopen. rewrite Hopen, lookup_insert_eq. reflexivity.
  - apply registry_entry, lookup_insert_eq.
  - intros v u. apply registry_at_most_one.
Qed.

(** C2 at work: Alice arrives on connection 11 while connection 10 is
    registered for her. *)
Lemma register_supersedes_witness :
  trace (run (Registry.registerWebSocketConnection 1 11) Scenario.world)
  = [EvClose 10%nat 1000 "New connection established";
     EvLog "Registered WebSocket for user"]
  /\ List.filter (fun e => (fst e =? 1)%Z)
       (map_to_list (wsConnections
                       (run (Registry.registerWebSocketConnection 1 11)
                            Scenario.world)))
     = [(1, 11%nat)].
Proof.
  destruct (register_supersedes Scenario.world 1 10 11
              (Scenario.open_socket 1 false) eq_refl eq_refl eq_refl)
    as (_ & Hclose & _ & _ & _ & _ & Hlog & Hone & _).
  split; [|exact Hone].
  rewrite Hlog, Hclose. reflexivity.
Defined.

(** What follows a supersession: Alice, registered on connection 10,
    authenticates on connection 11; when the close event of connection 10
    arrives, its listener removes Alice's entry, which by then names
    connection 11, from both maps and closes connection 11. *)
Example superseded_close_event_removes_successor :
  let w1 := run (Scenario.attempt 11 1000) Scenario.world in
  let w2 := run (Server.setupCloseHandler 10 1500) w1 in
  wsConnections w1 !! 1 = Some 11%nat
  /\ connections w1 !! 1 = Some 11%nat
  /\ wsConnections w2 !! 1 = None
  /\ connections w2 !! 1 = None
  /\ In (EvClose 11%nat 1000 "Logged out") (trace w2).
Proof. vm_compute. repeat split. auto 20. Qed.

(** ** The per-user connection count *)

Section UserCounts.

Lemma keeps_ret {A} (a : A) : keeps_user_counts (ret a).
Proof. intros w. reflexivity. Qed.

Lemma keeps_throw {A} e : keeps_user_counts (@throw A e).
Proof. intros w. reflexivity. Qed.

Lemma keeps_gets {A} (f : World -> A) : keeps_user_counts (gets f).
Proof. intros w. reflexivity. Qed.

Lemma keeps_bind {A B} (m : M A) (k : A -> M B) :
  keeps_user_counts m -> (forall a, keeps_user_counts (k a)) ->
  keeps_user_counts (bind m k).
Proof.
  intros Hm Hk w. unfold run, bind. specialize (Hm w). unfold run in Hm.
  destruct (m w) as [[a|e] w1]; cbn [snd] in *.
  - rewrite <- Hm. apply Hk.
  - exact Hm.
Qed.

Lemma keeps_tryCatch {A} (m : M A) (h : string -> M A) :
  keeps_user_counts m -> (forall e, keeps_user_counts (h e)) ->
  keeps_user_counts (tryCatch m h).
Proof.
  intros Hm Hh w. unfold run, tryCatch. specialize (Hm w). unfold run in Hm.
  destruct (m w) as [[a|e] w1]; cbn [snd] in *.
  - exact Hm.
  - rewrite <- Hm. apply Hh.
Qed.

Lemma keeps_modify (f : World -> World) :
  (forall w, userConnections (f w) = userConnections w) ->
  keeps_user_counts (modify f).
Proof. intros Hf w. apply Hf. Qed.

Lemma keeps_log text : keeps_user_counts (log text).
Proof. intros w. reflexivity. Qed.

Lemma keeps_ws_send c m : keeps_user_counts (ws_send c m).
Proof.
  intros w. unfold run, ws_send.
  destruct (sockets w !! c) as [s|]; [destruct (throws s)|]; reflexivity.
Qed.

Lemma keeps_ws_close c code reason : keeps_user_counts (ws_close c code reason).
Proof.
  intros w. unfold run, ws_close.
  destruct (sockets w !! c) as [s|]; [destruct (throws s)|]; reflexivity.
Qed.

Lemma keeps_db_query {A} (q : Db.t -> option A * Db.t) :
  keeps_user_counts (db_query q).
Proof.
  intros w. unfold run, db_query.
  destruct (Db.next_fault (db w)) as [[] d]; [reflexivity|].
  destruct (q d) as [[a|] d']; reflexivity.
Qed.

Lemma keeps_forEach {A} (xs : list A) (body : A -> M unit) :
  (forall x, keeps_user_counts (body x)) ->
  keeps_user_counts (forEach xs body).
Proof.
  intros Hb. induction xs as [|x xs IH]; cbn [forEach].
  - apply keeps_ret.
  - apply keeps_bind; [apply Hb | intros _; exact IH].
Qed.

Create HintDb counts.
#[local] Hint Resolve keeps_ret keeps_throw keeps_gets keeps_log keeps_ws_send
     keeps_ws_close keeps_db_query : counts.

Ltac keeps :=
  repeat first
    [ apply keeps_bind; [|intros ?]
    | apply keeps_tryCatch; [|intros ?]
    | apply keeps_forEach; intros ?
    | apply keeps_modify; intros ?; reflexivity
    | solve [auto with counts]
    | match goal with
      | |- keeps_user_counts (match ?x with _ => _ end) => destruct x
      | |- keeps_user_counts (if ?x then _ else _) => destruct x
      end ].

Lemma keeps_notify uid status now :
  keeps_user_counts (Server.notifyBuddiesStatusChange uid status now).
Proof. unfold Server.notifyBuddiesStatusChange. keeps. Qed.

Lemma keeps_disconnect uid :
  keeps_user_counts (Registry.disconnectUserWebSocket uid).
Proof. unfold Registry.disconnectUserWebSocket. keeps. Qed.

(** The close listener never touches [security.userConnections]:
    [removeUserConnection] has no caller. *)
Lemma onClose_keeps_user_counts ws now :
  keeps_user_counts (Server.setupCloseHandler ws now).
Proof.
  unfold Server.setupCloseHandler, Server.update_socket, MessageHandler.socket_userId.
  keeps; try apply keeps_disconnect; try apply keeps_notify.
Qed.

End UserCounts.

(** An authentication with a valid access token is refused as soon as the
    stored count of the user has reached the ceiling, whatever the number
    of connections the user has open; nothing else happens. *)
Lemma authentication_refused_at_ceiling
      (jwt_verify : jsstring -> option Server.Decoded)
      (w : World) (ws : conn) (s : Socket) (token : jsstring)
      (decoded : Server.Decoded) (now : Z) :
  sockets w !! ws = Some s ->
  throws s = false ->
  token <> [] ->
  jwt_verify token = Some decoded ->
  Server.tok_type decoded = u16 "access" ->
  Security.MAX_CONNECTIONS_PER_USER
  <= default 0 (userConnections w !! Server.tok_id decoded) ->
  let w' := run (Server.handleAuthentication jwt_verify ws (JStr token) now) w in
  trace w'
  = trace w ++ [EvClose ws CLOSE_POLICY_VIOLATION
                        "Too many connections for this user"]
  /\ userConnections w' = userConnections w
  /\ wsConnections w' = wsConnections w
  /\ connections w' = connections w
  /\ db w' = db w.
Proof.
  intros Hs Ht Hne Hjwt Hty Hmax w'.
  assert (Hrun :
    Server.handleAuthentication jwt_verify ws (JStr token) now w
    = ws_close ws 1008 "Too many connections for this user" w).
  { unfold Server.handleAuthentication, tryCatch.
    destruct token as [|c token]; [contradiction|]. cbn [truthy negb List.length Nat.eqb].
    rewrite Hjwt. unfold bind at 1. unfold ret at 1. cbv beta iota.
    rewrite Hty.
    change (jsstring_eqb (u16 "access") (u16 "access")) with true.
    cbn [negb]. unfold bind at 1.
    unfold Counters.checkUserConnectionLimit.
    rewrite (proj2 (Z.leb_le _ _) Hmax). cbn [negb].
    unfold ws_close. rewrite Hs, Ht. reflexivity. }
  unfold w', run. rewrite Hrun. unfold ws_close. rewrite Hs, Ht.
  cbn [snd]. repeat split.
Qed.

(** C5, the code at the failing input: Alice opens, authenticates and
    closes three connections one after the other.  None of them is open
    any more and neither registry names her, yet the count the ceiling is
    checked against still reads 3, and her fourth connection is refused as
    one too many. *)
Lemma fourth_login_refused_with_no_open_connection :
  let w3 := run (Scenario.session 11 1000 ;; Scenario.session 12 2000 ;;
                 Scenario.session 13 3000) Scenario.fresh in
  let w4 := run (Scenario.attempt 14 4000) w3 in
  readyState <$> (sockets w3 !! 11%nat) = Some 3
  /\ readyState <$> (sockets w3 !! 12%nat) = Some 3
  /\ readyState <$> (sockets w3 !! 13%nat) = Some 3
  /\ wsConnections w3 !! 1 = None
  /\ connections w3 !! 1 = None
  /\ userConnections w3 !! 1 = Some 3
  /\ trace w4 = trace w3
                ++ [EvLog "New WebSocket connection from";
                    EvClose 14%nat 1008 "Too many connections for this user"]
  /\ isAuthenticated <$> (sockets w4 !! 14%nat) = Some false
  /\ wsConnections w4 !! 1 = None.
Proof. vm_compute. repeat split. Qed.

Example one_session_trace :
  trace (run (Scenario.session 11 1000) Scenario.fresh)
  = [EvLog "New WebSocket connection from";
     EvLog "Registered WebSocket for user";
     EvSend 11%nat (MsgAuthSuccess 1 (u16 "alice@example.org"));
     EvLog "WebSocket authenticated for user";
     EvLog "WebSocket connection closed for user";
     EvClose 11%nat 1000 "Logged out";
     EvLog "Disconnected WebSocket for user"].
Proof. vm_compute. reflexivity. Qed.

(** ** Presence fan-out *)

Section Fanout.

Variables (socks : gmap conn Socket) (conns : gmap Z conn).
Variables (uid : Z) (status : string) (now : Z).

Let event := MsgBuddyStatus uid status now.

(** The body of the loop of [notifyBuddiesStatusChange]. *)
Let notify_one (buddy : Z) : M unit :=
  let! buddyWs := gets (fun w => connections w !! buddy) in
  let! buddyOpen := gets (fun w => isOpen w buddyWs) in
  match buddyWs with
  | Some b => if buddyOpen then ws_send b event else ret tt
  | None => ret tt
  end.

Lemma forEach_fanout (ids : list Z) :
  forall w0,
    sockets w0 = socks -> connections w0 = conns ->
    let r := forEach ids notify_one w0 in
    let targets := open_connections socks conns ids in
    (Forall (fun c => raises socks c = false) targets ->
     fst r = Ok tt
     /\ trace (snd r) = trace w0 ++ List.map (fun c => EvSend c event) targets)
    /\ (forall pre c post,
           targets = pre ++ c :: post ->
           Forall (fun c => raises socks c = false) pre ->
           raises socks c = true ->
           fst r = Throw "send failed"
           /\ trace (snd r)
              = trace w0 ++ List.map (fun c => EvSend c event) pre).
Proof.
  induction ids as [|b rest IH]; intros w0 Hsk Hcn; cbn zeta.
  - cbn. split.
    + intros _. now rewrite app_nil_r.
    + intros [|? ?] ? ? Heq; discriminate Heq.
  - assert (Hstep :
      notify_one b w0
      = match conns !! b with
        | Some c =>
            match socks !! c with
            | Some sc =>
                if readyState sc =? 1 then
                  if throws sc then (Throw "send failed", w0)
                  else (Ok tt, set_trace (trace w0 ++ [EvSend c event]) w0)
                else (Ok tt, w0)
            | None => (Ok tt, w0)
            end
        | None => (Ok tt, w0)
        end).
    { unfold notify_one, bind, gets, isOpen, ws_send, ret.
      cbv beta. rewrite Hcn.
      destruct (conns !! b) as [c|]; [|reflexivity].
      cbv beta iota. rewrite !Hsk.
      destruct (socks !! c) as [sc|] eqn:Hc; [|reflexivity].
      destruct (readyState sc =? 1); cbv beta iota;
        rewrite ?Hsk, ?Hc; reflexivity. }
    cbn [forEach open_connections flat_map].
    fold (open_connections socks conns rest).
    unfold bind. rewrite Hstep. clear Hstep.
    destruct (conns !! b) as [c|]; [|apply (IH w0 Hsk Hcn)].
    destruct (socks !! c) as [sc|] eqn:Hc; [|apply (IH w0 Hsk Hcn)].
    destruct (readyState sc =? 1); [|apply (IH w0 Hsk Hcn)].
    assert (Hr : raises socks c = throws sc) by (unfold raises; now rewrite Hc).
    destruct (throws sc) eqn:Hth; cbn [fst snd app].
    + split.
      * intros Hall. apply Forall_cons in Hall as [Hbad _]. congruence.
      * intros [|p pre] c' post Heq Hpre Hc'.
        -- cbn. now rewrite app_nil_r.
        -- injection Heq as <- _. apply Forall_cons in Hpre as [Hbad _].
           congruence.
    + set (w1 := set_trace (trace w0 ++ [EvSend c event]) w0).
      destruct (IH w1 Hsk Hcn) as [IHok IHbad].
      cbn [trace set_trace w1] in IHok, IHbad. split.
      * intros Hall. apply Forall_cons in Hall as [_ Hall].
        destruct (IHok Hall) as [Hres Htr]. split; [exact Hres|].
        rewrite Htr, <- app_assoc. reflexivity.
      * intros [|p pre] c' post Heq Hpre Hc'.
        -- injection Heq as <- _. congruence.
        -- injection Heq as <- Heq. apply Forall_cons in Hpre as [_ Hpre].
           destruct (IHbad pre c' post Heq Hpre Hc') as [Hres Htr].
           split; [exact Hres|]. rewrite Htr, <- app_assoc. reflexivity.
Qed.

End Fanout.

Section FirstFailure.

Variable bad : conn -> bool.

(** Either no element is bad, or there is a first bad one. *)
Lemma first_failure_cases (l : list conn) :
  Forall (fun c => bad c = false) l
  \/ exists pre c post,
      l = pre ++ c :: post
      /\ Forall (fun c => bad c = false) pre /\ bad c = true.
Proof.
  induction l as [|x l [IH|(pre & c & post & -> & Hpre & Hc)]].
  - left. constructor.
  - destruct (bad x) eqn:E.
    + right. exists [], x, l. repeat split; [constructor | exact E].
    + left. now constructor.
  - destruct (bad x) eqn:E.
    + right. exists [], x, (pre ++ c :: post).
      repeat split; [constructor | exact E].
    + right. exists (x :: pre), c, post. repeat split; [|exact Hc].
      now constructor.
Qed.

Lemma first_failure_unique (pre pre' : list conn) c c' post post' :
  pre ++ c :: post = pre' ++ c' :: post' ->
  Forall (fun c => bad c = false) pre -> bad c = true ->
  Forall (fun c => bad c = false) pre' -> bad c' = true ->
  pre' = pre.
Proof.
  revert pre'. induction pre as [|x pre IH]; intros [|x' pre'] Heq Hp Hc Hp' Hc'.
  - reflexivity.
  - injection Heq as -> _. apply Forall_cons in Hp' as [Hx _]. congruence.
  - injection Heq as -> _. apply Forall_cons in Hp as [Hx _]. congruence.
  - injection Heq as -> Heq. f_equal.
    apply Forall_cons in Hp as [_ Hp]. apply Forall_cons in Hp' as [_ Hp'].
    exact (IH pre' Heq Hp Hc Hp' Hc').
Qed.

End FirstFailure.

(** C6, as stated, fails: Alice's buddies Bob and Carol are both connected
    and open; the send to Bob raises, and Carol, who comes after him,
    is sent nothing. *)
Lemma fanout_stops_at_first_failure :
  let w' := run (Server.notifyBuddiesStatusChange 1 "away" 77)
                Scenario.world_bob_faulty in
  fanout_targets Scenario.world_bob_faulty 1 = [20%nat; 30%nat]
  /\ raises (sockets Scenario.world_bob_faulty) 20 = true
  /\ raises (sockets Scenario.world_bob_faulty) 30 = false
  /\ trace w' = [EvLog "Error notifying buddies about status change:"]
  /\ ~ In (EvSend 30%nat (MsgBuddyStatus 1 "away" 77)) (trace w').
Proof.
  vm_compute. repeat split. intros [H|[]]. discriminate H.
Qed.

(** C6 (amended): [notifyBuddiesStatusChange] pushes the status-change
    event to the open connections of the user's buddies in buddy-row
    order; a buddy without an open connection is skipped and does not
    affect the others.  An exception raised while sending to one buddy is
    caught by the notifier, which logs it and returns normally, but it
    ends the fan-out: the buddies before that one have been sent the
    event, the remaining ones are sent nothing. *)
Theorem notify_fanout (w : World) (uid : Z) (status : string) (now : Z) :
  fault_at 0 (db w) = false ->
  let notifier := Server.notifyBuddiesStatusChange uid status now in
  let w' := run notifier w in
  let targets := fanout_targets w uid in
  let event := MsgBuddyStatus uid status now in
  result notifier w = Ok tt
  /\ (Forall (fun c => raises (sockets w) c = false) targets ->
      trace w' = trace w ++ List.map (fun c => EvSend c event) targets)
  /\ (forall pre c post,
         targets = pre ++ c :: post ->
         Forall (fun c => raises (sockets w) c = false) pre ->
         raises (sockets w) c = true ->
         trace w'
         = trace w ++ List.map (fun c => EvSend c event) pre
                   ++ [EvLog "Error notifying buddies about status change:"]).
Proof.
  intros Hf notifier w' targets event.
  set (d := snd (Db.next_fault (db w))).
  set (w0 := set_db d w).
  assert (Hbud : Db.buddy_ids d uid = Db.buddy_ids (db w) uid).
  { unfold d, Db.next_fault.
    destruct (Db.faults (db w)) as [|f fl]; reflexivity. }
  assert (Hrun :
    notifier w
    = match forEach (Db.buddy_ids (db w) uid)
              (fun buddy =>
                 let! buddyWs := gets (fun w => connections w !! buddy) in
                 let! buddyOpen := gets (fun w => isOpen w buddyWs) in
                 match buddyWs with
                 | Some b => if buddyOpen then ws_send b event else ret tt
                 | None => ret tt
                 end) w0 with
      | (Ok a, w1) => (Ok a, w1)
      | (Throw _, w1) =>
          log "Error notifying buddies about status change:" w1
      end).
  { unfold notifier, Server.notifyBuddiesStatusChange, tryCatch.
    unfold bind at 1. unfold db_query. rewrite <- Hbud. unfold w0, d.
    unfold fault_at in Hf. unfold Db.next_fault.
    destruct (Db.faults (db w)) as [|f fl]; cbn [nth] in Hf; subst;
      reflexivity. }
  unfold w', run, result. rewrite Hrun. clear Hrun.
  pose proof (forEach_fanout (sockets w) (connections w) uid status now
                (Db.buddy_ids (db w) uid) w0 eq_refl eq_refl) as [Hok Hbad].
  cbn zeta in Hok, Hbad. fold (fanout_targets w uid) in Hok, Hbad.
  fold targets in Hok, Hbad. fold event in Hok, Hbad.
  change (trace w0) with (trace w) in Hok, Hbad.
  destruct (first_failure_cases (raises (sockets w)) targets)
    as [Hall|(pre & c & post & Heq & Hpre & Hc)].
  - destruct (Hok Hall) as [Hres Htr].
    destruct (forEach _ _ w0) as [[[]|e] w1]; cbn [fst snd] in *;
      [|discriminate Hres].
    repeat split.
    + intros _. exact Htr.
    + intros pre c post Heq Hpre Hc. exfalso.
      rewrite Heq in Hall. apply Forall_app in Hall as [_ Hall].
      apply Forall_cons in Hall as [Hbad' _]. congruence.
  - destruct (Hbad pre c post Heq Hpre Hc) as [Hres Htr].
    destruct (forEach _ _ w0) as [[[]|e] w1]; cbn [fst snd] in *;
      [discriminate Hres|].
    unfold log, modify. cbn [fst snd trace set_trace]. repeat split.
    + intros Hall. exfalso.
      rewrite Heq in Hall. apply Forall_app in Hall as [_ Hall].
      apply Forall_cons in Hall as [Hbad' _]. congruence.
    + intros pre' c' post' Heq' Hpre' Hc'.
      assert (pre' = pre) as ->.
      { apply (first_failure_unique (raises (sockets w)) pre pre' c c'
                 post post'); congruence || assumption. }
      rewrite Htr, <- app_assoc. reflexivity.
Qed.

(** The amended C6 at work: with every socket accepting the send, Bob and
    Carol are both told that Alice is away. *)
Lemma notify_fanout_witness :
  trace (run (Server.notifyBuddiesStatusChange 1 "away" 77) Scenario.world)
  = [EvSend 20%nat (MsgBuddyStatus 1 "away" 77);
     EvSend 30%nat (MsgBuddyStatus 1 "away" 77)].
Proof.
  apply (proj1 (proj2 (notify_fanout Scenario.world 1 "away" 77 eq_refl))).
  change (fanout_targets Scenario.world 1) with [20%nat; 30%nat].
  repeat constructor.
Defined.

(** ** The message gate *)

(** C7, as stated, fails in the close code: a payload of 10 KiB and one
    byte closes the connection with 1009 (message too big), not with the
    policy-violation code. *)
Lemma oversized_payload_close_code :
  let w' := run (Server.setupMessageHandler Scenario.parse Scenario.jwt 10
                                  Scenario.oversized 77) Scenario.world in
  (10 * 1024 < Z.of_nat (List.length Scenario.oversized))
  /\ trace w' = [EvClose 10%nat 1009 "Message too large"]
  /\ ~ In (EvClose 10%nat CLOSE_POLICY_VIOLATION "Message too large") (trace w')
  /\ (forall code reason,
         In (EvClose 10%nat code reason) (trace w') ->
         code <> CLOSE_POLICY_VIOLATION).
Proof.
  vm_compute. repeat split.
  - intros [H|[]]. discriminate H.
  - intros code reason [H|[]] Hc. subst. discriminate H.
Qed.

(** C7 (amended): for every inbound payload of more than 10 KiB the
    listener calls [close] with code 1009 (message too big) and does
    nothing else: the outcome does not depend on what the parser or the
    token verifier would answer, the store, the rate windows, the
    registries and the counts are untouched, and nothing is sent. *)
Theorem oversized_payload_closes_before_parsing
        (JSON_parse JSON_parse' : list Byte.byte -> option JSVal)
        (jwt_verify jwt_verify' : jsstring -> option Server.Decoded)
        (w : World) (ws : conn) (s : Socket) (data : list Byte.byte)
        (now : Z) :
  sockets w !! ws = Some s ->
  throws s = false ->
  10 * 1024 < Z.of_nat (List.length data) ->
  let listener := Server.setupMessageHandler JSON_parse jwt_verify ws data now in
  let w' := run listener w in
  result listener w = Ok tt
  /\ trace w' = trace w ++ [EvClose ws CLOSE_MESSAGE_TOO_BIG "Message too large"]
  /\ db w' = db w
  /\ messageRates w' = messageRates w
  /\ wsConnections w' = wsConnections w
  /\ connections w' = connections w
  /\ userConnections w' = userConnections w
  /\ listener w = Server.setupMessageHandler JSON_parse' jwt_verify' ws data now w.
Proof.
  intros Hs Ht Hsize listener w'.
  assert (Hv : Security.validateMessageSize data = false).
  { unfold Security.validateMessageSize, Security.MAX_MESSAGE_SIZE.
    apply Z.leb_gt. lia. }
  unfold w', listener, run, result, Server.setupMessageHandler, tryCatch.
  rewrite Hv. cbn [negb]. unfold ws_close.
  rewrite Hs, Ht. cbn [negb fst snd]. repeat split.
Qed.

(** The amended C7 at work on connection 10. *)
Lemma oversized_payload_closes_before_parsing_witness :
  trace (run (Server.setupMessageHandler Scenario.parse Scenario.jwt 10
                               Scenario.oversized 77) Scenario.world)
  = [] ++ [EvClose 10%nat CLOSE_MESSAGE_TOO_BIG "Message too large"].
Proof.
  refine (proj1 (proj2 (oversized_payload_closes_before_parsing
                          Scenario.parse Scenario.parse
                          Scenario.jwt Scenario.jwt
                          Scenario.world 10 (Scenario.open_socket 1 false)
                          Scenario.oversized 77 eq_refl eq_refl _))).
  vm_compute. reflexivity.
Defined.

(** A message that passes structure validation has one of the five known
    types. *)
Lemma validated_type (message : JSVal) :
  Security.validateMessageStructure message = true ->
  let type := MessageHandler.type_text message in
  type = u16 "authenticate" \/ type = u16 "ping"
  \/ ignored_before_authentication type.
Proof.
  unfold Security.validateMessageStructure, MessageHandler.type_text,
    ignored_before_authentication, jsstring_eqb.
  destruct (negb (is_object message) || _); [discriminate|].
  destruct (get_prop message "type") as [| |b|n|t|l|props]; cbn [truthy is_string typeof negb orb];
    try discriminate; try (destruct (negb _ || _); discriminate).
  destruct (negb (negb _) || false); [discriminate|].
  intros Hv. cbv zeta.
  repeat case_bool_decide; cbn [orb] in Hv; try discriminate Hv; auto.
Qed.

(** C9: on a connection that has not authenticated, a message that passes
    the size, structure and rate checks and is neither [authenticate] nor
    [ping] (so it is a [private_message], [typing_start] or [typing_stop])
    is dropped without a trace: the listener returns normally, nothing is
    sent, closed or logged, the store, the sockets, both registries and
    the per-user counts are as before.  Only the rate window of the gate
    has recorded the message. *)
Theorem unauthenticated_message_ignored
        (JSON_parse : list Byte.byte -> option JSVal)
        (jwt_verify : jsstring -> option Server.Decoded)
        (w : World) (ws : conn) (s : Socket) (data : list Byte.byte)
        (message : JSVal) (now : Z) :
  sockets w !! ws = Some s ->
  isAuthenticated s = false ->
  Security.validateMessageSize data = true ->
  JSON_parse data = Some message ->
  Security.validateMessageStructure message = true ->
  result (Counters.checkMessageRateLimit
            (ip s) (MessageHandler.type_text message) now) w = Ok true ->
  MessageHandler.type_text message <> u16 "authenticate" ->
  MessageHandler.type_text message <> u16 "ping" ->
  let listener := Server.setupMessageHandler JSON_parse jwt_verify ws data now in
  let w' := run listener w in
  ignored_before_authentication (MessageHandler.type_text message)
  /\ result listener w = Ok tt
  /\ trace w' = trace w
  /\ db w' = db w
  /\ sockets w' = sockets w
  /\ wsConnections w' = wsConnections w
  /\ connections w' = connections w
  /\ userConnections w' = userConnections w.
Proof.
  intros Hs Ha Hsize Hparse Hstruct Hrate Hna Hnp listener w'.
  assert (Hty : ignored_before_authentication (MessageHandler.type_text message)).
  { destruct (validated_type message Hstruct) as [H|[H|H]];
      [contradiction | contradiction | exact H]. }
  split; [exact Hty|].
  unfold result in Hrate.
  destruct (Counters.checkMessageRateLimit (ip s)
              (MessageHandler.type_text message) now w) as [r w1] eqn:Hcheck.
  cbn [fst] in Hrate. subst r.
  assert (Hw1 : sockets w1 = sockets w /\ trace w1 = trace w /\ db w1 = db w
                /\ wsConnections w1 = wsConnections w
                /\ connections w1 = connections w
                /\ userConnections w1 = userConnections w).
  { unfold Counters.checkMessageRateLimit in Hcheck.
    destruct (Nat.leb _ _) in Hcheck; inversion Hcheck; subst;
      repeat split. }
  destruct Hw1 as (Hsk & Htr & Hdb & Hreg & Hcon & Hcnt).
  assert (Hdrop : Server.handleMessage jwt_verify ws message now w1 = (Ok tt, w1)).
  { unfold Server.handleMessage.
    unfold ignored_before_authentication in Hty.
    destruct Hty as [E|[E|E]]; rewrite E;
      repeat match goal with
             | |- context [jsstring_eqb ?x ?y] =>
                 let v := eval vm_compute in (jsstring_eqb x y) in
                 change (jsstring_eqb x y) with v
             end;
      cbn [orb]; cbv iota;
      unfold Server.socket_field, bind, gets, ret; rewrite Hsk, Hs, Ha;
      reflexivity. }
  assert (Hrun : listener w = (Ok tt, w1)).
  { unfold listener, Server.setupMessageHandler, tryCatch.
    rewrite Hsize, Hparse. cbn [negb].
    unfold bind at 1. unfold ret at 1. cbv beta iota.
    rewrite Hstruct. cbn [negb].
    unfold bind at 1. unfold Server.socket_field at 1. unfold gets at 1.
    rewrite Hs.
    unfold bind at 1. rewrite Hcheck. cbn [negb].
    rewrite Hdrop. reflexivity. }
  unfold w', run, result. rewrite Hrun. cbn [fst snd].
  repeat split; assumption.
Qed.

(** C9 at work: the guest on connection 40 sends a well-formed
    [private_message] before authenticating. *)
Lemma unauthenticated_message_ignored_witness :
  result (Server.setupMessageHandler Scenario.parse Scenario.jwt 40
                           Scenario.payload_pm 77)
         Scenario.world_with_guest = Ok tt
  /\ trace (run (Server.setupMessageHandler Scenario.parse Scenario.jwt 40
                                  Scenario.payload_pm 77)
                Scenario.world_with_guest)
     = trace Scenario.world_with_guest.
Proof.
  refine (let H := unauthenticated_message_ignored
                     Scenario.parse Scenario.jwt Scenario.world_with_guest 40
                     {| ip := u16 "10.0.0.9"; isAuthenticated := false;
                        userId := None; isAlive := true; readyState := 1;
                        throws := false |}
                     Scenario.payload_pm (private_message 2 (u16 "hello")) 77
                     eq_refl eq_refl eq_refl eq_refl eq_refl eq_refl _ _ in
          conj (proj1 (proj2 H)) (proj1 (proj2 (proj2 H))));
    vm_compute; discriminate.
Defined.

(** ** The token blacklist *)

Section Blacklist.

Import TokenBlacklist.

Variable jwt_decode : jsstring -> option Claims.
Variable bcrypt_digest : N -> jsstring -> N.

Lemma filter_none {A} (f : A -> bool) (l : list A) :
  (forall x, In x l -> f x = false) -> List.filter f l = [].
Proof.
  induction l as [|x l IH]; intros H; [reflexivity|].
  cbn [List.filter]. rewrite (H x (or_introl eq_refl)).
  apply IH. intros y Hy. apply H. now right.
Qed.

(** A lookup under a salt that no stored hash carries finds nothing,
    whatever the token and the expiry of the rows. *)
Lemma fresh_salt_lookup_misses (w : World) (salt : N) (token : jsstring)
      (now : Z) :
  Db.faults (db w) = [] ->
  (forall row, In row (Db.token_blacklist (db w)) ->
               Db.hash_salt (fst row) <> salt) ->
  isTokenBlacklisted bcrypt_digest salt token now w
  = (Ok false, set_db (db w) w).
Proof.
  intros Hf Hfresh. unfold isTokenBlacklisted, tryCatch, bind.
  rewrite db_query_ok by assumption. unfold Db.blacklist_rows.
  rewrite filter_none; [reflexivity|].
  intros row Hin. apply andb_false_intro1.
  apply bool_decide_eq_false. intros Heq.
  apply (Hfresh row Hin). rewrite Heq. reflexivity.
Qed.

Lemma addToken_stores (w : World) (salt : N) (token : jsstring)
      (claims : Claims) (exp : Z) :
  jwt_decode token = Some claims ->
  claim_exp claims = Some exp ->
  exp <> 0 ->
  Db.faults (db w) = [] ->
  let add := addToken jwt_decode bcrypt_digest salt token in
  result add w = Ok true
  /\ exists expires_at,
      In (bcrypt_hash bcrypt_digest salt token, expires_at)
         (Db.token_blacklist (db (run add w))).
Proof.
  intros Hd He Hz Hf add.
  assert (Hrun :
    add w
    = (Ok true,
       set_trace (trace w ++ [EvLog "Token blacklisted for user"])
         (set_db (Db.insert_blacklist (db w)
                    (bcrypt_hash bcrypt_digest salt token) (exp * 1000)) w))).
  { unfold add, addToken, tryCatch. rewrite Hd, He.
    rewrite (proj2 (Z.eqb_neq exp 0) Hz).
    unfold bind. rewrite db_query_ok by assumption. reflexivity. }
  unfold run, result. rewrite Hrun. cbn [fst snd db set_db set_trace].
  split; [reflexivity|].
  unfold Db.insert_blacklist.
  destruct (existsb _ _) eqn:E.
  - apply existsb_exists in E as ([h e] & Hin & Hh).
    apply bool_decide_eq_true in Hh. cbn [fst] in Hh. subst h.
    exists e. exact Hin.
  - exists (exp * 1000). cbn [Db.token_blacklist Db.set_token_blacklist].
    apply in_or_app. right. now left.
Qed.

End Blacklist.

(** C8: a token stored by [addToken] is on the blacklist under the hash
    of the salt drawn at that time.  A later [isTokenBlacklisted] hashes
    the token under a salt of its own; when that salt is a fresh one, not
    carried by any stored hash, the lookup key equals no stored hash and
    the call, absent a database error, returns false, although the stored
    hash does belong to the token and whether or not it has expired. *)
Theorem blacklisted_token_never_found
        (jwt_decode : jsstring -> option TokenBlacklist.Claims)
        (bcrypt_digest : N -> jsstring -> N)
        (w : World) (token : jsstring) (salt_add : N)
        (claims : TokenBlacklist.Claims) (exp : Z) :
  jwt_decode token = Some claims ->
  TokenBlacklist.claim_exp claims = Some exp ->
  exp <> 0 ->
  Db.faults (db w) = [] ->
  let add := TokenBlacklist.addToken jwt_decode bcrypt_digest salt_add token in
  let stored := TokenBlacklist.bcrypt_hash bcrypt_digest salt_add token in
  result add w = Ok true
  /\ (exists expires_at,
         In (stored, expires_at) (Db.token_blacklist (db (run add w))))
  /\ TokenBlacklist.bcrypt_compare bcrypt_digest token stored = true
  /\ (forall (later : World) (salt_check : N) (now : Z),
         (exists expires_at,
             In (stored, expires_at) (Db.token_blacklist (db later))) ->
         Db.faults (db later) = [] ->
         (forall row, In row (Db.token_blacklist (db later)) ->
                      Db.hash_salt (fst row) <> salt_check) ->
         let key := TokenBlacklist.bcrypt_hash bcrypt_digest salt_check token in
         key <> stored
         /\ result (TokenBlacklist.isTokenBlacklisted
                      bcrypt_digest salt_check token now) later = Ok false).
Proof.
  intros Hd He Hz Hf add stored.
  destruct (addToken_stores jwt_decode bcrypt_digest w salt_add token claims exp
              Hd He Hz Hf) as [Hres Hrow].
  split; [exact Hres|]. split; [exact Hrow|]. split.
  - unfold TokenBlacklist.bcrypt_compare. apply bool_decide_eq_true.
    reflexivity.
  - intros later salt_check now (e & Hin) Hlive Hfresh key. split.
    + intros Heq. apply (Hfresh _ Hin). cbn [fst]. rewrite <- Heq.
      reflexivity.
    + unfold result.
      now rewrite (fresh_salt_lookup_misses bcrypt_digest later salt_check
                     token now Hlive Hfresh).
Qed.

(** C8 at work: a token is blacklisted under salt 7 and looked up, before
    its expiry, under salt 8. *)
Lemma blacklisted_token_never_found_witness :
  let add := TokenBlacklist.addToken Scenario.decode Scenario.digest 7
                                     (u16 "tok-1") in
  result add Scenario.world = Ok true
  /\ result (TokenBlacklist.isTokenBlacklisted Scenario.digest 8
               (u16 "tok-1") 1000) (run add Scenario.world) = Ok false.
Proof.
  destruct (blacklisted_token_never_found
              Scenario.decode Scenario.digest Scenario.world (u16 "tok-1") 7
              {| TokenBlacklist.claim_id := Some 1;
                 TokenBlacklist.claim_exp := Some 1700000000 |} 1700000000
              eq_refl eq_refl ltac:(discriminate) eq_refl)
    as (Hadd & Hrow & _ & Hlater).
  split; [exact Hadd|].
  refine (proj2 (Hlater _ 8%N 1000 Hrow eq_refl _)).
  intros row [<-|[]]. vm_compute. discriminate.
Defined.

(* ===================================================================== *)
(** * Further properties of the code *)
(* ===================================================================== *)

(** ** The sanitizer and the content validator *)

Section SanitizerOutput.

Lemma in_trimStart x s : In x (trimStart s) -> In x s.
Proof.
  induction s as [|c s IH]; cbn [trimStart]; [tauto|].
  destruct (isWhiteSpace c); [intros H; right; exact (IH H) | tauto].
Qed.

Lemma in_trim x s : In x (trim s) -> In x s.
Proof.
  unfold trim, trimEnd. intros H. apply in_rev, in_trimStart, in_rev in H.
  now apply in_trimStart.
Qed.

Lemma escape1_no_markup c x : In x (escape1 c) -> isMarkup x = false.
Proof.
  unfold escape1.
  destruct (N.eqb_spec c 38) as [->|H38];
    [cbn; intuition (subst; reflexivity)|].
  destruct (N.eqb_spec c 60) as [->|H60];
    [cbn; intuition (subst; reflexivity)|].
  destruct (N.eqb_spec c 62) as [->|H62];
    [cbn; intuition (subst; reflexivity)|].
  destruct (N.eqb_spec c 34) as [->|H34];
    [cbn; intuition (subst; reflexivity)|].
  destruct (N.eqb_spec c 39) as [->|H39];
    [cbn; intuition (subst; reflexivity)|].
  destruct (N.eqb_spec c 47) as [->|H47];
    [cbn; intuition (subst; reflexivity)|].
  intros [<-|[]]. unfold isMarkup. cbn [existsb].
  repeat match goal with
         | H : c <> ?k |- context [(c =? ?k)%N] =>
             rewrite (proj2 (N.eqb_neq c k) H)
         end.
  reflexivity.
Qed.

End SanitizerOutput.

(** X1: whatever the input, the text that [sanitizeMessageContent]
    returns contains no angle bracket, no double or single quote and no
    slash. *)
Theorem sanitized_text_has_no_markup (content : JSVal) :
  forallb (fun c => negb (isMarkup c))
          (Security.sanitizeMessageContent content) = true.
Proof.
  apply forallb_forall. intros x Hx.
  destruct content as [| |b|n|s|l|props]; try (now inversion Hx).
  cbn [Security.sanitizeMessageContent] in Hx.
  apply in_trim in Hx. rewrite escapeHtml_flat_map in Hx.
  apply in_flat_map in Hx as (c & _ & Hc).
  now rewrite (escape1_no_markup c x Hc).
Qed.

(** X2: the text that [sanitizeMessageContent] returns neither begins nor
    ends with white space. *)
Theorem sanitized_text_is_trimmed (content : JSVal) :
  (forall c rest, Security.sanitizeMessageContent content = c :: rest ->
                  isWhiteSpace c = false)
  /\ (forall c front, Security.sanitizeMessageContent content = front ++ [c] ->
                      isWhiteSpace c = false).
Proof.
  destruct content as [| |b|n|s|l|props];
    try (split; [intros c rest H; discriminate H
                | intros c [|? ?] H; discriminate H]).
  cbn [Security.sanitizeMessageContent]. split.
  - intros c rest H. unfold trim in H.
    destruct (trimStart (Security.escapeHtml s)) as [|c0 t] eqn:E;
      [discriminate H|].
    pose proof (trimStart_head _ _ _ E) as Hc0.
    rewrite (trimEnd_cons c0 t Hc0) in H. now injection H as <- _.
  - intros c front H. unfold trim, trimEnd in H.
    apply (f_equal (@rev N)) in H.
    rewrite rev_involutive, rev_app_distr in H. cbn [rev app] in H.
    exact (trimStart_head _ _ _ H).
Qed.

Section Matcher.

(** A match at the start of a text remains one when text follows. *)
Lemma match_here_app p : forall s post,
  match_here p s = true -> match_here p (s ++ post) = true.
Proof.
  induction p as [|[cls|cls] p IH]; intros s post.
  - reflexivity.
  - destruct s as [|c s]; cbn [match_here app]; [discriminate|].
    intros H. apply andb_prop in H as [-> H]. exact (IH s post H).
  - induction s as [|c s IHs]; [discriminate|].
    change (match_here (Plus cls :: p) (c :: s))
      with (cls c && (match_here (Plus cls :: p) s || match_here p s)).
    change (match_here (Plus cls :: p) ((c :: s) ++ post))
      with (cls c && (match_here (Plus cls :: p) (s ++ post)
                      || match_here p (s ++ post))).
    intros H. apply andb_prop in H as [-> H]. cbn [andb].
    apply orb_prop in H as [H|H].
    + now rewrite (IHs H).
    + rewrite (IH s post H). apply orb_true_r.
Qed.

Lemma test_app_r p s post : test p s = true -> test p (s ++ post) = true.
Proof.
  induction s as [|c s IH].
  - cbn [test]. rewrite orb_false_r. intros H.
    pose proof (match_here_app p [] post H) as H'. cbn [app] in H' |- *.
    destruct post; cbn [test]; now rewrite H'.
  - cbn [test app]. intros H. apply orb_prop in H as [H|H].
    + pose proof (match_here_app p (c :: s) post H) as H'.
      cbn [app] in H'. now rewrite H'.
    + rewrite (IH H). apply orb_true_r.
Qed.

Lemma test_app_l p pre s : test p s = true -> test p (pre ++ s) = true.
Proof.
  intros H. induction pre as [|c pre IH]; [exact H|].
  cbn [test app]. rewrite IH. apply orb_true_r.
Qed.

(** Matching does not see a change of the text that every class of the
    pattern is blind to. *)
Lemma match_here_map (f : N -> N) p :
  Forall (fun a => forall c, atom_class a (f c) = atom_class a c) p ->
  forall s, match_here p (List.map f s) = match_here p s.
Proof.
  induction p as [|[cls|cls] p IH]; intros Hp s.
  - reflexivity.
  - apply Forall_cons in Hp as [Hc Hp]. cbn [atom_class] in Hc.
    destruct s as [|c s]; cbn [match_here List.map]; [reflexivity|].
    now rewrite Hc, (IH Hp).
  - apply Forall_cons in Hp as [Hc Hp]. cbn [atom_class] in Hc.
    induction s as [|c s IHs]; [reflexivity|].
    change (match_here (Plus cls :: p) (List.map f (c :: s)))
      with (cls (f c) && (match_here (Plus cls :: p) (List.map f s)
                          || match_here p (List.map f s))).
    change (match_here (Plus cls :: p) (c :: s))
      with (cls c && (match_here (Plus cls :: p) s || match_here p s)).
    now rewrite Hc, IHs, (IH Hp).
Qed.

Lemma test_map (f : N -> N) p :
  Forall (fun a => forall c, atom_class a (f c) = atom_class a c) p ->
  forall s, test p (List.map f s) = test p s.
Proof.
  intros Hp s. induction s as [|c s IH].
  - reflexivity.
  - cbn [List.map test]. rewrite IH.
    pose proof (match_here_map f p Hp (c :: s)) as Hm.
    cbn [List.map] in Hm. now rewrite Hm.
Qed.

Lemma toUpper_idem c : toUpper (toUpper c) = toUpper c.
Proof.
  unfold toUpper.
  destruct ((97 <=? c) && (c <=? 122))%N eqn:E; [|now rewrite E].
  apply andb_prop in E as [E1 E2]. apply N.leb_le in E1, E2.
  assert ((97 <=? c - 32) = false)%N as -> by (apply N.leb_gt; lia).
  reflexivity.
Qed.

Lemma isWord_toUpper c : isWord (toUpper c) = isWord c.
Proof.
  unfold toUpper.
  destruct ((97 <=? c) && (c <=? 122))%N eqn:E; [|reflexivity].
  unfold isWord. rewrite E.
  apply andb_prop in E as [E1 E2]. apply N.leb_le in E1, E2.
  assert ((65 <=? c - 32) = true)%N as -> by (apply N.leb_le; lia).
  assert ((c - 32 <=? 90) = true)%N as -> by (apply N.leb_le; lia).
  now rewrite !orb_true_r.
Qed.

Lemma isSpecialChar_toUpper c :
  Security.isSpecialChar (toUpper c) = Security.isSpecialChar c.
Proof.
  unfold toUpper.
  destruct ((97 <=? c) && (c <=? 122))%N eqn:E; [|reflexivity].
  apply andb_prop in E as [E1 E2]. apply N.leb_le in E1, E2.
  unfold Security.isSpecialChar. cbn [existsb].
  repeat match goal with
         | |- context [N.eqb ?x ?k] =>
             rewrite (proj2 (N.eqb_neq x k)) by lia
         end.
  reflexivity.
Qed.

Lemma lit_i_blind s :
  Forall (fun a => forall c, atom_class a (toUpper c) = atom_class a c)
         (lit_i s).
Proof.
  unfold lit_i. apply List.Forall_forall. intros a Ha.
  apply in_map_iff in Ha as (x & <- & _). intros c.
  cbn [chr_i atom_class]. now rewrite toUpper_idem.
Qed.

Lemma dangerousPatterns_blind :
  Forall (Forall (fun a => forall c, atom_class a (toUpper c) = atom_class a c))
         Security.dangerousPatterns.
Proof.
  assert (Hon : Forall (fun a => forall c,
                           atom_class a (toUpper c) = atom_class a c)
                       (lit_i "on" ++ [Plus isWord] ++ lit_i "=")).
  { apply Forall_app. split; [apply lit_i_blind|].
    apply Forall_app. split; [|apply lit_i_blind].
    apply Forall_cons. split; [|constructor].
    intros c. cbn [atom_class]. apply isWord_toUpper. }
  unfold Security.dangerousPatterns.
  repeat (apply Forall_cons; split; [first [exact Hon | apply lit_i_blind]|]).
  constructor.
Qed.

End Matcher.

(** X3: a dangerous fragment cannot be hidden in context: when one of the
    dangerous patterns matches a text, [validateMessageContent] rejects
    every text that contains it, whatever comes before and after. *)
Theorem dangerous_fragment_rejected_in_any_context (s pre post : jsstring) :
  dangerous s = true ->
  Security.validateMessageContent (JStr (pre ++ s ++ post)) = false.
Proof.
  unfold dangerous. intros H.
  apply existsb_exists in H as (p & Hp & Hm).
  cbn [Security.validateMessageContent].
  assert (existsb (fun pattern => test pattern (pre ++ s ++ post))
                  Security.dangerousPatterns = true) as ->; [|reflexivity].
  apply existsb_exists. exists p. split; [exact Hp|].
  apply test_app_l, test_app_r, Hm.
Qed.

(** The fragment [<ScRiPt] inside a longer sentence. *)
Lemma dangerous_fragment_rejected_in_any_context_witness :
  Security.validateMessageContent
    (JStr (u16 "hello " ++ u16 "<ScRiPt" ++ u16 ">alert(1)")) = false.
Proof.
  apply (dangerous_fragment_rejected_in_any_context
           (u16 "<ScRiPt") (u16 "hello ") (u16 ">alert(1)")).
  reflexivity.
Defined.

(** X4: the verdict of [validateMessageContent] does not depend on the
    case of the ASCII letters of the text. *)
Theorem content_verdict_ignores_letter_case (s : jsstring) :
  Security.validateMessageContent (JStr (List.map toUpper s))
  = Security.validateMessageContent (JStr s).
Proof.
  cbn [Security.validateMessageContent].
  assert (Hd : existsb (fun pattern => test pattern (List.map toUpper s))
                       Security.dangerousPatterns
               = existsb (fun pattern => test pattern s)
                         Security.dangerousPatterns).
  { pose proof dangerousPatterns_blind as Hb.
    induction Security.dangerousPatterns as [|p ps IH]; [reflexivity|].
    apply Forall_cons in Hb as [Hp Hps]. cbn [existsb].
    now rewrite (test_map toUpper p Hp s), (IH Hps). }
  assert (Hr : Security.specialCharRatio (List.map toUpper s)
               = Security.specialCharRatio s).
  { unfold Security.specialCharRatio. rewrite length_map.
    assert (List.length (List.filter Security.isSpecialChar
                                     (List.map toUpper s))
            = List.length (List.filter Security.isSpecialChar s)) as ->;
      [|reflexivity].
    clear Hd. induction s as [|c s IH]; [reflexivity|].
    cbn [List.map List.filter]. rewrite isSpecialChar_toUpper.
    destruct (Security.isSpecialChar c); cbn [List.length]; now rewrite IH. }
  now rewrite Hd, Hr.
Qed.

(** ** The sliding-window limiters *)

Section Window.

(** One limiter: what it reads, its step, its ceiling and its window. *)
Variable get : World -> list Z.
Variable step : Z -> M bool.
Variable limit : nat.
Variable window : Z.

Hypothesis step_refuses : forall w now,
  (limit <= List.length (List.filter (fun t => (now - window <? t)%Z) (get w)))%nat ->
  step now w = (Ok false, w).

Hypothesis step_admits : forall w now,
  (List.length (List.filter (fun t => (now - window <? t)%Z) (get w)) < limit)%nat ->
  exists w', step now w = (Ok true, w')
             /\ get w' = List.filter (fun t => (now - window <? t)%Z) (get w) ++ [now].

Lemma filter_all {A} (f : A -> bool) (l : list A) :
  (forall x, In x l -> f x = true) -> List.filter f l = l.
Proof.
  induction l as [|x l IH]; intros H; [reflexivity|].
  cbn [List.filter]. rewrite (H x (or_introl eq_refl)). f_equal.
  apply IH. intros y Hy. apply H. now right.
Qed.

Lemma answers_cons_free used n :
  (used < limit)%nat ->
  answers limit used (S n) = true :: answers limit (S used) n.
Proof.
  intros H. unfold answers. cbn [List.seq List.map].
  rewrite Nat.add_0_r, (proj2 (Nat.ltb_lt _ _) H). f_equal.
  rewrite <- seq_shift, map_map. apply map_ext. intros i.
  now rewrite Nat.add_succ_r.
Qed.

Lemma answers_cons_full used n :
  (limit <= used)%nat ->
  answers limit used (S n) = false :: answers limit used n.
Proof.
  intros H. unfold answers. cbn [List.seq List.map].
  rewrite Nat.add_0_r, (proj2 (Nat.ltb_ge _ _) H). f_equal.
  rewrite <- seq_shift, map_map. apply map_ext. intros i.
  rewrite (proj2 (Nat.ltb_ge (used + S i) limit)) by lia.
  now rewrite (proj2 (Nat.ltb_ge (used + i) limit)) by lia.
Qed.

Lemma window_run (times : list Z) :
  forall w,
    within_window window (get w) times ->
    exists w',
      each times step w
      = (Ok (answers limit (List.length (get w)) (List.length times)), w')
      /\ get w' = get w ++ firstn (limit - List.length (get w)) times.
Proof.
  induction times as [|now rest IH]; intros w Hw.
  - exists w. split; [reflexivity|]. now rewrite firstn_nil, app_nil_r.
  - assert (Hkeep : List.filter (fun t => (now - window <? t)%Z) (get w) = get w).
    { apply filter_all. intros t Ht. apply Z.ltb_lt.
      apply Hw; [apply in_or_app; now left | now left]. }
    destruct (Nat.lt_ge_cases (List.length (get w)) limit) as [Hfree|Hfull].
    + destruct (step_admits w now) as (w1 & Hstep & Hget);
        [now rewrite Hkeep|].
      rewrite Hkeep in Hget.
      destruct (IH w1) as (w' & Hrun & Hfinal).
      { intros t now' Ht Hnow'. apply Hw; [|now right].
        rewrite Hget in Ht. apply in_app_or in Ht as [Ht|Ht].
        - apply in_app_or in Ht as [Ht|[<-|[]]].
          + apply in_or_app. now left.
          + apply in_or_app. right. now left.
        - apply in_or_app. right. now right. }
      exists w'. cbn [each List.length]. unfold bind at 1. rewrite Hstep.
      unfold bind at 1. rewrite Hrun. unfold ret. split.
      * rewrite answers_cons_free by exact Hfree.
        rewrite Hget, length_app, Nat.add_1_r. reflexivity.
      * rewrite Hfinal, Hget, length_app, Nat.add_1_r, <- app_assoc.
        replace (limit - List.length (get w))%nat
          with (S (limit - S (List.length (get w))))%nat by lia.
        reflexivity.
    + destruct (IH w) as (w' & Hrun & Hfinal).
      { intros t now' Ht Hnow'. apply Hw; [|now right].
        apply in_app_or in Ht as [Ht|Ht]; apply in_or_app;
          [now left | right; now right]. }
      exists w'. cbn [each List.length]. unfold bind at 1.
      rewrite (step_refuses w now) by (now rewrite Hkeep).
      unfold bind at 1. rewrite Hrun. unfold ret. split.
      * now rewrite answers_cons_full by exact Hfull.
      * rewrite Hfinal.
        replace (limit - List.length (get w))%nat with 0%nat by lia.
        reflexivity.
Qed.

(** When every recorded time has left the window, the next call is
    admitted and the record restarts from it. *)
Lemma window_recovers w now :
  (0 < limit)%nat ->
  (forall t, In t (get w) -> t <= now - window) ->
  exists w', step now w = (Ok true, w') /\ get w' = [now].
Proof.
  intros Hpos Hold.
  assert (Hnone : List.filter (fun t => (now - window <? t)%Z) (get w) = []).
  { apply filter_none. intros t Ht. apply Z.ltb_ge. now apply Hold. }
  destruct (step_admits w now) as (w' & Hstep & Hget);
    [rewrite Hnone; exact Hpos|].
  exists w'. split; [exact Hstep|]. now rewrite Hget, Hnone.
Qed.

End Window.

Section Limiters.

Import Security Counters.

Lemma connection_step_refuses ip w now :
  (10 <= List.length (List.filter (fun t => (now - 60000 <? t)%Z)
                                  (attempts_of w ip)))%nat ->
  checkConnectionLimit ip now w = (Ok false, w).
Proof.
  intros H. unfold checkConnectionLimit, MAX_CONNECTIONS_PER_IP.
  fold (attempts_of w ip). change (60 * 1000) with 60000.
  now rewrite (proj2 (Nat.leb_le _ _) H).
Qed.

Lemma connection_step_admits ip w now :
  (List.length (List.filter (fun t => (now - 60000 <? t)%Z)
                            (attempts_of w ip)) < 10)%nat ->
  exists w', checkConnectionLimit ip now w = (Ok true, w')
             /\ attempts_of w' ip
                = List.filter (fun t => (now - 60000 <? t)%Z)
                              (attempts_of w ip) ++ [now].
Proof.
  intros H. unfold checkConnectionLimit, MAX_CONNECTIONS_PER_IP.
  fold (attempts_of w ip). change (60 * 1000) with 60000.
  rewrite (proj2 (Nat.leb_gt _ _) H). eexists. split; [reflexivity|].
  unfold attempts_of at 1. cbn [connectionAttempts set_connectionAttempts].
  now rewrite lookup_insert_eq.
Qed.


Lemma message_step_admits ip type w now :
  (List.length (List.filter
                  (fun t => (now - getMessageRateWindow type <? t)%Z)
                  (messages_of w ip type))
   < getMessageRateLimit type)%nat ->
  exists w', checkMessageRateLimit ip type now w = (Ok true, w')
             /\ messages_of w' ip type
                = List.filter
                    (fun t => (now - getMessageRateWindow type <? t)%Z)
                    (messages_of w ip type) ++ [now].
Proof.
  intros H. unfold checkMessageRateLimit.
  fold (rate_key ip type). fold (messages_of w ip type).
  rewrite (proj2 (Nat.leb_gt _ _) H). eexists. split; [reflexivity|].
  unfold messages_of at 1. cbn [messageRates set_messageRates].
  now rewrite lookup_insert_eq.
Qed.

End Limiters.

(** A window condition on concrete times can be computed. *)
Lemma within_window_check (window : Z) (recorded times : list Z) :
  forallb (fun now => forallb (fun t => now - window <? t)
                              (recorded ++ times)) times = true ->
  within_window window recorded times.
Proof.
  intros H t now Ht Hnow. rewrite forallb_forall in H.
  specialize (H now Hnow). rewrite forallb_forall in H.
  apply Z.ltb_lt. exact (H t Ht).
Qed.

(** X5: of the connection attempts of one IP that lie within one minute of
    each other and of the attempts already recorded, exactly those that
    find one of the ten slots free are admitted, and every later one is
    refused; only the admitted ones are recorded. *)
Theorem connection_limit_admits_ten_per_minute
        (w : World) (ip : jsstring) (times : list Z) :
  within_window 60000 (attempts_of w ip) times ->
  exists w',
    each times (Counters.checkConnectionLimit ip) w
    = (Ok (answers 10 (List.length (attempts_of w ip)) (List.length times)), w')
    /\ attempts_of w' ip
       = attempts_of w ip
         ++ firstn (10 - List.length (attempts_of w ip)) times.
Proof.
  exact (window_run (fun w => attempts_of w ip)
           (Counters.checkConnectionLimit ip) 10 60000
           (connection_step_refuses ip) (connection_step_admits ip) times w).
Qed.

(** Twelve connections from one address, one second apart: the last two
    are refused. *)
Lemma connection_limit_admits_ten_per_minute_witness :
  exists w',
    each (List.map (fun i => 1000 * Z.of_nat i) (List.seq 1 12))
         (Counters.checkConnectionLimit (u16 "10.0.0.1")) Scenario.fresh
    = (Ok [true; true; true; true; true; true; true; true; true; true;
           false; false], w').
Proof.
  destruct (connection_limit_admits_ten_per_minute
              Scenario.fresh (u16 "10.0.0.1")
              (List.map (fun i => 1000 * Z.of_nat i) (List.seq 1 12)))
    as (w' & Hrun & _).
  - apply within_window_check. reflexivity.
  - exists w'. exact Hrun.
Defined.



(** X7: a refusal does not outlast the window: once every recorded
    message of a type from an IP is at least one window old, the next
    message of that type is let through, and the record restarts from
    it. *)
Theorem message_rate_recovers_after_window
        (w : World) (ip type : jsstring) (now : Z) :
  (forall t, In t (messages_of w ip type) ->
             t <= now - Security.getMessageRateWindow type) ->
  exists w',
    Counters.checkMessageRateLimit ip type now w = (Ok true, w')
    /\ messages_of w' ip type = [now].
Proof.
  intros Hold.
  apply (window_recovers (fun w => messages_of w ip type)
           (Counters.checkMessageRateLimit ip type)
           (Security.getMessageRateLimit type)
           (Security.getMessageRateWindow type)
           (message_step_admits ip type) w now); [|exact Hold].
  unfold Security.getMessageRateLimit.
  repeat (destruct (jsstring_eqb _ _); [lia|]). lia.
Qed.

(** A token looked up half a minute after the only recorded attempt. *)
Lemma message_rate_recovers_after_window_witness :
  exists w',
    Counters.checkMessageRateLimit (u16 "10.0.0.1") (u16 "authenticate") 31000
      (run (Counters.checkMessageRateLimit (u16 "10.0.0.1")
                                           (u16 "authenticate") 1000)
           Scenario.fresh)
    = (Ok true, w')
    /\ messages_of w' (u16 "10.0.0.1") (u16 "authenticate") = [31000].
Proof.
  apply (message_rate_recovers_after_window
           (run (Counters.checkMessageRateLimit (u16 "10.0.0.1")
                                                (u16 "authenticate") 1000)
                Scenario.fresh)
           (u16 "10.0.0.1") (u16 "authenticate") 31000).
  intros t [<-|[]]. vm_compute. discriminate.
Defined.

Section RateKeys.

(** The part before the last colon and the part after it determine a
    key. *)
Lemma rate_key_inj (ip ip' type type' : jsstring) :
  ~ In 58%N type -> ~ In 58%N type' ->
  rate_key ip type = rate_key ip' type' -> ip = ip' /\ type = type'.
Proof.
  unfold rate_key. change (u16 ":") with [58%N]. cbn [app].
  intros Ht Ht'. revert ip'.
  induction ip as [|c ip IH]; intros [|c' ip'] Heq; cbn [app] in Heq.
  - injection Heq as ->. now split.
  - injection Heq as <- ->. exfalso. apply Ht.
    apply in_or_app. right. now left.
  - injection Heq as -> <-. exfalso. apply Ht'.
    apply in_or_app. right. now left.
  - injection Heq as -> Heq. destruct (IH ip' Heq) as [-> ->]. now split.
Qed.

End RateKeys.

(** X8: the rate windows of different senders and types never interfere:
    for message types without a colon (as the five known types are), a
    call for one [ip] and [type] leaves the record of every other pair
    as it was, even when the addresses themselves contain colons. *)
Theorem rate_windows_do_not_interfere
        (w : World) (ip type ip' type' : jsstring) (now : Z) :
  ~ In 58%N type ->
  ~ In 58%N type' ->
  (ip, type) <> (ip', type') ->
  messages_of (run (Counters.checkMessageRateLimit ip type now) w) ip' type'
  = messages_of w ip' type'.
Proof.
  intros Ht Ht' Hne.
  assert (Hkey : rate_key ip type <> rate_key ip' type').
  { intros Heq. destruct (rate_key_inj ip ip' type type' Ht Ht' Heq)
      as [-> ->]. now apply Hne. }
  unfold run, Counters.checkMessageRateLimit. fold (rate_key ip type).
  destruct (Nat.leb _ _); cbn [snd]; [reflexivity|].
  unfold messages_of. cbn [messageRates set_messageRates].
  now rewrite lookup_insert_ne.
Qed.

(** Typing from the IPv6 loopback does not count against the chat
    messages of the same address. *)
Lemma rate_windows_do_not_interfere_witness :
  messages_of (run (Counters.checkMessageRateLimit
                      (u16 "::1") (u16 "typing_start") 1000) Scenario.fresh)
              (u16 "::1") (u16 "private_message")
  = messages_of Scenario.fresh (u16 "::1") (u16 "private_message").
Proof.
  apply (rate_windows_do_not_interfere
           Scenario.fresh (u16 "::1") (u16 "typing_start")
           (u16 "::1") (u16 "private_message") 1000).
  - vm_compute. intuition discriminate.
  - vm_compute. intuition discriminate.
  - intros H. injection H as H. vm_compute in H. discriminate H.
Defined.

(** ** The per-user counts *)

(** X9: the per-user counts stay between zero and the ceiling: when every
    stored count is in that range, it still is after
    [checkUserConnectionLimit] and after [removeUserConnection], for
    whatever user they are called; in particular a removal never drives
    a count below zero. *)
Theorem user_counts_stay_in_range (w : World) (uid : Z) :
  (forall u c, userConnections w !! u = Some c ->
               0 <= c <= Security.MAX_CONNECTIONS_PER_USER) ->
  (forall u c,
      userConnections (run (Counters.checkUserConnectionLimit uid) w) !! u
      = Some c ->
      0 <= c <= Security.MAX_CONNECTIONS_PER_USER)
  /\ (forall u c,
         userConnections (run (Counters.removeUserConnection uid) w) !! u
         = Some c ->
         0 <= c <= Security.MAX_CONNECTIONS_PER_USER).
Proof.
  unfold Security.MAX_CONNECTIONS_PER_USER. intros Hw. split; intros u c.
  - unfold run, Counters.checkUserConnectionLimit,
      Security.MAX_CONNECTIONS_PER_USER.
    destruct (3 <=? default 0 (userConnections w !! uid)) eqn:E;
      cbn [snd userConnections set_userConnections]; [apply Hw|].
    apply Z.leb_gt in E.
    destruct (decide (uid = u)) as [->|Hne].
    + rewrite lookup_insert_eq. intros [= <-].
      destruct (userConnections w !! u) as [c0|] eqn:Ec; cbn [default] in *;
        unfold id in *; [pose proof (Hw u c0 Ec)|]; lia.
    + rewrite lookup_insert_ne by exact Hne. apply Hw.
  - unfold run, Counters.removeUserConnection.
    cbn [snd userConnections set_userConnections].
    destruct (decide (uid = u)) as [->|Hne].
    + rewrite lookup_insert_eq. intros [= <-].
      destruct (userConnections w !! u) as [c0|] eqn:Ec; [|lia].
      pose proof (Hw u c0 Ec). destruct (c0 =? 0); lia.
    + rewrite lookup_insert_ne by exact Hne. apply Hw.
Qed.

(** The counts of the scenario, after Alice takes one more slot. *)
Lemma user_counts_stay_in_range_witness :
  userConnections (run (Counters.checkUserConnectionLimit 1) Scenario.world)
  !! 1 = Some 2
  /\ 0 <= 2 <= Security.MAX_CONNECTIONS_PER_USER.
Proof.
  split; [reflexivity|].
  refine (proj1 (user_counts_stay_in_range Scenario.world 1 _) 1 2 _);
    [|reflexivity].
  intros u c H. unfold Scenario.world in H. cbn [userConnections] in H.
  unfold Security.MAX_CONNECTIONS_PER_USER.
  destruct (decide (u = 1)) as [->|?];
    [rewrite lookup_insert_eq in H; injection H as <-; lia|].
  rewrite lookup_insert_ne in H by congruence.
  destruct (decide (u = 2)) as [->|?];
    [rewrite lookup_insert_eq in H; injection H as <-; lia|].
  rewrite lookup_insert_ne in H by congruence.
  destruct (decide (u = 3)) as [->|?];
    [rewrite lookup_insert_eq in H; injection H as <-; lia|].
  rewrite lookup_insert_ne in H by congruence.
  rewrite lookup_empty in H. discriminate H.
Defined.

(** X10: taking a slot and giving it back restores the count: when the
    count of a user is at least zero and below the ceiling,
    [checkUserConnectionLimit] admits the connection and a following
    [removeUserConnection] leaves the count read for that user as it was
    before, and the counts of all other users untouched. *)
Theorem slot_taken_and_returned (w : World) (uid : Z) :
  0 <= count_of w uid < Security.MAX_CONNECTIONS_PER_USER ->
  let taken := run (Counters.checkUserConnectionLimit uid) w in
  let returned := run (Counters.removeUserConnection uid) taken in
  result (Counters.checkUserConnectionLimit uid) w = Ok true
  /\ count_of taken uid = count_of w uid + 1
  /\ count_of returned uid = count_of w uid
  /\ (forall u, u <> uid ->
                userConnections returned !! u = userConnections w !! u).
Proof.
  unfold Security.MAX_CONNECTIONS_PER_USER, count_of. intros [H0 H3].
  unfold run, result, Counters.checkUserConnectionLimit,
    Counters.removeUserConnection, Security.MAX_CONNECTIONS_PER_USER.
  set (c := default 0 (userConnections w !! uid)) in *.
  rewrite (proj2 (Z.leb_gt _ _) H3).
  cbn [fst snd userConnections set_userConnections].
  rewrite !lookup_insert_eq.
  change (default 0 (Some (c + 1))) with (c + 1).
  change (default 0 (Some (Z.max 0 ((if c + 1 =? 0 then 1 else c + 1) - 1))))
    with (Z.max 0 ((if c + 1 =? 0 then 1 else c + 1) - 1)).
  rewrite (proj2 (Z.eqb_neq _ 0)) by lia.
  split; [reflexivity|]. split; [reflexivity|]. split; [lia|].
  intros u Hne. now rewrite !lookup_insert_ne by congruence.
Qed.

(** Bob, with one connection counted, takes a second slot and returns
    it. *)
Lemma slot_taken_and_returned_witness :
  count_of (run (Counters.removeUserConnection 2)
                (run (Counters.checkUserConnectionLimit 2) Scenario.world)) 2
  = count_of Scenario.world 2.
Proof.
  refine (proj1 (proj2 (proj2 (slot_taken_and_returned Scenario.world 2 _)))).
  vm_compute. split; [discriminate | reflexivity].
Defined.

(** ** The hourly sweep *)

Section SweepFacts.

Lemma filter_absorbs {A} (p q : A -> bool) (l : list A) :
  (forall x, p x = true -> q x = true) ->
  List.filter p (List.filter q l) = List.filter p l.
Proof.
  intros Hpq. induction l as [|x l IH]; [reflexivity|].
  cbn [List.filter]. destruct (q x) eqn:Eq; cbn [List.filter].
  - now rewrite IH.
  - destruct (p x) eqn:Ep; [|exact IH].
    rewrite (Hpq x Ep) in Eq. discriminate Eq.
Qed.

(** What a limiter reads from a swept map of timestamp lists. *)
Lemma sweepWindows_read (oneHourAgo : Z) (m : gmap jsstring (list Z)) key :
  default [] (Sweep.sweepWindows oneHourAgo m !! key)
  = List.filter (fun time => oneHourAgo <? time) (default [] (m !! key)).
Proof.
  unfold Sweep.sweepWindows. rewrite lookup_omap.
  destruct (m !! key) as [times|]; [|reflexivity]. cbn.
  now destruct (List.filter _ times).
Qed.

Lemma sweepWindows_stored (oneHourAgo : Z) (m : gmap jsstring (list Z)) key l :
  Sweep.sweepWindows oneHourAgo m !! key = Some l ->
  l <> [] /\ Forall (fun t => oneHourAgo < t) l.
Proof.
  unfold Sweep.sweepWindows. rewrite lookup_omap.
  destruct (m !! key) as [times|]; [|discriminate]. cbn [mbind option_bind].
  destruct (List.filter _ times) as [|t ts] eqn:E; [discriminate|].
  intros [= <-]. split; [discriminate|].
  rewrite <- E. apply List.Forall_forall. intros x Hx.
  apply filter_In in Hx as [_ Hx]. now apply Z.ltb_lt.
Qed.

(** A stored zero and an absent count read alike, for both readers. *)
Lemma sweepCounts_read (m : gmap Z Z) (u : Z) :
  default 0 (Sweep.sweepCounts m !! u) = default 0 (m !! u).
Proof.
  unfold Sweep.sweepCounts. rewrite lookup_omap.
  destruct (m !! u) as [c|]; [|reflexivity]. cbn.
  destruct (c =? 0) eqn:E; [|reflexivity].
  apply Z.eqb_eq in E. now subst c.
Qed.

Lemma sweepCounts_read_or_one (m : gmap Z Z) (u : Z) :
  match Sweep.sweepCounts m !! u with
  | Some n => if n =? 0 then 1 else n
  | None => 1
  end
  = match m !! u with
    | Some n => if n =? 0 then 1 else n
    | None => 1
    end.
Proof.
  unfold Sweep.sweepCounts. rewrite lookup_omap.
  destruct (m !! u) as [c|]; [|reflexivity]. cbn.
  destruct (c =? 0) eqn:E; [reflexivity|]. cbn. now rewrite E.
Qed.

Lemma getMessageRateWindow_range (type : jsstring) :
  0 < Security.getMessageRateWindow type <= 60000.
Proof.
  unfold Security.getMessageRateWindow.
  repeat (destruct (jsstring_eqb _ _); [lia|]). lia.
Qed.

End SweepFacts.

(** X11: what the hourly sweep leaves behind: no IP and no rate key is
    left with an empty record, every timestamp that is kept is less than
    an hour old, no user is left with a count of zero; and what the
    limiters read afterwards is what they read before, restricted to the
    last hour. *)
Theorem sweep_leaves_no_stale_records (w : World) (now : Z) :
  let w' := run (Sweep.cleanupRateLimits now) w in
  (forall key l,
      connectionAttempts w' !! key = Some l \/ messageRates w' !! key = Some l ->
      l <> [] /\ Forall (fun t => now - 3600000 < t) l)
  /\ (forall u, userConnections w' !! u <> Some 0)
  /\ (forall ip, attempts_of w' ip
                 = List.filter (fun t => now - 3600000 <? t) (attempts_of w ip))
  /\ (forall ip type,
         messages_of w' ip type
         = List.filter (fun t => now - 3600000 <? t) (messages_of w ip type))
  /\ (forall u, count_of w' u = count_of w u).
Proof.
  unfold run, Sweep.cleanupRateLimits, modify, attempts_of, messages_of,
    count_of.
  cbn [snd connectionAttempts messageRates userConnections
       set_userConnections set_messageRates set_connectionAttempts].
  change (60 * 60 * 1000) with 3600000.
  split; [|split; [|split; [|split]]].
  - intros key l [H|H]; exact (sweepWindows_stored _ _ _ _ H).
  - intros u. unfold Sweep.sweepCounts. rewrite lookup_omap.
    destruct (userConnections w !! u) as [c|]; [|discriminate].
    cbn [mbind option_bind]. destruct (c =? 0) eqn:E; [discriminate|].
    intros [= ->]. discriminate E.
  - intros ip. apply sweepWindows_read.
  - intros ip type. apply sweepWindows_read.
  - intros u. unfold Sweep.sweepCounts. rewrite lookup_omap.
    destruct (userConnections w !! u) as [c|]; [|reflexivity].
    cbn [mbind option_bind]. destruct (c =? 0) eqn:E; [|reflexivity].
    apply Z.eqb_eq in E. now subst c.
Qed.

(** X12: the sweep is invisible to the limiters: at any time from the
    sweep on, each of the three checks answers as if the sweep had not
    run, and a removal of a user connection leaves the same count. *)
Theorem sweep_never_changes_a_verdict
        (w : World) (now now' : Z) (ip type : jsstring) (uid : Z) :
  now <= now' ->
  let swept := run (Sweep.cleanupRateLimits now) w in
  result (Counters.checkConnectionLimit ip now') swept
  = result (Counters.checkConnectionLimit ip now') w
  /\ result (Counters.checkMessageRateLimit ip type now') swept
     = result (Counters.checkMessageRateLimit ip type now') w
  /\ result (Counters.checkUserConnectionLimit uid) swept
     = result (Counters.checkUserConnectionLimit uid) w
  /\ count_of (run (Counters.removeUserConnection uid) swept) uid
     = count_of (run (Counters.removeUserConnection uid) w) uid.
Proof.
  intros Hle swept. unfold swept, run, result, Sweep.cleanupRateLimits, modify.
  cbn [snd]. change (60 * 60 * 1000) with 3600000.
  split; [|split; [|split]].
  - unfold Counters.checkConnectionLimit.
    cbn [connectionAttempts set_userConnections set_messageRates
         set_connectionAttempts].
    rewrite sweepWindows_read, filter_absorbs
      by (intros x Hx; apply Z.ltb_lt in Hx; apply Z.ltb_lt; lia).
    now destruct (Nat.leb _ _).
  - unfold Counters.checkMessageRateLimit.
    cbn [messageRates set_userConnections set_messageRates
         set_connectionAttempts].
    pose proof (getMessageRateWindow_range type) as Hwin.
    rewrite sweepWindows_read, filter_absorbs
      by (intros x Hx; apply Z.ltb_lt in Hx; apply Z.ltb_lt; lia).
    now destruct (Nat.leb _ _).
  - unfold Counters.checkUserConnectionLimit.
    cbn [userConnections set_userConnections].
    rewrite sweepCounts_read. now destruct (_ <=? _).
  - unfold Counters.removeUserConnection, count_of.
    cbn [snd userConnections set_userConnections].
    rewrite sweepCounts_read_or_one. now rewrite !lookup_insert_eq.
Qed.

(** A sweep at the start of the second hour, between the tenth and the
    eleventh attempt of a minute. *)
Lemma sweep_never_changes_a_verdict_witness :
  let busy := run (each (List.map (fun i => 3600000 + 1000 * Z.of_nat i)
                                  (List.seq 1 10))
                        (Counters.checkConnectionLimit (u16 "10.0.0.1")))
                  Scenario.fresh in
  result (Counters.checkConnectionLimit (u16 "10.0.0.1") 3620000)
         (run (Sweep.cleanupRateLimits 3615000) busy)
  = Ok false.
Proof.
  intros busy.
  rewrite (proj1 (sweep_never_changes_a_verdict
                    busy 3615000 3620000 (u16 "10.0.0.1")
                    (u16 "ping") 1 ltac:(lia))).
  reflexivity.
Defined.

(** ** What the handlers leave alone *)

Section Frame.

Context {R : World -> World -> Prop}.
Hypothesis F : frame R.

Lemma preserves_ret {A} (a : A) : preserves R (ret a).
Proof. intros w. apply (frame_refl F). Qed.

Lemma preserves_throw {A} e : preserves R (@throw A e).
Proof. intros w. apply (frame_refl F). Qed.

Lemma preserves_gets {A} (f : World -> A) : preserves R (gets f).
Proof. intros w. apply (frame_refl F). Qed.

Lemma preserves_bind {A B} (m : M A) (k : A -> M B) :
  preserves R m -> (forall a, preserves R (k a)) -> preserves R (bind m k).
Proof.
  intros Hm Hk w. unfold run, bind. specialize (Hm w). unfold run in Hm.
  destruct (m w) as [[a|e] w1]; cbn [snd] in *.
  - exact ((frame_trans F) _ _ _ Hm (Hk a w1)).
  - exact Hm.
Qed.

Lemma preserves_tryCatch {A} (m : M A) (h : string -> M A) :
  preserves R m -> (forall e, preserves R (h e)) -> preserves R (tryCatch m h).
Proof.
  intros Hm Hh w. unfold run, tryCatch. specialize (Hm w). unfold run in Hm.
  destruct (m w) as [[a|e] w1]; cbn [snd] in *.
  - exact Hm.
  - exact ((frame_trans F) _ _ _ Hm (Hh e w1)).
Qed.

Lemma preserves_forEach {A} (xs : list A) (body : A -> M unit) :
  (forall x, preserves R (body x)) -> preserves R (forEach xs body).
Proof.
  intros Hb. induction xs as [|x xs IH]; cbn [forEach].
  - apply preserves_ret.
  - apply preserves_bind; [apply Hb | intros _; exact IH].
Qed.

Lemma preserves_modify (f : World -> World) :
  (forall w, R w (f w)) -> preserves R (modify f).
Proof. intros Hf w. apply Hf. Qed.

Lemma preserves_log text : preserves R (log text).
Proof. intros w. apply (frame_trace F). Qed.

Lemma preserves_ws_send c m : preserves R (ws_send c m).
Proof.
  intros w. unfold run, ws_send.
  destruct (sockets w !! c) as [s|]; [destruct (throws s)|]; cbn [snd];
    first [apply (frame_trace F) | apply (frame_refl F)].
Qed.

Lemma preserves_ws_close c code reason : preserves R (ws_close c code reason).
Proof.
  intros w. unfold run, ws_close.
  destruct (sockets w !! c) as [s|] eqn:Hs; [destruct (throws s)|]; cbn [snd];
    try apply (frame_refl F).
  eapply (frame_trans F); [apply ((frame_close F) w c s Hs)|].
  exact ((frame_trace F) (set_sockets _ w) _).
Qed.

(** A statement first consumes one entry of the schedule of failures and
    then, if it runs, has its own effect on the store. *)
Lemma preserves_db_query {A} (q : Db.t -> option A * Db.t) :
  (forall w, R w (set_db (snd (q (db w))) w)) -> preserves R (db_query q).
Proof.
  intros Hq w. unfold run, db_query.
  pose proof ((frame_fault F) w) as Hf.
  destruct (Db.next_fault (db w)) as [[] d]; cbn [snd] in *; [exact Hf|].
  specialize (Hq (set_db d w)). cbn [db set_db] in Hq.
  destruct (q d) as [[a|] d']; cbn [snd] in *;
    exact ((frame_trans F) _ _ _ Hf Hq).
Qed.

Lemma preserves_db_read {A} (q : Db.t -> A) :
  preserves R (db_query (fun d => (Some (q d), d))).
Proof.
  intros w. unfold run, db_query.
  pose proof ((frame_fault F) w) as Hf.
  destruct (Db.next_fault (db w)) as [[] d]; cbn [snd] in *; exact Hf.
Qed.

Lemma preserves_getWebSocketConnection uid :
  preserves R (Registry.getWebSocketConnection uid).
Proof. apply preserves_gets. Qed.

Lemma preserves_socket_userId c : preserves R (MessageHandler.socket_userId c).
Proof. apply preserves_gets. Qed.

Lemma preserves_socket_field {A} c (f : Socket -> A) dflt :
  preserves R (Server.socket_field c f dflt).
Proof. apply preserves_gets. Qed.

Lemma preserves_int_param v : preserves R (MessageHandler.int_param v).
Proof. destruct v; first [apply preserves_ret | apply preserves_throw]. Qed.

(** The presence fan-out reads the store and sends. *)
Lemma preserves_notify uid status now :
  preserves R (Server.notifyBuddiesStatusChange uid status now).
Proof.
  unfold Server.notifyBuddiesStatusChange.
  apply preserves_tryCatch; [|intros _; apply preserves_log].
  apply preserves_bind; [apply preserves_db_read|]. intros buddies.
  apply preserves_forEach. intros buddy.
  apply preserves_bind; [apply preserves_gets|]. intros [b|];
    (apply preserves_bind; [apply preserves_gets|]); intros [|];
    first [apply preserves_ws_send | apply preserves_ret].
Qed.

(** The typing relay reads the store and sends. *)
Lemma preserves_typing ws message now :
  preserves R (MessageHandler.handleTypingIndicator ws message now).
Proof.
  unfold MessageHandler.handleTypingIndicator.
  apply preserves_tryCatch; [|intros _; apply preserves_log].
  apply preserves_bind; [apply preserves_socket_userId|]. intros sender.
  apply preserves_bind; [apply preserves_int_param|]. intros to.
  apply preserves_bind; [apply preserves_db_read|]. intros areBuddies.
  destruct (Nat.eqb _ 0); [apply preserves_ret|].
  apply preserves_bind; [apply preserves_getWebSocketConnection|].
  intros [r|]; (apply preserves_bind; [apply preserves_gets|]); intros [|];
    first [apply preserves_ws_send | apply preserves_ret].
Qed.

End Frame.

Section FrameInstances.

Lemma frame_same_bookkeeping : frame (same bookkeeping).
Proof.
  split; unfold same; try reflexivity.
  intros w1 w2 w3 H12 H23. now rewrite H23.
Qed.

Lemma frame_same_tables : frame (same tables).
Proof.
  split; unfold same; try reflexivity.
  - intros w1 w2 w3 H12 H23. now rewrite H23.
  - intros w. unfold Db.next_fault. now destruct (Db.faults (db w)).
Qed.

(** What a socket says of itself apart from its state survives every
    call of [close]. *)
Lemma frame_same_socket_view {B} (g : Socket -> B) (c : conn) :
  (forall v s, g (set_readyState v s) = g s) ->
  frame (same (socket_view g c)).
Proof.
  intros Hg. split; unfold same, socket_view; try reflexivity.
  - intros w1 w2 w3 H12 H23. now rewrite H23.
  - intros w c0 s Hs. cbn [sockets set_sockets].
    destruct (decide (c0 = c)) as [->|Hne].
    + rewrite lookup_insert_eq, Hs. cbn.
      destruct (readyState s =? 1); [now rewrite Hg | reflexivity].
    + now rewrite lookup_insert_ne.
Qed.


End FrameInstances.

(** ** Handlers that cannot raise *)

Section Returns.

Lemma pairing {A} (m : M A) (w : World) : m w = (result m w, run m w).
Proof. unfold result, run. now destruct (m w). Qed.

Lemma bind_ok {A B} (m : M A) (k : A -> M B) w a :
  result m w = Ok a -> bind m k w = k a (run m w).
Proof. unfold bind, result, run. destruct (m w) as [[a'|e] w1]; cbn; congruence. Qed.

Lemma bind_throw {A B} (m : M A) (k : A -> M B) w e :
  result m w = Throw e -> bind m k w = (Throw e, run m w).
Proof. unfold bind, result, run. destruct (m w) as [[a'|e'] w1]; cbn; congruence. Qed.

Lemma tryCatch_ok {A} (m : M A) (h : string -> M A) w a :
  result m w = Ok a -> tryCatch m h w = (Ok a, run m w).
Proof.
  unfold tryCatch, result, run. destruct (m w) as [[a'|e] w1]; cbn; congruence.
Qed.

Lemma tryCatch_throw {A} (m : M A) (h : string -> M A) w e :
  result m w = Throw e -> tryCatch m h w = h e (run m w).
Proof.
  unfold tryCatch, result, run. destruct (m w) as [[a'|e'] w1]; cbn; congruence.
Qed.

Lemma returns_ret {A} (a : A) : returns (ret a).
Proof. intros w. now exists a. Qed.

Lemma returns_gets {A} (f : World -> A) : returns (gets f).
Proof. intros w. now exists (f w). Qed.

Lemma returns_modify f : returns (modify f).
Proof. intros w. now exists tt. Qed.

Lemma returns_log text : returns (log text).
Proof. intros w. now exists tt. Qed.

Lemma returns_bind {A B} (m : M A) (k : A -> M B) :
  returns m -> (forall a, returns (k a)) -> returns (bind m k).
Proof.
  intros Hm Hk w. destruct (Hm w) as [a Ha].
  destruct (Hk a (run m w)) as [b Hb]. exists b.
  unfold result. rewrite (bind_ok m k w a Ha). exact Hb.
Qed.

Lemma returns_tryCatch {A} (m : M A) (h : string -> M A) :
  (forall e, returns (h e)) -> returns (tryCatch m h).
Proof.
  intros Hh w. destruct (result m w) as [a|e] eqn:E.
  - exists a. unfold result. now rewrite (tryCatch_ok m h w a E).
  - destruct (Hh e (run m w)) as [b Hb]. exists b.
    unfold result. rewrite (tryCatch_throw m h w e E). exact Hb.
Qed.

Lemma returns_unit (m : M unit) w : returns m -> result m w = Ok tt.
Proof. intros H. destruct (H w) as [[] E]. exact E. Qed.


Lemma returns_typing ws message now :
  returns (MessageHandler.handleTypingIndicator ws message now).
Proof. apply returns_tryCatch. intros _. apply returns_log. Qed.

Lemma returns_disconnect uid : returns (Registry.disconnectUserWebSocket uid).
Proof.
  unfold Registry.disconnectUserWebSocket.
  apply returns_bind; [apply returns_gets|]. intros [c|]; [|apply returns_ret].
  apply returns_bind; [|intros _; apply returns_modify].
  apply returns_tryCatch. intros _. apply returns_log.
Qed.

Lemma returns_register uid ws :
  returns (Registry.registerWebSocketConnection uid ws).
Proof.
  unfold Registry.registerWebSocketConnection.
  apply returns_bind; [apply returns_gets|]. intros existing.
  apply returns_bind.
  - destruct existing; [|apply returns_ret].
    apply returns_tryCatch. intros _. apply returns_log.
  - intros _. apply returns_bind; [apply returns_modify|].
    intros _. apply returns_log.
Qed.

End Returns.

(** ** The close listener *)

Section Deregistration.

Lemma frame_same {B} (f : World -> B) :
  (forall w tr, f (set_trace tr w) = f w) ->
  (forall w m, f (set_sockets m w) = f w) ->
  (forall w d, f (set_db d w) = f w) ->
  frame (same f).
Proof.
  intros Htr Hso Hdb. split; unfold same; auto.
  intros w1 w2 w3 H12 H23. now rewrite H23.
Qed.

Lemma preserves_disconnect {R} (F : frame R) uid :
  (forall w m, R w (set_wsConnections m w)) ->
  preserves R (Registry.disconnectUserWebSocket uid).
Proof.
  intros Hreg. unfold Registry.disconnectUserWebSocket.
  apply (preserves_bind F); [apply (preserves_gets F)|].
  intros [c|]; [|apply (preserves_ret F)].
  apply (preserves_bind F); [|intros _; apply preserves_modify; intros w; apply Hreg].
  apply (preserves_tryCatch F); [|intros _; apply (preserves_log F)].
  apply (preserves_bind F); [apply (preserves_ws_close F)|].
  intros _. apply (preserves_log F).
Qed.

Lemma disconnect_registry uid w :
  wsConnections (run (Registry.disconnectUserWebSocket uid) w)
  = delete uid (wsConnections w).
Proof.
  unfold run, Registry.disconnectUserWebSocket, bind, gets.
  destruct (wsConnections w !! uid) as [c|] eqn:E.
  - unfold tryCatch, ws_close, log, modify.
    destruct (sockets w !! c) as [s|]; [destruct (throws s)|]; reflexivity.
  - cbn [snd ret]. symmetry. now apply delete_id.
Qed.

End Deregistration.

(** X13: the close listener never raises, and when the socket carries a
    user id it leaves neither registry with an entry for that user,
    whatever the store and the other sockets do; the entries of other
    users stay.  It deletes by user id: the entry goes even when it
    names another connection of the user. *)
Theorem close_listener_deregisters
        (w : World) (ws : conn) (s : Socket) (u : Z) (now : Z) :
  sockets w !! ws = Some s ->
  userId s = Some u ->
  u <> 0 ->
  let w' := run (Server.setupCloseHandler ws now) w in
  result (Server.setupCloseHandler ws now) w = Ok tt
  /\ wsConnections w' = delete u (wsConnections w)
  /\ connections w' = delete u (connections w).
Proof.
  intros Hs Hu Hne.
  set (w2 := run (log "WebSocket connection closed for user")
                 (run (Server.update_socket ws (set_readyState 3)) w)).
  set (w3 := set_connections (delete u (connections w2)) w2).
  set (w4 := run (Registry.disconnectUserWebSocket u) w3).
  set (rest :=
         tryCatch
           (db_query (fun d => (Some tt, Db.update_status d "offline" u)) ;;
            Server.notifyBuddiesStatusChange u "offline" now)
           (fun _ => log "Error updating user status on disconnect:")).
  assert (Hrest : returns rest).
  { apply returns_tryCatch. intros _. apply returns_log. }
  assert (Hrun : Server.setupCloseHandler ws now w = (Ok tt, run rest w4)).
  { unfold Server.setupCloseHandler.
    erewrite bind_ok by reflexivity.
    erewrite bind_ok by reflexivity. fold w2.
    rewrite (bind_ok _ _ w2 (Some u)).
    2:{ unfold result, MessageHandler.socket_userId, gets, w2, run, log,
          Server.update_socket, modify.
        cbn [fst snd sockets set_trace set_sockets].
        rewrite lookup_alter_eq, Hs. cbn. now rewrite Hu. }
    unfold Server.truthy_id. rewrite (proj2 (Z.eqb_neq u 0) Hne).
    erewrite bind_ok by reflexivity.
    change (run (modify _) w2) with w3.
    rewrite (bind_ok _ _ w3 tt (returns_unit _ _ (returns_disconnect u))).
    fold w4. fold rest. rewrite (pairing rest w4).
    now rewrite (returns_unit _ _ Hrest). }
  cbv zeta. unfold run at 1 2, result. rewrite Hrun. cbn [fst snd].
  split; [reflexivity|].
  assert (Hbook : bookkeeping (run rest w4) = bookkeeping w4).
  { apply (preserves_tryCatch frame_same_bookkeeping);
      [|intros _; apply (preserves_log frame_same_bookkeeping)].
    apply (preserves_bind frame_same_bookkeeping);
      [|intros _; apply (preserves_notify frame_same_bookkeeping)].
    apply (preserves_db_query frame_same_bookkeeping). reflexivity. }
  unfold bookkeeping in Hbook. injection Hbook as Hws Hco _ _ _.
  rewrite Hws, Hco. split.
  - unfold w4. rewrite disconnect_registry. reflexivity.
  - unfold w4.
    rewrite (preserves_disconnect
               (frame_same connections
                  (fun _ _ => eq_refl) (fun _ _ => eq_refl)
                  (fun _ _ => eq_refl)) u (fun _ _ => eq_refl) w3).
    reflexivity.
Qed.

(** Alice's connection 10 closes. *)
Lemma close_listener_deregisters_witness :
  result (Server.setupCloseHandler 10 5000) Scenario.world = Ok tt
  /\ wsConnections (run (Server.setupCloseHandler 10 5000) Scenario.world)
     = delete 1 (wsConnections Scenario.world)
  /\ connections (run (Server.setupCloseHandler 10 5000) Scenario.world)
     = delete 1 (connections Scenario.world).
Proof.
  apply (close_listener_deregisters
           Scenario.world 10 (Scenario.open_socket 1 false) 1 5000);
    [reflexivity | reflexivity | discriminate].
Defined.

(** ** Authentication of a connection *)

Section Authentication.

Lemma ws_send_healthy c m w :
  socket_view throws c w = Some false ->
  ws_send c m w = (Ok tt, set_trace (trace w ++ [EvSend c m]) w).
Proof.
  unfold socket_view, ws_send. destruct (sockets w !! c) as [s|]; [|discriminate].
  cbn. intros [= ->]. reflexivity.
Qed.

Lemma ws_close_healthy c code reason w :
  socket_view throws c w = Some false ->
  result (ws_close c code reason) w = Ok tt
  /\ trace (run (ws_close c code reason) w)
     = trace w ++ [EvClose c code reason]
  /\ bookkeeping (run (ws_close c code reason) w) = bookkeeping w
  /\ db (run (ws_close c code reason) w) = db w.
Proof.
  unfold socket_view, ws_close, result, run.
  destruct (sockets w !! c) as [s|]; [|discriminate].
  cbn. intros [= ->]. repeat split.
Qed.

Lemma preserves_register {R} (F : frame R) uid ws :
  (forall w m, R w (set_wsConnections m w)) ->
  preserves R (Registry.registerWebSocketConnection uid ws).
Proof.
  intros Hreg. unfold Registry.registerWebSocketConnection.
  apply (preserves_bind F); [apply (preserves_gets F)|]. intros existing.
  apply (preserves_bind F).
  - destruct existing; [|apply (preserves_ret F)].
    apply (preserves_tryCatch F); [apply (preserves_ws_close F)|].
    intros _. apply (preserves_log F).
  - intros _. apply (preserves_bind F);
      [apply preserves_modify; intros w; apply Hreg|].
    intros _. apply (preserves_log F).
Qed.

Lemma register_spec uid ws w :
  wsConnections (run (Registry.registerWebSocketConnection uid ws) w)
  = <[uid := ws]> (wsConnections w)
  /\ trace (run (Registry.registerWebSocketConnection uid ws) w)
     = trace w ++ supersession w uid ++ [EvLog "Registered WebSocket for user"]
  /\ db (run (Registry.registerWebSocketConnection uid ws) w) = db w.
Proof.
  unfold run, Registry.registerWebSocketConnection, supersession, raises,
    bind, gets.
  destruct (wsConnections w !! uid) as [e|].
  - unfold tryCatch, ws_close, log, modify.
    destruct (sockets w !! e) as [se|]; [destruct (throws se)|];
      cbn [snd trace set_trace set_sockets set_wsConnections wsConnections app];
      rewrite <- ?app_assoc; repeat split; reflexivity.
  - cbn. repeat split; reflexivity.
Qed.

(** The views of a socket that [set_readyState] leaves alone. *)
Lemma frame_throws c : frame (same (socket_view throws c)).
Proof. apply frame_same_socket_view. reflexivity. Qed.

Lemma frame_identity c :
  frame (same (socket_view (fun s => (isAuthenticated s, userId s)) c)).
Proof. apply frame_same_socket_view. reflexivity. Qed.


Lemma tables_after_fault w :
  tables (set_db (snd (Db.next_fault (db w))) w) = tables w.
Proof. unfold Db.next_fault. now destruct (Db.faults (db w)). Qed.

Lemma next_fault_at_0 d : fst (Db.next_fault d) = fault_at 0 d.
Proof. unfold Db.next_fault, fault_at. now destruct (Db.faults d). Qed.

Lemma db_query_step {A} (q : Db.t -> option A * Db.t) w :
  db_query q w
  = if fault_at 0 (db w)
    then (Throw "query failed", set_db (snd (Db.next_fault (db w))) w)
    else match q (snd (Db.next_fault (db w))) with
         | (Some a, d') => (Ok a, set_db d' w)
         | (None, d') => (Throw "constraint violated", set_db d' w)
         end.
Proof.
  unfold db_query. rewrite <- next_fault_at_0.
  now destruct (Db.next_fault (db w)) as [[] d].
Qed.

End Authentication.

(** X14: a token that is missing, is not a text, fails verification or
    is not an access token costs the connection: the socket is sent the
    one [auth_error] reply and closed for policy violation; nothing is
    registered or counted, the store is not consulted, and the socket
    stays as unauthenticated as it was. *)
Theorem refused_token_closes_connection
        (jwt_verify : jsstring -> option Server.Decoded)
        (w : World) (ws : conn) (s : Socket) (token : JSVal) (now : Z) :
  sockets w !! ws = Some s ->
  throws s = false ->
  refused_token jwt_verify token ->
  let w' := run (Server.handleAuthentication jwt_verify ws token now) w in
  trace w'
  = trace w ++ [EvLog "WebSocket authentication error:";
                EvSend ws (MsgAuthError "Authentication failed");
                EvClose ws CLOSE_POLICY_VIOLATION "Authentication failed"]
  /\ bookkeeping w' = bookkeeping w
  /\ db w' = db w
  /\ socket_view isAuthenticated ws w' = Some (isAuthenticated s)
  /\ socket_view userId ws w' = Some (userId s).
Proof.
  intros Hs Ht Href.
  assert (Hrun :
    Server.handleAuthentication jwt_verify ws token now w
    = (log "WebSocket authentication error:" ;;
       ws_send ws (MsgAuthError "Authentication failed") ;;
       ws_close ws 1008 "Authentication failed") w).
  { unfold Server.handleAuthentication.
    destruct Href as [token Hfalsy|token Hnot|t Hver|t decoded Hver Hty].
    - rewrite Hfalsy. reflexivity.
    - destruct token as [| |b|n|t|l|props]; try discriminate Hnot;
        try reflexivity.
      + now destruct b.
      + cbn [truthy]. now destruct (n =? 0).
    - destruct (truthy (JStr t)); [|reflexivity].
      cbn [negb]. rewrite Hver. reflexivity.
    - destruct (truthy (JStr t)); [|reflexivity].
      cbn [negb]. rewrite Hver.
      unfold tryCatch, bind at 1, ret at 1. cbv beta iota.
      unfold jsstring_eqb. rewrite bool_decide_eq_false_2 by exact Hty.
      reflexivity. }
  cbv zeta. unfold run. rewrite Hrun.
  unfold bind, log, modify, ws_send, ws_close, socket_view.
  cbn [sockets set_trace]. rewrite Hs, Ht.
  cbn [sockets set_trace set_sockets snd trace db]. rewrite Hs, Ht.
  cbn [snd sockets set_trace set_sockets trace db].
  rewrite lookup_insert_eq, <- !app_assoc.
  repeat split; now destruct (readyState s =? 1).
Qed.

(** A connection that presents a token the verifier does not know. *)
Lemma refused_token_closes_connection_witness :
  trace (run (Server.handleAuthentication Scenario.jwt 40
                (JStr (u16 "forged")) 1000) Scenario.world_with_guest)
  = [] ++ [EvLog "WebSocket authentication error:";
           EvSend 40%nat (MsgAuthError "Authentication failed");
           EvClose 40%nat CLOSE_POLICY_VIOLATION "Authentication failed"].
Proof.
  refine (proj1 (refused_token_closes_connection
                   Scenario.jwt Scenario.world_with_guest 40 _
                   (JStr (u16 "forged")) 1000 eq_refl eq_refl _)).
  apply token_unverified. reflexivity.
Defined.

Section Admission.

Variable jwt_verify : jsstring -> option Server.Decoded.
Variables (w : World) (ws : conn) (t : jsstring)
          (decoded : Server.Decoded) (now : Z).
Hypothesis Htok : t <> [].
Hypothesis Hver : jwt_verify t = Some decoded.
Hypothesis Hty : Server.tok_type decoded = u16 "access".
Hypothesis Hfree :
  count_of w (Server.tok_id decoded) < Security.MAX_CONNECTIONS_PER_USER.

Lemma admission_reaches_status_update :
  Server.handleAuthentication jwt_verify ws (JStr t) now w
  = tryCatch
      (db_query (fun d => (Some tt,
                           Db.update_status d "online" (Server.tok_id decoded))) ;;
       ws_send ws (MsgAuthSuccess (Server.tok_id decoded)
                                  (Server.tok_email decoded)) ;;
       log "WebSocket authenticated for user" ;;
       Server.notifyBuddiesStatusChange (Server.tok_id decoded) "online" now)
      (fun _ => authentication_failed ws)
      (installed w ws (Server.tok_id decoded)).
Proof.
  unfold Server.handleAuthentication, tryCatch.
  assert (Htruthy : truthy (JStr t) = true).
  { destruct t; [contradiction | reflexivity]. }
  rewrite Htruthy, Hver. cbn [negb].
  unfold bind at 1, ret at 1. cbv beta iota. rewrite Hty.
  change (jsstring_eqb (u16 "access") (u16 "access")) with true. cbn [negb].
  erewrite bind_ok.
  2:{ unfold result, Counters.checkUserConnectionLimit.
      fold (count_of w (Server.tok_id decoded)).
      rewrite (proj2 (Z.leb_gt _ _) Hfree). reflexivity. }
  cbn [negb].
  assert (run (Counters.checkUserConnectionLimit (Server.tok_id decoded)) w
          = set_userConnections
              (<[Server.tok_id decoded
                 := count_of w (Server.tok_id decoded) + 1]>
                 (userConnections w)) w) as ->.
  { unfold run, Counters.checkUserConnectionLimit.
    fold (count_of w (Server.tok_id decoded)).
    rewrite (proj2 (Z.leb_gt _ _) Hfree). reflexivity. }
  erewrite bind_ok by reflexivity.
  change (run (Server.update_socket ws _) _)
    with (marked w ws (Server.tok_id decoded)).
  erewrite bind_ok by (apply returns_unit, returns_register).
  erewrite bind_ok by reflexivity.
  reflexivity.
Qed.

End Admission.

Section Installed.

Variables (w : World) (ws : conn) (uid : Z).

Lemma installed_bookkeeping :
  wsConnections (installed w ws uid) = <[uid := ws]> (wsConnections w)
  /\ connections (installed w ws uid) = <[uid := ws]> (connections w)
  /\ userConnections (installed w ws uid)
     = <[uid := count_of w uid + 1]> (userConnections w)
  /\ connectionAttempts (installed w ws uid) = connectionAttempts w
  /\ messageRates (installed w ws uid) = messageRates w.
Proof.
  unfold installed. cbn [wsConnections connections userConnections
                         connectionAttempts messageRates set_connections].
  rewrite (proj1 (register_spec uid ws (marked w ws uid))).
  pose proof (preserves_register
                (frame_same
                   (fun w => (connections w, userConnections w,
                              connectionAttempts w, messageRates w))
                   (fun _ _ => eq_refl) (fun _ _ => eq_refl)
                   (fun _ _ => eq_refl))
                uid ws (fun _ _ => eq_refl) (marked w ws uid)) as H.
  unfold same in H. injection H as -> -> -> ->.
  repeat split.
Qed.

Lemma installed_store : db (installed w ws uid) = db w.
Proof.
  unfold installed. cbn [db set_connections].
  exact (proj2 (proj2 (register_spec uid ws (marked w ws uid)))).
Qed.

Variable s : Socket.
Hypothesis Hs : sockets w !! ws = Some s.

Lemma marked_socket :
  sockets (marked w ws uid) !! ws
  = Some (Server.set_fields (ip s) true (Some uid) (isAlive s) s).
Proof.
  unfold marked. cbn [sockets set_sockets set_userConnections].
  now rewrite lookup_alter_eq, Hs.
Qed.

Lemma installed_socket :
  socket_view throws ws (installed w ws uid) = Some (throws s)
  /\ socket_view (fun s => (isAuthenticated s, userId s)) ws
                 (installed w ws uid)
     = Some (true, Some uid).
Proof.
  assert (Hview : forall {B} (g : Socket -> B),
             socket_view g ws (installed w ws uid)
             = socket_view g ws
                 (run (Registry.registerWebSocketConnection uid ws)
                      (marked w ws uid)))
    by reflexivity.
  rewrite !Hview.
  rewrite (preserves_register (frame_throws ws) uid ws
                              (fun _ _ => eq_refl) (marked w ws uid)).
  rewrite (preserves_register (frame_identity ws) uid ws
                              (fun _ _ => eq_refl) (marked w ws uid)).
  unfold socket_view. rewrite marked_socket. split; reflexivity.
Qed.

Lemma installed_trace :
  trace (installed w ws uid)
  = trace w ++ supersession w uid ++ [EvLog "Registered WebSocket for user"].
Proof.
  unfold installed. cbn [trace set_connections].
  rewrite (proj1 (proj2 (register_spec uid ws (marked w ws uid)))).
  assert (supersession (marked w ws uid) uid = supersession w uid) as ->;
    [|reflexivity].
  unfold supersession, raises, marked.
  cbn [wsConnections sockets set_sockets set_userConnections].
  destruct (wsConnections w !! uid) as [e|]; [|reflexivity].
  destruct (decide (ws = e)) as [<-|Hne].
  - rewrite lookup_alter_eq, Hs. reflexivity.
  - now rewrite lookup_alter_ne.
Qed.

End Installed.



(** X16: a store failure in the middle of an authentication.  When the
    status update is rejected by the store, the connection is sent
    [auth_error] and closed for policy violation, but what was done
    before stays: the slot remains counted, both registries name the
    closing connection for the user (a connection the registry named
    before has been told to close), and the socket remains marked
    authenticated.  The tables of the store are as they were. *)
Theorem status_update_failure_leaves_registration
        (jwt_verify : jsstring -> option Server.Decoded)
        (w : World) (ws : conn) (s : Socket) (t : jsstring)
        (decoded : Server.Decoded) (now : Z) :
  sockets w !! ws = Some s ->
  throws s = false ->
  t <> [] ->
  jwt_verify t = Some decoded ->
  Server.tok_type decoded = u16 "access" ->
  count_of w (Server.tok_id decoded) < Security.MAX_CONNECTIONS_PER_USER ->
  fault_at 0 (db w) = true ->
  let uid := Server.tok_id decoded in
  let w' := run (Server.handleAuthentication jwt_verify ws (JStr t) now) w in
  trace w'
  = trace w ++ supersession w uid
    ++ [EvLog "Registered WebSocket for user";
        EvLog "WebSocket authentication error:";
        EvSend ws (MsgAuthError "Authentication failed");
        EvClose ws CLOSE_POLICY_VIOLATION "Authentication failed"]
  /\ wsConnections w' = <[uid := ws]> (wsConnections w)
  /\ connections w' = <[uid := ws]> (connections w)
  /\ userConnections w' = <[uid := count_of w uid + 1]> (userConnections w)
  /\ socket_view isAuthenticated ws w' = Some true
  /\ socket_view userId ws w' = Some (Some uid)
  /\ tables w' = tables w.
Proof.
  intros Hs Ht Htok Hver Hty Hfree Hfault uid w'.
  set (W := installed w ws uid).
  set (Wf := set_db (snd (Db.next_fault (db W))) W).
  destruct (installed_socket w ws uid s Hs) as [Hthrows Hident].
  rewrite Ht in Hthrows. fold W in Hthrows, Hident.
  assert (Hrun : Server.handleAuthentication jwt_verify ws (JStr t) now w
                 = authentication_failed ws Wf).
  { rewrite (admission_reaches_status_update
               jwt_verify w ws t decoded now Htok Hver Hty Hfree).
    fold uid W. unfold tryCatch.
    erewrite bind_throw.
    2:{ unfold result. rewrite db_query_step.
        unfold W. rewrite installed_store, Hfault. reflexivity. }
    unfold run. rewrite db_query_step.
    unfold W at 1. rewrite installed_store, Hfault. reflexivity. }
  assert (Hfailed :
    authentication_failed ws Wf
    = (Ok tt,
       run (ws_close ws 1008 "Authentication failed")
           (set_trace (trace W ++ [EvLog "WebSocket authentication error:";
                                   EvSend ws (MsgAuthError
                                                "Authentication failed")])
                      Wf))).
  { unfold authentication_failed.
    erewrite bind_ok by reflexivity.
    unfold run at 1, log, modify. cbn [snd].
    erewrite bind_ok
      by (unfold result; rewrite ws_send_healthy by exact Hthrows;
          reflexivity).
    unfold run at 1. rewrite ws_send_healthy by exact Hthrows.
    cbn [snd trace set_trace]. rewrite <- app_assoc. cbn [app].
    change (set_trace ?x (set_trace _ Wf)) with (set_trace x Wf).
    match goal with
    | |- ws_close _ _ _ ?v = _ =>
        rewrite (pairing (ws_close ws 1008 "Authentication failed") v);
        rewrite (proj1 (ws_close_healthy ws 1008 "Authentication failed" v
                                         Hthrows))
    end.
    reflexivity. }
  unfold w', run at 1 2 3 4 5 6 7. rewrite Hrun, Hfailed. cbn [snd].
  match goal with
  | |- context [run ?m ?v] => set (closing := m); set (Wl := v)
  end.
  destruct (ws_close_healthy ws 1008 "Authentication failed" Wl Hthrows)
    as (_ & Htr & Hbook & Hdb).
  fold closing in Htr, Hbook, Hdb.
  pose proof (preserves_ws_close (frame_identity ws) ws 1008
                                 "Authentication failed" Wl) as Hid.
  fold closing in Hid. unfold same in Hid.
  destruct (installed_bookkeeping w ws uid) as (Iws & Ico & Ius & _ & _).
  fold W in Iws, Ico, Ius.
  split.
  { rewrite Htr. unfold Wl. cbn [trace set_trace].
    unfold W. rewrite (installed_trace w ws uid s Hs).
    rewrite <- !app_assoc. reflexivity. }
  assert (Hws : wsConnections (run closing Wl) = wsConnections W)
    by exact (f_equal (fun b => fst (fst (fst (fst b)))) Hbook).
  assert (Hco : connections (run closing Wl) = connections W)
    by exact (f_equal (fun b => snd (fst (fst (fst b)))) Hbook).
  assert (Hus : userConnections (run closing Wl) = userConnections W)
    by exact (f_equal snd Hbook).
  rewrite Hws, Hco, Hus.
  split; [exact Iws|]. split; [exact Ico|]. split; [exact Ius|].
  assert (Hid' : socket_view (fun s => (isAuthenticated s, userId s)) ws
                             (run closing Wl) = Some (true, Some uid)).
  { rewrite Hid. exact Hident. }
  unfold socket_view in Hid' |- *.
  destruct (sockets (run closing Wl) !! ws) as [s'|]; [|discriminate Hid'].
  cbn in Hid' |- *. injection Hid' as -> ->.
  split; [reflexivity|]. split; [reflexivity|].
  unfold tables. rewrite Hdb.
  change (tables (set_db (snd (Db.next_fault (db W))) W) = tables w).
  rewrite tables_after_fault. unfold tables, W. now rewrite installed_store.
Qed.

(** Bob authenticates on connection 40 while the store is down. *)
Lemma status_update_failure_leaves_registration_witness :
  wsConnections
    (run (Server.handleAuthentication Scenario.jwt 40 (JStr (u16 "tok-2")) 1000)
         (set_db (Db.set_faults [true] Scenario.store)
                 Scenario.world_with_guest))
  = <[2 := 40%nat]> (wsConnections Scenario.world_with_guest)
  /\ count_of
       (run (Server.handleAuthentication Scenario.jwt 40 (JStr (u16 "tok-2"))
                                         1000)
            (set_db (Db.set_faults [true] Scenario.store)
                    Scenario.world_with_guest)) 2
     = 2.
Proof.
  destruct (status_update_failure_leaves_registration
              Scenario.jwt
              (set_db (Db.set_faults [true] Scenario.store)
                      Scenario.world_with_guest)
              40 _ (u16 "tok-2") _ 1000
              eq_refl eq_refl ltac:(discriminate) eq_refl eq_refl
              eq_refl eq_refl)
    as (_ & Hws & _ & Hus & _).
  split; [exact Hws|]. unfold count_of at 1. rewrite Hus. reflexivity.
Defined.

(** ** Typing indicators *)

Section Typing.

Import MessageHandler Registry.

Variables (w : World) (ws : conn) (s : Socket) (a : Z) (message : JSVal)
          (to : Z) (now : Z).
Hypothesis Hs : sockets w !! ws = Some s.
Hypothesis Hu : userId s = Some a.
Hypothesis Hto : get_prop message "toUserId" = JNum to.
Hypothesis Hf : fault_at 0 (db w) = false.

(** The handler up to the answer of the buddy query. *)
Lemma typing_reaches_relay :
  handleTypingIndicator ws message now w
  = tryCatch
      (if negb (buddy_edge (db w) a to) then ret tt
       else
         let! recipientWs := getWebSocketConnection to in
         let! recipientOpen := gets (fun w => isOpen w recipientWs) in
         match recipientWs with
         | Some r =>
             if recipientOpen then
               ws_send r (MsgTyping (type_text message) (Some a) now)
             else ret tt
         | None => ret tt
         end)
      (fun _ => log "Typing indicator handling error:")
      (set_db (snd (Db.next_fault (db w))) w).
Proof.
  unfold handleTypingIndicator, tryCatch. rewrite Hto.
  erewrite bind_ok
    by (unfold result, socket_userId, gets; cbn [fst]; rewrite Hs, Hu;
        reflexivity).
  erewrite bind_ok by reflexivity.
  unfold run at 1 2, socket_userId, int_param, gets, ret. cbn [snd].
  unfold bind at 1. rewrite db_query_step, Hf.
  unfold Db.buddy_edge_rows. rewrite filter_empty_existsb.
  assert (Db.buddies (snd (Db.next_fault (db w))) = Db.buddies (db w)) as ->.
  { unfold Db.next_fault. now destruct (Db.faults (db w)). }
  fold (buddy_edge (db w) a to). reflexivity.
Qed.

End Typing.

(** X17: a typing indicator goes to buddies only, and to them whatever
    the blocks say: when the buddy query answers, a sender without a
    buddy edge to the addressed user causes nothing at all, not even an
    error reply; with a buddy edge, an addressed user whose registered
    connection is open is sent the indicator, with the sender's id and
    the type of the message.  No block is consulted. *)
Theorem typing_indicator_goes_to_buddies
        (w : World) (ws : conn) (s : Socket) (a : Z) (message : JSVal)
        (to : Z) (now : Z) :
  sockets w !! ws = Some s ->
  userId s = Some a ->
  get_prop message "toUserId" = JNum to ->
  fault_at 0 (db w) = false ->
  let w' := run (MessageHandler.handleTypingIndicator ws message now) w in
  (buddy_edge (db w) a to = false -> trace w' = trace w)
  /\ (buddy_edge (db w) a to = true ->
      forall r sr,
        wsConnections w !! to = Some r ->
        sockets w !! r = Some sr ->
        readyState sr = 1 ->
        throws sr = false ->
        trace w'
        = trace w ++ [EvSend r (MsgTyping (MessageHandler.type_text message)
                                          (Some a) now)]).
Proof.
  intros Hs Hu Hto Hf w'. unfold w', run.
  rewrite (typing_reaches_relay w ws s a message to now Hs Hu Hto Hf).
  split.
  - intros Hb. rewrite Hb. reflexivity.
  - intros Hb r sr Hr Hsr Hopen Hthrows. rewrite Hb. cbn [negb].
    unfold tryCatch, bind, Registry.getWebSocketConnection, gets, isOpen,
      ws_send.
    cbn [wsConnections sockets set_db]. rewrite Hr.
    cbn [wsConnections sockets set_db]. rewrite Hsr, Hopen.
    cbn [wsConnections sockets set_db Z.eqb Pos.eqb]. rewrite Hsr, Hthrows.
    reflexivity.
Qed.

(** Alice types to Carol, who has blocked her. *)
Lemma typing_indicator_goes_to_buddies_witness :
  has_blocked Scenario.store 3 1 = true
  /\ trace (run (MessageHandler.handleTypingIndicator 10
                   (Cases.typing_start 3) 77) Scenario.world)
     = [] ++ [EvSend 30%nat (MsgTyping (u16 "typing_start") (Some 1) 77)].
Proof.
  split; [reflexivity|].
  refine (proj2 (typing_indicator_goes_to_buddies
                   Scenario.world 10 _ 1
                   (Cases.typing_start 3)
                   3 77 eq_refl eq_refl eq_refl eq_refl)
                eq_refl 30%nat _ eq_refl eq_refl eq_refl eq_refl).
Defined.

(** X18: the typing relay is silent and harmless: whatever the message,
    the store and the sockets, it never raises, never answers the
    sender with an error, changes no table of the store and nothing in
    the registries and limiters, and has at most one effect: either the
    indicator sent to the connection registered for the addressed user,
    or one console line about a failure. *)
Theorem typing_indicator_is_silent
        (w : World) (ws : conn) (message : JSVal) (now : Z) :
  let w' := run (MessageHandler.handleTypingIndicator ws message now) w in
  result (MessageHandler.handleTypingIndicator ws message now) w = Ok tt
  /\ tables w' = tables w
  /\ bookkeeping w' = bookkeeping w
  /\ sockets w' = sockets w
  /\ (trace w' = trace w
      \/ trace w' = trace w ++ [EvLog "Typing indicator handling error:"]
      \/ exists to r sender,
          get_prop message "toUserId" = JNum to
          /\ wsConnections w !! to = Some r
          /\ trace w'
             = trace w ++ [EvSend r (MsgTyping
                                       (MessageHandler.type_text message)
                                       sender now)]).
Proof.
  cbv zeta.
  split; [apply returns_unit, returns_typing|].
  split; [apply (preserves_typing frame_same_tables)|].
  split; [apply (preserves_typing frame_same_bookkeeping)|].
  unfold run, MessageHandler.handleTypingIndicator, tryCatch, bind,
    MessageHandler.socket_userId, MessageHandler.int_param,
    Registry.getWebSocketConnection, gets, ret, throw, log, modify.
  assert (Hlog : forall v : World,
             sockets v = sockets w -> trace v = trace w ->
             sockets (set_trace (trace v
                                 ++ [EvLog "Typing indicator handling error:"])
                                v) = sockets w
             /\ (trace (set_trace
                          (trace v
                           ++ [EvLog "Typing indicator handling error:"]) v)
                 = trace w
                 \/ trace (set_trace
                             (trace v
                              ++ [EvLog "Typing indicator handling error:"])
                             v)
                    = trace w ++ [EvLog "Typing indicator handling error:"]
                 \/ exists to r sender,
                     get_prop message "toUserId" = JNum to
                     /\ wsConnections w !! to = Some r
                     /\ trace (set_trace
                                 (trace v
                                  ++ [EvLog "Typing indicator handling error:"])
                                 v)
                        = trace w
                          ++ [EvSend r (MsgTyping
                                          (MessageHandler.type_text message)
                                          sender now)])).
  { intros v Hso Htr. cbn [sockets trace set_trace]. rewrite Htr. auto. }
  destruct (get_prop message "toUserId") as [| |b|n|t|l|props] eqn:Hto;
    try (apply Hlog; reflexivity).
  rewrite db_query_step.
  destruct (fault_at 0 (db w)); [apply Hlog; reflexivity|].
  destruct (Nat.eqb _ 0); [cbn; auto|].
  cbn [wsConnections set_db].
  destruct (wsConnections w !! n) as [r|] eqn:Hr; [|cbn; auto].
  unfold isOpen, ws_send. cbn [sockets set_db].
  destruct (sockets w !! r) as [sr|] eqn:Hsr; [|cbn; auto].
  destruct (readyState sr =? 1); [|cbn; auto].
  cbn [sockets set_db]. rewrite Hsr.
  destruct (throws sr); [apply Hlog; reflexivity|].
  cbn [snd sockets trace set_trace set_db].
  split; [reflexivity|]. right. right. eexists n, r, _.
  split; [reflexivity|]. split; [exact Hr | reflexivity].
Qed.

(** ** Delivery of a stored message *)

Section Delivery.

Import Security Registry MessageHandler.

Variables (w : World) (ws : conn) (s : Socket) (a : Z) (message : JSVal)
          (to : Z) (body : jsstring) (now : Z).
Hypothesis Hs : sockets w !! ws = Some s.
Hypothesis Ht : throws s = false.
Hypothesis Hu : userId s = Some a.
Hypothesis Hf : Db.faults (db w) = [].
Hypothesis Hto : get_prop message "toUserId" = JNum to.
Hypothesis Hbody : get_prop message "message" = JStr body.
Hypothesis Hvalid : validateMessageContent (JStr body) = true.
Hypothesis Hb : buddy_edge (db w) a to = true.
Hypothesis Hk : has_blocked (db w) to a = false.
Hypothesis Hacc :
  Db.messages_accepts (db w) (Some a) to (sanitizeMessageContent (JStr body))
  = true.

Let text := sanitizeMessageContent (JStr body).
Let id := Db.messages_id_seq (db w) + 1.

(** What follows the confirmation, by the state of the connection that
    the registry names for the recipient. *)
Lemma pm_delivery :
  trace (run (handlePrivateMessage ws message now) w)
  = trace w
    ++ EvSend ws (MsgPrivate (Some a) text id now Outgoing)
       :: match wsConnections w !! to with
          | Some r =>
              if isOpen w (Some r) then
                if raises (sockets w) r
                then [EvLog "Private message handling error:";
                      EvSend ws (MsgError "Failed to send message")]
                else [EvSend r (MsgPrivate (Some a) text id now Incoming);
                      EvLog "Message sent"]
              else [EvLog "Message sent"]
          | None => [EvLog "Message sent"]
          end.
Proof.
  unfold run, handlePrivateMessage.
  rewrite Hto, Hbody, Hvalid. cbn [negb].
  unfold socket_userId, int_param, getWebSocketConnection,
    tryCatch, bind, gets, ret.
  rewrite Hs, Hu.
  rewrite db_query_ok by assumption. unfold Db.buddy_edge_rows.
  rewrite filter_empty_existsb. fold (buddy_edge (db w) a to).
  rewrite Hb. cbn [negb].
  rewrite db_query_ok by (cbn; assumption).
  cbn [db set_db]. unfold Db.block_rows.
  rewrite filter_nonempty_existsb. fold (has_blocked (db w) to a).
  rewrite Hk.
  rewrite db_query_ok by (cbn; assumption).
  cbn [db set_db]. unfold Db.insert_message. rewrite Hacc. fold text id.
  erewrite ws_send_ok by (cbn; eassumption).
  cbn [fst snd wsConnections set_trace set_db isOpen sockets trace].
  unfold log, modify, raises.
  destruct (wsConnections w !! to) as [r|]; cbn [isOpen].
  - destruct (sockets w !! r) as [sr|] eqn:Hr;
      cbn [sockets set_trace set_db]; rewrite ?Hr.
    + destruct (readyState sr =? 1).
      * unfold ws_send. cbn [sockets set_trace set_db]. rewrite Hr.
        destruct (throws sr); cbn [sockets set_trace set_db trace db];
          rewrite ?Hs, ?Ht; cbn; rewrite <- ?app_assoc; reflexivity.
      * cbn. rewrite <- app_assoc. reflexivity.
    + cbn. rewrite <- app_assoc. reflexivity.
  - cbn. rewrite <- app_assoc. reflexivity.
Qed.

End Delivery.

(** X19: what the recipient gets is what was stored.  When a valid
    message between buddies without a block is accepted by the store
    (no failure, the insert passes), the sender is sent the confirmation
    carrying the new row's id and timestamp; a recipient whose
    registered connection is open is then sent the same text, id and
    timestamp as an incoming message; a recipient with no connection, or
    one that is not open, is sent nothing, and the sender is not told:
    the message stays in the store. *)
Theorem stored_message_pushed_to_open_recipient
        (w : World) (ws : conn) (s : Socket) (a : Z) (message : JSVal)
        (to : Z) (body : jsstring) (now : Z) :
  sockets w !! ws = Some s ->
  throws s = false ->
  userId s = Some a ->
  Db.faults (db w) = [] ->
  get_prop message "toUserId" = JNum to ->
  get_prop message "message" = JStr body ->
  Security.validateMessageContent (JStr body) = true ->
  buddy_edge (db w) a to = true ->
  has_blocked (db w) to a = false ->
  Db.messages_accepts (db w) (Some a) to
    (Security.sanitizeMessageContent (JStr body)) = true ->
  let w' := run (MessageHandler.handlePrivateMessage ws message now) w in
  let text := Security.sanitizeMessageContent (JStr body) in
  let id := Db.messages_id_seq (db w) + 1 in
  (forall r,
      wsConnections w !! to = Some r ->
      isOpen w (Some r) = true ->
      raises (sockets w) r = false ->
      trace w'
      = trace w ++ [EvSend ws (MsgPrivate (Some a) text id now Outgoing);
                    EvSend r (MsgPrivate (Some a) text id now Incoming);
                    EvLog "Message sent"])
  /\ (isOpen w (wsConnections w !! to) = false ->
      trace w'
      = trace w ++ [EvSend ws (MsgPrivate (Some a) text id now Outgoing);
                    EvLog "Message sent"])
  /\ Db.messages (db w')
     = Db.messages (db w)
       ++ [{| Db.msg_id := id; Db.from_user_id := Some a; Db.to_user_id := to;
              Db.msg_body := text; Db.msg_read := false;
              Db.created_at := now |}].
Proof.
  intros Hs Ht Hu Hf Hto Hbody Hvalid Hb Hk Hacc w' text id.
  pose proof (pm_delivery w ws s a message to body now
                Hs Ht Hu Hf Hto Hbody Hvalid Hb Hk Hacc) as Htr.
  fold w' text id in Htr.
  split; [|split].
  - intros r Hr Hopen Hraises. rewrite Htr, Hr, Hopen, Hraises. reflexivity.
  - intros Hclosed. rewrite Htr.
    destruct (wsConnections w !! to) as [r|]; [|reflexivity].
    now rewrite Hclosed.
  - exact (proj1 (pm_stored w ws s a message to body now
                    Hs Ht Hu Hf Hto Hbody Hvalid Hb Hk Hacc)).
Qed.

(** Alice writes to Bob, who is connected. *)
Lemma stored_message_pushed_to_open_recipient_witness :
  trace (run (MessageHandler.handlePrivateMessage 10
                (private_message 2 (u16 "hello")) 77) Scenario.world)
  = [] ++ [EvSend 10%nat (MsgPrivate (Some 1) (u16 "hello") 1 77 Outgoing);
           EvSend 20%nat (MsgPrivate (Some 1) (u16 "hello") 1 77 Incoming);
           EvLog "Message sent"].
Proof.
  exact (proj1 (stored_message_pushed_to_open_recipient
                  Scenario.world 10 (Scenario.open_socket 1 false) 1
                  (private_message 2 (u16 "hello")) 2 (u16 "hello") 77
                  eq_refl eq_refl eq_refl eq_refl eq_refl eq_refl eq_refl
                  eq_refl eq_refl eq_refl)
               20%nat eq_refl eq_refl eq_refl).
Defined.

(** X20: a recipient that cannot be written to makes the sender believe
    the message failed.  When the message has been stored and confirmed
    and the [send] on the recipient's open connection raises, the sender
    is sent, after the confirmation, the reply that the message failed
    to send; the row stays in the store. *)
Theorem recipient_failure_reported_to_sender
        (w : World) (ws : conn) (s : Socket) (a : Z) (message : JSVal)
        (to : Z) (body : jsstring) (now : Z) (r : conn) :
  sockets w !! ws = Some s ->
  throws s = false ->
  userId s = Some a ->
  Db.faults (db w) = [] ->
  get_prop message "toUserId" = JNum to ->
  get_prop message "message" = JStr body ->
  Security.validateMessageContent (JStr body) = true ->
  buddy_edge (db w) a to = true ->
  has_blocked (db w) to a = false ->
  Db.messages_accepts (db w) (Some a) to
    (Security.sanitizeMessageContent (JStr body)) = true ->
  wsConnections w !! to = Some r ->
  isOpen w (Some r) = true ->
  raises (sockets w) r = true ->
  let w' := run (MessageHandler.handlePrivateMessage ws message now) w in
  let text := Security.sanitizeMessageContent (JStr body) in
  let id := Db.messages_id_seq (db w) + 1 in
  trace w'
  = trace w ++ [EvSend ws (MsgPrivate (Some a) text id now Outgoing);
                EvLog "Private message handling error:";
                EvSend ws (MsgError "Failed to send message")]
  /\ Db.messages (db w')
     = Db.messages (db w)
       ++ [{| Db.msg_id := id; Db.from_user_id := Some a; Db.to_user_id := to;
              Db.msg_body := text; Db.msg_read := false;
              Db.created_at := now |}].
Proof.
  intros Hs Ht Hu Hf Hto Hbody Hvalid Hb Hk Hacc Hr Hopen Hraises w' text id.
  pose proof (pm_delivery w ws s a message to body now
                Hs Ht Hu Hf Hto Hbody Hvalid Hb Hk Hacc) as Htr.
  fold w' text id in Htr.
  split.
  - rewrite Htr, Hr, Hopen, Hraises. reflexivity.
  - exact (proj1 (pm_stored w ws s a message to body now
                    Hs Ht Hu Hf Hto Hbody Hvalid Hb Hk Hacc)).
Qed.

(** Alice writes to Bob, whose socket raises. *)
Lemma recipient_failure_reported_to_sender_witness :
  trace (run (MessageHandler.handlePrivateMessage 10
                (private_message 2 (u16 "hello")) 77)
             Scenario.world_bob_faulty)
  = [] ++ [EvSend 10%nat (MsgPrivate (Some 1) (u16 "hello") 1 77 Outgoing);
           EvLog "Private message handling error:";
           EvSend 10%nat (MsgError "Failed to send message")]
  /\ List.length
       (Db.messages
          (db (run (MessageHandler.handlePrivateMessage 10
                      (private_message 2 (u16 "hello")) 77)
                   Scenario.world_bob_faulty))) = 1%nat.
Proof.
  destruct (recipient_failure_reported_to_sender
              Scenario.world_bob_faulty 10 (Scenario.open_socket 1 false) 1
              (private_message 2 (u16 "hello")) 2 (u16 "hello") 77 20%nat
              eq_refl eq_refl eq_refl eq_refl eq_refl eq_refl eq_refl
              eq_refl eq_refl eq_refl eq_refl eq_refl eq_refl)
    as [Htr Hm].
  split; [exact Htr|]. rewrite Hm. reflexivity.
Defined.

(** ** Content that is turned down *)

Section Refusal.

Lemma dangerous_in_context (s pre post : jsstring) :
  dangerous s = true -> dangerous (pre ++ s ++ post) = true.
Proof.
  unfold dangerous. intros H.
  apply existsb_exists in H as (p & Hp & Hm).
  apply existsb_exists. exists p. split; [exact Hp|].
  apply test_app_l, test_app_r, Hm.
Qed.

Lemma dangerous_invalid (s : jsstring) :
  dangerous s = true -> Security.validateMessageContent (JStr s) = false.
Proof.
  unfold dangerous. cbn [Security.validateMessageContent]. now intros ->.
Qed.

Lemma invalid_content_reply w ws message now :
  Security.validateMessageContent (get_prop message "message") = false ->
  MessageHandler.handlePrivateMessage ws message now w
  = tryCatch (ws_send ws (MsgError "Message contains invalid content"))
             (fun _ =>
                log "Private message handling error:" ;;
                ws_send ws (MsgError "Failed to send message")) w.
Proof.
  intros H. unfold MessageHandler.handlePrivateMessage. now rewrite H.
Qed.

End Refusal.

(** X21: a message with a dangerous fragment anywhere in its body never
    reaches the store: whatever the world, the handler issues no
    statement at all (the store and its schedule of failures are as
    before), registers and counts nothing, and on a socket that accepts
    the reply the sender gets the one invalid-content reply. *)
Theorem dangerous_message_never_reaches_store
        (w : World) (ws : conn) (message : JSVal)
        (pre fragment post : jsstring) (now : Z) :
  get_prop message "message" = JStr (pre ++ fragment ++ post) ->
  dangerous fragment = true ->
  let w' := run (MessageHandler.handlePrivateMessage ws message now) w in
  db w' = db w
  /\ bookkeeping w' = bookkeeping w
  /\ sockets w' = sockets w
  /\ (raises (sockets w) ws = false ->
      trace w'
      = trace w ++ [EvSend ws (MsgError "Message contains invalid content")]).
Proof.
  intros Hbody Hd w'. unfold w', run.
  rewrite invalid_content_reply
    by (rewrite Hbody; apply dangerous_invalid, dangerous_in_context, Hd).
  unfold tryCatch, bind, log, modify, ws_send, raises.
  cbn [sockets set_trace].
  destruct (sockets w !! ws) as [s|] eqn:Hs; cbn [sockets set_trace snd];
    rewrite ?Hs.
  - destruct (throws s) eqn:Et; cbn [snd db sockets set_trace trace];
      rewrite ?Hs, ?Et; cbn [snd db sockets set_trace trace];
      repeat split; try reflexivity; intros H; discriminate H.
  - cbn. repeat split; discriminate.
Qed.

(** Alice sends Bob a script element wrapped in a sentence. *)
Lemma dangerous_message_never_reaches_store_witness :
  db (run (MessageHandler.handlePrivateMessage 10
             (private_message 2 (u16 "look: " ++ u16 "<script" ++ u16 ">"))
             77) Scenario.world)
  = db Scenario.world.
Proof.
  exact (proj1 (dangerous_message_never_reaches_store
                  Scenario.world 10
                  (private_message 2 (u16 "look: " ++ u16 "<script" ++ u16 ">"))
                  (u16 "look: ") (u16 "<script") (u16 ">") 77
                  eq_refl eq_refl)).
Defined.

(** ** The message listener *)

Section Listener.

Context {R : World -> World -> Prop}.
Hypothesis H : handler_frame R.
Variable JSON_parse : list Byte.byte -> option JSVal.
Variable jwt_verify : jsstring -> option Server.Decoded.

Let F := handler_base H.

Lemma preserves_private ws message now :
  preserves R (MessageHandler.handlePrivateMessage ws message now).
Proof.
  unfold MessageHandler.handlePrivateMessage.
  apply (preserves_tryCatch F).
  2:{ intros _. apply (preserves_bind F); [apply (preserves_log F)|].
      intros _. apply (preserves_ws_send F). }
  destruct (negb _); [apply (preserves_ws_send F)|].
  apply (preserves_bind F); [apply (preserves_socket_userId F)|]. intros sender.
  apply (preserves_bind F); [apply (preserves_int_param F)|]. intros to.
  apply (preserves_bind F); [apply (preserves_db_read F)|]. intros areBuddies.
  destruct (Nat.eqb _ 0); [apply (preserves_ws_send F)|].
  apply (preserves_bind F); [apply (preserves_db_read F)|]. intros isBlocked.
  destruct (Nat.ltb 0 _); [apply (preserves_ws_send F)|].
  apply (preserves_bind F).
  { apply (preserves_db_query F). intros v. apply (handler_db H). }
  intros savedMessage.
  apply (preserves_bind F); [apply (preserves_ws_send F)|]. intros _.
  apply (preserves_bind F); [apply (preserves_getWebSocketConnection F)|].
  intros recipientWs.
  apply (preserves_bind F); [apply (preserves_gets F)|]. intros recipientOpen.
  apply (preserves_bind F); [|intros _; apply (preserves_log F)].
  destruct recipientWs; [destruct recipientOpen|];
    first [apply (preserves_ws_send F) | apply (preserves_ret F)].
Qed.

Lemma preserves_authentication ws token now :
  preserves R (Server.handleAuthentication jwt_verify ws token now).
Proof.
  unfold Server.handleAuthentication.
  apply (preserves_tryCatch F).
  2:{ intros _. apply (preserves_bind F); [apply (preserves_log F)|].
      intros _. apply (preserves_bind F); [apply (preserves_ws_send F)|].
      intros _. apply (preserves_ws_close F). }
  destruct (negb (truthy token)); [apply (preserves_throw F)|].
  apply (preserves_bind F).
  { destruct token; try apply (preserves_throw F).
    destruct (jwt_verify _);
      first [apply (preserves_ret F) | apply (preserves_throw F)]. }
  intros decoded.
  destruct (negb (jsstring_eqb _ _)); [apply (preserves_throw F)|].
  apply (preserves_bind F).
  { intros v. unfold run, Counters.checkUserConnectionLimit.
    destruct (_ <=? _); cbn [snd];
      [apply (frame_refl F) | apply (handler_userConnections H)]. }
  intros allowed. destruct (negb allowed); [apply (preserves_ws_close F)|].
  apply (preserves_bind F).
  { apply preserves_modify. intros v. apply (handler_mark H). }
  intros _. apply (preserves_bind F).
  { apply (preserves_register F). apply (handler_wsConnections H). }
  intros _. apply (preserves_bind F).
  { apply preserves_modify. intros v. apply (handler_connections H). }
  intros _. apply (preserves_bind F).
  { apply (preserves_db_query F). intros v. apply (handler_db H). }
  intros _. apply (preserves_bind F); [apply (preserves_ws_send F)|].
  intros _. apply (preserves_bind F); [apply (preserves_log F)|].
  intros _. apply (preserves_notify F).
Qed.

Lemma preserves_handleMessage ws message now :
  preserves R (Server.handleMessage jwt_verify ws message now).
Proof.
  unfold Server.handleMessage.
  destruct (jsstring_eqb _ _); [apply preserves_authentication|].
  destruct (jsstring_eqb _ _).
  { apply (preserves_bind F); [apply (preserves_socket_field F)|].
    intros [|]; [apply preserves_private | apply (preserves_ret F)]. }
  destruct (_ || _).
  { apply (preserves_bind F); [apply (preserves_socket_field F)|].
    intros [|]; [apply (preserves_typing F) | apply (preserves_ret F)]. }
  destruct (jsstring_eqb _ _); apply (preserves_ws_send F).
Qed.

(** What the listener does before anything raises. *)
Lemma preserves_listener_body ws data now :
  preserves R
    (if negb (Security.validateMessageSize data) then
       ws_close ws 1009 "Message too large"
     else
       let! message :=
         match JSON_parse data with
         | Some v => ret v
         | None => throw "Unexpected token in JSON"
         end in
       if negb (Security.validateMessageStructure message) then
         ws_send ws (MsgError "Invalid message format")
       else
         let! ip := Server.socket_field ws ip [] in
         let! withinRate :=
           Counters.checkMessageRateLimit ip
             (MessageHandler.type_text message) now in
         if negb withinRate then
           ws_send ws (MsgError "Rate limit exceeded")
         else
           Server.handleMessage jwt_verify ws message now).
Proof.
  destruct (negb _); [apply (preserves_ws_close F)|].
  apply (preserves_bind F).
  { destruct (JSON_parse data);
      first [apply (preserves_ret F) | apply (preserves_throw F)]. }
  intros message. destruct (negb _); [apply (preserves_ws_send F)|].
  apply (preserves_bind F); [apply (preserves_socket_field F)|]. intros ip.
  apply (preserves_bind F).
  { intros v. unfold run, Counters.checkMessageRateLimit.
    destruct (Nat.leb _ _); cbn [snd];
      [apply (frame_refl F) | apply (handler_messageRates H)]. }
  intros withinRate. destruct (negb withinRate);
    [apply (preserves_ws_send F) | apply preserves_handleMessage].
Qed.

End Listener.

Section Health.

(** Whether the methods of a socket raise is not something a handler
    changes. *)
Lemma handler_frame_throws c : handler_frame (same (socket_view throws c)).
Proof.
  split; try reflexivity; [apply frame_throws|].
  intros w c0 uid. unfold same, socket_view. cbn [sockets set_sockets].
  destruct (decide (c0 = c)) as [->|Hne].
  - rewrite lookup_alter_eq. now destruct (sockets w !! c).
  - now rewrite lookup_alter_ne.
Qed.

End Health.

(** X22: the message listener does not raise on a socket that accepts
    calls: whatever the payload, the parser, the verifier, the store
    with its failures and the other sockets do, every exception of the
    handlers is caught and answered. *)
Theorem message_listener_never_raises
        (JSON_parse : list Byte.byte -> option JSVal)
        (jwt_verify : jsstring -> option Server.Decoded)
        (w : World) (ws : conn) (data : list Byte.byte) (now : Z) :
  raises (sockets w) ws = false ->
  result (Server.setupMessageHandler JSON_parse jwt_verify ws data now) w
  = Ok tt.
Proof.
  intros Hhealthy. unfold Server.setupMessageHandler.
  match goal with
  | |- result (tryCatch ?b ?h) w = _ => set (body := b); set (handler := h)
  end.
  destruct (result body w) as [[]|e] eqn:E.
  - unfold result. now rewrite (tryCatch_ok body handler w tt E).
  - unfold result. rewrite (tryCatch_throw body handler w e E).
    pose proof (preserves_listener_body (handler_frame_throws ws)
                  JSON_parse jwt_verify ws data now w) as Hkeep.
    fold body in Hkeep. unfold same in Hkeep.
    assert (Hview : socket_view throws ws (run body w) = Some false).
    { rewrite Hkeep. unfold socket_view. unfold raises in Hhealthy.
      destruct (sockets w !! ws) as [s|]; [|discriminate Hhealthy].
      cbn. now rewrite Hhealthy. }
    unfold handler, bind, log, modify.
    rewrite ws_send_healthy by exact Hview. reflexivity.
Qed.

(** Alice's connection receives bytes that are not JSON. *)
Lemma message_listener_never_raises_witness :
  result (Server.setupMessageHandler Scenario.parse Scenario.jwt 10
            [Byte.x7b] 77) Scenario.world
  = Ok tt.
Proof.
  apply (message_listener_never_raises
           Scenario.parse Scenario.jwt Scenario.world 10 [Byte.x7b] 77).
  reflexivity.
Defined.

(** X23: a payload that is not a well-formed message is answered and
    forgotten: bytes that do not parse get the invalid-message reply
    (after a console line), a parsed value that fails structure
    validation gets the invalid-format reply; in both cases nothing is
    counted against the sender's rate limit, and the store, the
    registries and the sockets are untouched. *)
Theorem invalid_payload_not_rate_counted
        (JSON_parse : list Byte.byte -> option JSVal)
        (jwt_verify : jsstring -> option Server.Decoded)
        (w : World) (ws : conn) (data : list Byte.byte) (now : Z) :
  raises (sockets w) ws = false ->
  Security.validateMessageSize data = true ->
  match JSON_parse data with
  | Some message => Security.validateMessageStructure message = false
  | None => True
  end ->
  let w' := run (Server.setupMessageHandler JSON_parse jwt_verify ws data now)
                w in
  trace w'
  = trace w
    ++ match JSON_parse data with
       | Some _ => [EvSend ws (MsgError "Invalid message format")]
       | None => [EvLog "WebSocket message handling error:";
                  EvSend ws (MsgError "Invalid message")]
       end
  /\ bookkeeping w' = bookkeeping w
  /\ db w' = db w
  /\ sockets w' = sockets w.
Proof.
  intros Hhealthy Hsize Hbad.
  unfold raises in Hhealthy.
  destruct (sockets w !! ws) as [s|] eqn:Hs; [|discriminate Hhealthy].
  assert (Hrun :
    Server.setupMessageHandler JSON_parse jwt_verify ws data now w
    = (Ok tt,
       set_trace
         (trace w
          ++ match JSON_parse data with
             | Some _ => [EvSend ws (MsgError "Invalid message format")]
             | None => [EvLog "WebSocket message handling error:";
                        EvSend ws (MsgError "Invalid message")]
             end) w)).
  { unfold Server.setupMessageHandler. rewrite Hsize. cbn [negb].
    destruct (JSON_parse data) as [message|].
    - unfold tryCatch, bind at 1, ret. rewrite Hbad. cbn [negb].
      now rewrite (ws_send_ok w ws s _ Hs Hhealthy).
    - unfold tryCatch, bind at 1, throw.
      unfold bind, log, modify.
      rewrite (ws_send_ok (set_trace _ w) ws s _ Hs Hhealthy).
      cbn [snd trace set_trace]. now rewrite <- app_assoc. }
  cbv zeta. unfold run. rewrite Hrun. cbn [snd]. repeat split.
Qed.

(** Alice's connection receives a single opening brace. *)
Lemma invalid_payload_not_rate_counted_witness :
  trace (run (Server.setupMessageHandler Scenario.parse Scenario.jwt 10
                [Byte.x7b] 77) Scenario.world)
  = [] ++ [EvLog "WebSocket message handling error:";
           EvSend 10%nat (MsgError "Invalid message")]
  /\ messageRates (run (Server.setupMessageHandler Scenario.parse Scenario.jwt
                          10 [Byte.x7b] 77) Scenario.world)
     = messageRates Scenario.world.
Proof.
  destruct (invalid_payload_not_rate_counted
              Scenario.parse Scenario.jwt Scenario.world 10 [Byte.x7b] 77
              eq_refl eq_refl I)
    as (Htr & Hbook & _).
  split; [exact Htr|]. exact (f_equal (fun b => snd (fst b)) Hbook).
Defined.

(** X24: a message over the rate limit is answered and not handled:
    when the limiter refuses a well-formed message of a connection, the
    connection is sent the rate-limit reply and nothing else happens: no
    handler runs, so no statement reaches the store, no registry or
    socket changes, and the refused message is not added to the
    record. *)
Theorem rate_limited_message_not_handled
        (JSON_parse : list Byte.byte -> option JSVal)
        (jwt_verify : jsstring -> option Server.Decoded)
        (w : World) (ws : conn) (s : Socket) (data : list Byte.byte)
        (message : JSVal) (now : Z) :
  sockets w !! ws = Some s ->
  throws s = false ->
  Security.validateMessageSize data = true ->
  JSON_parse data = Some message ->
  Security.validateMessageStructure message = true ->
  result (Counters.checkMessageRateLimit
            (ip s) (MessageHandler.type_text message) now) w = Ok false ->
  let w' := run (Server.setupMessageHandler JSON_parse jwt_verify ws data now)
                w in
  trace w' = trace w ++ [EvSend ws (MsgError "Rate limit exceeded")]
  /\ bookkeeping w' = bookkeeping w
  /\ db w' = db w
  /\ sockets w' = sockets w.
Proof.
  intros Hs Ht Hsize Hparse Hstruct Hrate.
  assert (Hrun :
    Server.setupMessageHandler JSON_parse jwt_verify ws data now w
    = (Ok tt,
       set_trace (trace w ++ [EvSend ws (MsgError "Rate limit exceeded")]) w)).
  { unfold Server.setupMessageHandler.
    rewrite Hsize, Hparse. cbn [negb].
    unfold tryCatch, bind at 1, ret. rewrite Hstruct. cbn [negb].
    unfold bind at 1, Server.socket_field, gets. rewrite Hs.
    unfold bind at 1. revert Hrate.
    unfold result, Counters.checkMessageRateLimit.
    destruct (Nat.leb _ _); [intros _|discriminate].
    cbn [negb]. now rewrite (ws_send_ok w ws s _ Hs Ht). }
  cbv zeta. unfold run. rewrite Hrun. cbn [snd]. repeat split.
Qed.

(** Alice's sixty-first chat message of the minute. *)
Lemma rate_limited_message_not_handled_witness :
  trace (run (Server.setupMessageHandler Scenario.parse Scenario.jwt 10
                Scenario.payload_pm 2000) Cases.world_after_sixty)
  = [] ++ [EvSend 10%nat (MsgError "Rate limit exceeded")]
  /\ db (run (Server.setupMessageHandler Scenario.parse Scenario.jwt 10
                Scenario.payload_pm 2000) Cases.world_after_sixty)
     = Scenario.store.
Proof.
  destruct (rate_limited_message_not_handled
              Scenario.parse Scenario.jwt Cases.world_after_sixty 10
              (Scenario.open_socket 1 false) Scenario.payload_pm
              (private_message 2 (u16 "hello")) 2000
              eq_refl eq_refl eq_refl eq_refl eq_refl
              ltac:(vm_compute; reflexivity))
    as (Htr & _ & Hdb & _).
  exact (conj Htr Hdb).
Defined.

(** X25: a ping is answered whether or not the connection has
    authenticated: a well-formed [ping] that the limiter lets through
    gets the [pong] reply and is recorded under the connection's address
    and the type [ping]; nothing else changes. *)
Theorem ping_answered_without_authentication
        (JSON_parse : list Byte.byte -> option JSVal)
        (jwt_verify : jsstring -> option Server.Decoded)
        (w : World) (ws : conn) (s : Socket) (data : list Byte.byte)
        (message : JSVal) (now : Z) :
  sockets w !! ws = Some s ->
  throws s = false ->
  Security.validateMessageSize data = true ->
  JSON_parse data = Some message ->
  Security.validateMessageStructure message = true ->
  MessageHandler.type_text message = u16 "ping" ->
  result (Counters.checkMessageRateLimit (ip s) (u16 "ping") now) w = Ok true ->
  let w' := run (Server.setupMessageHandler JSON_parse jwt_verify ws data now)
                w in
  trace w' = trace w ++ [EvSend ws MsgPong]
  /\ messages_of w' (ip s) (u16 "ping")
     = List.filter (fun t => now - 60000 <? t)
                   (messages_of w (ip s) (u16 "ping")) ++ [now]
  /\ wsConnections w' = wsConnections w
  /\ connections w' = connections w
  /\ userConnections w' = userConnections w
  /\ db w' = db w
  /\ sockets w' = sockets w.
Proof.
  intros Hs Ht Hsize Hparse Hstruct Hty Hrate.
  set (recent := List.filter (fun t => now - 60000 <? t)
                             (messages_of w (ip s) (u16 "ping"))).
  assert (Hrun :
    Server.setupMessageHandler JSON_parse jwt_verify ws data now w
    = (Ok tt,
       set_trace (trace w ++ [EvSend ws MsgPong])
         (set_messageRates
            (<[rate_key (ip s) (u16 "ping") := recent ++ [now]]>
               (messageRates w)) w))).
  { unfold Server.setupMessageHandler.
    rewrite Hsize, Hparse. cbn [negb].
    unfold tryCatch, bind at 1, ret. rewrite Hstruct. cbn [negb].
    unfold bind at 1, Server.socket_field, gets. rewrite Hs, Hty.
    unfold bind at 1. revert Hrate.
    unfold result, Counters.checkMessageRateLimit.
    fold (rate_key (ip s) (u16 "ping")).
    fold (messages_of w (ip s) (u16 "ping")).
    change (Security.getMessageRateWindow (u16 "ping")) with 60000.
    fold recent.
    destruct (Nat.leb _ _); [discriminate|intros _].
    cbn [negb]. unfold Server.handleMessage. rewrite Hty.
    change (jsstring_eqb (u16 "ping") (u16 "authenticate")) with false.
    change (jsstring_eqb (u16 "ping") (u16 "private_message")) with false.
    change (jsstring_eqb (u16 "ping") (u16 "typing_start")) with false.
    change (jsstring_eqb (u16 "ping") (u16 "typing_stop")) with false.
    change (jsstring_eqb (u16 "ping") (u16 "ping")) with true.
    cbv iota. cbn [orb].
    now rewrite (ws_send_ok (set_messageRates _ w) ws s _ Hs Ht). }
  cbv zeta. unfold run. rewrite Hrun. cbn [snd].
  repeat split. unfold messages_of at 1.
  cbn [messageRates set_trace set_messageRates].
  now rewrite lookup_insert_eq.
Qed.

(** A connection that has not authenticated sends a ping. *)
Lemma ping_answered_without_authentication_witness :
  socket_view isAuthenticated 40 Scenario.world_with_guest = Some false
  /\ trace (run (Server.setupMessageHandler Cases.parse Scenario.jwt 40
                   [Byte.x70] 2000) Scenario.world_with_guest)
     = [] ++ [EvSend 40%nat MsgPong].
Proof.
  split; [reflexivity|].
  refine (proj1 (ping_answered_without_authentication
                   Cases.parse Scenario.jwt Scenario.world_with_guest 40 _
                   [Byte.x70] Cases.ping 2000
                   eq_refl eq_refl eq_refl eq_refl eq_refl eq_refl eq_refl)).
Defined.

(** ** The HTTP middleware and the logout route *)

Section Middleware.

Import TokenBlacklist.

Variable jwt_verify : jsstring -> Server.Decoded + string.
Variable jwt_decode : jsstring -> option Claims.
Variable bcrypt_digest : N -> jsstring -> N.

Lemma returns_isTokenBlacklisted salt token now :
  returns (isTokenBlacklisted bcrypt_digest salt token now).
Proof.
  apply returns_tryCatch. intros _.
  apply returns_bind; [apply returns_log | intros _; apply returns_ret].
Qed.

Lemma returns_addToken salt token :
  returns (addToken jwt_decode bcrypt_digest salt token).
Proof.
  apply returns_tryCatch. intros _.
  apply returns_bind; [apply returns_log | intros _; apply returns_ret].
Qed.

Lemma returns_setUserContext uid : returns (Http.setUserContext uid).
Proof.
  unfold Http.setUserContext. destruct (uid =? 0); [apply returns_ret|].
  apply returns_tryCatch. intros _. apply returns_log.
Qed.

(** The lookup when the store rejects the statement. *)
Lemma lookup_fails_closed salt token now w :
  fault_at 0 (db w) = true ->
  isTokenBlacklisted bcrypt_digest salt token now w
  = (Ok true,
     set_trace (trace w ++ [EvLog "Token blacklist check error:"])
               (set_db (snd (Db.next_fault (db w))) w)).
Proof.
  intros Hf. unfold isTokenBlacklisted, tryCatch, bind at 1.
  rewrite db_query_step, Hf. reflexivity.
Qed.

Lemma preserves_addToken {R} (F : frame R) salt token :
  (forall w d, R w (set_db d w)) ->
  preserves R (addToken jwt_decode bcrypt_digest salt token).
Proof.
  intros Hdb. unfold addToken.
  apply (preserves_tryCatch F).
  2:{ intros _. apply (preserves_bind F); [apply (preserves_log F)|].
      intros _. apply (preserves_ret F). }
  assert (Hinvalid :
    preserves R (log "Invalid token format for blacklisting" ;; ret false)).
  { apply (preserves_bind F); [apply (preserves_log F)|].
    intros _. apply (preserves_ret F). }
  destruct (jwt_decode token) as [decoded|]; [|exact Hinvalid].
  destruct (claim_exp decoded) as [exp|]; [|exact Hinvalid].
  destruct (exp =? 0); [exact Hinvalid|].
  apply (preserves_bind F).
  { apply (preserves_db_query F). intros v. apply Hdb. }
  intros _. apply (preserves_bind F); [apply (preserves_log F)|].
  intros _. apply (preserves_ret F).
Qed.

(** A store that rejects the next statement is left with the blacklist
    it had. *)
Lemma addToken_fault_stores_nothing salt token w :
  fault_at 0 (db w) = true ->
  Db.token_blacklist (db (run (addToken jwt_decode bcrypt_digest salt token) w))
  = Db.token_blacklist (db w).
Proof.
  intros Hf. unfold run, addToken, tryCatch.
  destruct (jwt_decode token) as [decoded|]; [|reflexivity].
  destruct (claim_exp decoded) as [exp|]; [|reflexivity].
  destruct (exp =? 0); [reflexivity|].
  unfold bind at 1. rewrite db_query_step, Hf.
  cbn [snd db set_trace set_db log modify bind ret].
  unfold Db.next_fault. now destruct (Db.faults (db w)).
Qed.

Lemma disconnect_store uid w :
  db (run (Registry.disconnectUserWebSocket uid) w) = db w.
Proof.
  unfold run, Registry.disconnectUserWebSocket, bind, gets.
  destruct (wsConnections w !! uid) as [c|]; [|reflexivity].
  unfold tryCatch, ws_close, log, modify.
  destruct (sockets w !! c) as [s|]; [destruct (throws s)|]; reflexivity.
Qed.

End Middleware.

(** X26: the revocation check fails closed, and before the token is
    looked at: when the store rejects the blacklist lookup, a request
    that carries a bearer token is refused as revoked (401,
    [TOKEN_REVOKED]), whatever the token is and whatever [jwt.verify]
    would say of it; [optionalAuth] hands the same request on without a
    user. *)
Theorem request_during_store_failure_is_revoked
        (jwt_verify : jsstring -> Server.Decoded + string)
        (bcrypt_digest : N -> jsstring -> N)
        (w : World) (salt : N) (authHeader : option jsstring)
        (token : jsstring) (now : Z) :
  Http.bearer authHeader = Some token ->
  fault_at 0 (db w) = true ->
  result (Http.authenticateToken jwt_verify bcrypt_digest salt authHeader now) w
  = Ok (Http.Responded (Http.Refused 401 "TOKEN_REVOKED"))
  /\ result (Http.optionalAuth jwt_verify bcrypt_digest salt authHeader now) w
     = Ok (Http.Next None).
Proof.
  intros Hb Hf. unfold result, Http.authenticateToken, Http.optionalAuth.
  rewrite Hb. unfold tryCatch, bind.
  rewrite (lookup_fails_closed bcrypt_digest salt token now w Hf).
  split; reflexivity.
Qed.

(** Alice's valid token, presented while the store is down. *)
Lemma request_during_store_failure_is_revoked_witness :
  Cases.verify (u16 "tok-1")
  = inl {| Server.tok_id := 1; Server.tok_email := u16 "alice@example.org";
           Server.tok_type := u16 "access" |}
  /\ result (Http.authenticateToken Cases.verify Scenario.digest 7
               (Some (u16 "Bearer tok-1")) 1000) Cases.world_store_down
     = Ok (Http.Responded (Http.Refused 401 "TOKEN_REVOKED")).
Proof.
  split; [reflexivity|].
  exact (proj1 (request_during_store_failure_is_revoked
                  Cases.verify Scenario.digest Cases.world_store_down 7
                  (Some (u16 "Bearer tok-1")) (u16 "tok-1") 1000
                  eq_refl eq_refl)).
Defined.

(** X27: [optionalAuth] and [authenticateToken] agree on who the user
    is: for every request, store and verifier, [optionalAuth] hands the
    request on, and it does so with a user exactly when
    [authenticateToken] lets the request through, and then with the
    same user; both leave the store in the same state. *)
Theorem optional_auth_agrees_with_authentication
        (jwt_verify : jsstring -> Server.Decoded + string)
        (bcrypt_digest : N -> jsstring -> N)
        (w : World) (salt : N) (authHeader : option jsstring) (now : Z) :
  let authenticate :=
    Http.authenticateToken jwt_verify bcrypt_digest salt authHeader now in
  let optional :=
    Http.optionalAuth jwt_verify bcrypt_digest salt authHeader now in
  exists user,
    result optional w = Ok (Http.Next user)
    /\ (forall decoded,
           user = Some decoded
           <-> result authenticate w = Ok (Http.Next (Some decoded)))
    /\ db (run optional w) = db (run authenticate w).
Proof.
  intros authenticate optional.
  unfold authenticate, optional, Http.authenticateToken, Http.optionalAuth.
  destruct (Http.bearer authHeader) as [token|].
  2:{ exists None. split; [reflexivity|]. split; [|reflexivity].
      intros decoded. split; discriminate. }
  set (lookup := TokenBlacklist.isTokenBlacklisted bcrypt_digest salt token now).
  destruct (returns_isTokenBlacklisted bcrypt_digest salt token now w)
    as [revoked Hlookup].
  fold lookup in Hlookup. set (W := run lookup w).
  unfold result at 1 2, run at 1 2, tryCatch.
  rewrite !(bind_ok lookup _ w revoked Hlookup). fold W.
  destruct revoked; cbn [negb].
  { exists None. split; [reflexivity|]. split; [|reflexivity].
    intros decoded. split; discriminate. }
  unfold Http.verify.
  destruct (jwt_verify token) as [decoded|name].
  - unfold bind, ret. cbv beta iota.
    destruct (jsstring_eqb (Server.tok_type decoded) (u16 "access"));
      cbn [negb].
    + pose proof (returns_unit _ W
                    (returns_setUserContext (Server.tok_id decoded))) as Hctx.
      rewrite (pairing (Http.setUserContext (Server.tok_id decoded)) W), Hctx.
      exists (Some decoded).
      split; [reflexivity|]. split; [|reflexivity].
      intros d. split; [intros [= <-]; reflexivity | intros [= <-]; reflexivity].
    + exists None. split; [reflexivity|]. split; [|reflexivity].
      intros d. split; discriminate.
  - unfold bind, throw, ret, log, modify. cbv beta iota.
    exists None. split; [reflexivity|]. split.
    + intros d. split; [discriminate|].
      destruct (String.eqb name "TokenExpiredError"); [discriminate|].
      destruct (String.eqb name "JsonWebTokenError"); discriminate.
    + destruct (String.eqb name "TokenExpiredError"); [reflexivity|].
      destruct (String.eqb name "JsonWebTokenError"); reflexivity.
Qed.

(** X28: the logout handler always reports success.  Whatever the
    request, the store and the sockets do, it answers that the user is
    logged out (its failure reply is never sent) and the registry has no
    entry for the user afterwards, while the server's own map of
    connections is left to the close event.  In particular a store that
    rejects the statement leaves the blacklist as it was: the token has
    not been revoked, and the answer is the same. *)
Theorem logout_always_reports_success
        (jwt_decode : jsstring -> option TokenBlacklist.Claims)
        (bcrypt_digest : N -> jsstring -> N)
        (w : World) (salt : N) (authHeader : option jsstring)
        (user : Server.Decoded) :
  let handler := Http.logout jwt_decode bcrypt_digest salt authHeader user in
  result handler w = Ok Http.LoggedOut
  /\ wsConnections (run handler w)
     = delete (Server.tok_id user) (wsConnections w)
  /\ connections (run handler w) = connections w
  /\ (fault_at 0 (db w) = true ->
      Db.token_blacklist (db (run handler w)) = Db.token_blacklist (db w)).
Proof.
  intros handler.
  set (blacklisting :=
         match Http.bearer authHeader with
         | Some token =>
             let! _ := TokenBlacklist.addToken jwt_decode bcrypt_digest salt
                                               token in
             ret tt
         | None => ret tt
         end).
  set (disconnect := Registry.disconnectUserWebSocket (Server.tok_id user)).
  assert (Hblacklisting : returns blacklisting).
  { unfold blacklisting. destruct (Http.bearer authHeader);
      [|apply returns_ret].
    apply returns_bind; [apply returns_addToken | intros _; apply returns_ret]. }
  assert (Hrun : handler w
                 = (Ok Http.LoggedOut, run disconnect (run blacklisting w))).
  { unfold handler, Http.logout. fold blacklisting disconnect.
    unfold tryCatch.
    rewrite (bind_ok blacklisting _ w tt (returns_unit _ _ Hblacklisting)).
    rewrite (bind_ok disconnect _ _ tt
               (returns_unit _ _ (returns_disconnect _))).
    reflexivity. }
  assert (Hbook : bookkeeping (run blacklisting w) = bookkeeping w).
  { unfold blacklisting. destruct (Http.bearer authHeader); [|reflexivity].
    apply (preserves_bind frame_same_bookkeeping);
      [|intros _; apply (preserves_ret frame_same_bookkeeping)].
    apply (preserves_addToken jwt_decode bcrypt_digest frame_same_bookkeeping).
    reflexivity. }
  unfold result, run at 1 2 3. rewrite Hrun. cbn [fst snd].
  split; [reflexivity|]. split; [|split].
  - unfold disconnect. rewrite disconnect_registry.
    assert (Hws : wsConnections (run blacklisting w) = wsConnections w)
      by exact (f_equal (fun b => fst (fst (fst (fst b)))) Hbook).
    now rewrite Hws.
  - unfold disconnect.
    rewrite (preserves_disconnect
               (frame_same connections
                  (fun _ _ => eq_refl) (fun _ _ => eq_refl)
                  (fun _ _ => eq_refl))
               (Server.tok_id user) (fun _ _ => eq_refl)
               (run blacklisting w)).
    exact (f_equal (fun b => snd (fst (fst (fst b)))) Hbook).
  - intros Hf. unfold disconnect. rewrite disconnect_store.
    unfold blacklisting. destruct (Http.bearer authHeader) as [token|];
      [|reflexivity].
    rewrite <- (addToken_fault_stores_nothing
                  jwt_decode bcrypt_digest salt token w Hf).
    unfold run, bind.
    now destruct (TokenBlacklist.addToken jwt_decode bcrypt_digest salt token w)
      as [[b|e] w1].
Qed.

(** ** Password strength *)

Section Strength.

Import Passwords.

Lemma dot_star_then_exists cls s :
  dot_star_then cls s = true -> existsb cls s = true.
Proof.
  induction s as [|c s IH]; cbn [dot_star_then existsb]; [discriminate|].
  destruct (cls c); [reflexivity|]. cbn [orb].
  intros H. apply andb_prop in H as [_ H]. exact (IH H).
Qed.

(** The lookahead finds a code unit of the class exactly when the text
    holds one: the search may start at that code unit. *)
Lemma test_lookahead_exists cls s : test_lookahead cls s = existsb cls s.
Proof.
  induction s as [|c s IH]; [reflexivity|].
  cbn [test_lookahead existsb]. rewrite IH.
  cbn [dot_star_then]. destruct (cls c); [reflexivity|]. cbn [orb].
  destruct (existsb cls s) eqn:E; [apply orb_true_r|].
  rewrite orb_false_r. apply not_true_is_false. intros H.
  apply andb_prop in H as [_ H].
  rewrite (dot_star_then_exists cls s H) in E. discriminate E.
Qed.

Lemma test_class cls s : test [One cls] s = existsb cls s.
Proof.
  induction s as [|c s IH]; [reflexivity|].
  cbn [test existsb match_here]. rewrite IH. now rewrite andb_true_r.
Qed.

End Strength.

(** X29: the label agrees with the rule: every password that
    [isStrongPassword] accepts scores 4 or 5 and is labelled Strong or
    Very Strong. *)
Theorem strong_password_is_labelled_strong (password : jsstring) :
  Passwords.isStrongPassword password = true ->
  4 <= Passwords.calculatePasswordStrength password <= 5
  /\ (Passwords.getPasswordStrengthLabel password = "Strong"%string
      \/ Passwords.getPasswordStrengthLabel password = "Very Strong"%string).
Proof.
  unfold Passwords.isStrongPassword. rewrite !test_lookahead_exists.
  destruct (Nat.ltb _ 8) eqn:Hlen; [discriminate|].
  destruct (existsb Passwords.isLower password) eqn:Hlow; [|discriminate].
  destruct (existsb Passwords.isUpper password) eqn:Hup; [|discriminate].
  destruct (existsb Passwords.isDigit password) eqn:Hdig; [|discriminate].
  intros _. apply Nat.ltb_ge in Hlen.
  assert (Hscore : 4 <= Passwords.calculatePasswordStrength password <= 5).
  { unfold Passwords.calculatePasswordStrength.
    rewrite !test_class, Hlow, Hup, Hdig.
    rewrite (proj2 (Nat.leb_le 8 _) Hlen). cbv zeta.
    repeat match goal with
           | |- context [if ?b then _ else _] => destruct b
           end; lia. }
  split; [exact Hscore|].
  unfold Passwords.getPasswordStrengthLabel. cbv zeta.
  destruct (Z.eq_dec (Passwords.calculatePasswordStrength password) 4)
    as [->|Hne]; [left; reflexivity|].
  assert (Passwords.calculatePasswordStrength password = 5) as -> by lia.
  right; reflexivity.
Qed.

(** A password of eight characters with the three classes. *)
Lemma strong_password_is_labelled_strong_witness :
  Passwords.getPasswordStrengthLabel (u16 "Passw0rd") = "Strong"%string
  \/ Passwords.getPasswordStrengthLabel (u16 "Passw0rd") = "Very Strong"%string.
Proof.
  exact (proj2 (strong_password_is_labelled_strong (u16 "Passw0rd") eq_refl)).
Defined.

(** ** The length of an escaped text *)

Section EscapedLength.

Import Security.

Lemma escape1_length c : (1 <= List.length (escape1 c))%nat.
Proof.
  unfold escape1.
  repeat (destruct (_ =? _)%N; [cbn; lia|]). cbn. lia.
Qed.

Lemma escapeHtml_length s :
  List.length (escapeHtml s) = (List.length s + growth s)%nat.
Proof.
  rewrite escapeHtml_flat_map. unfold growth.
  induction s as [|c s IH]; [reflexivity|].
  cbn [flat_map List.map List.length].
  rewrite length_app, IH. pose proof (escape1_length c).
  unfold list_sum. cbn [fold_right]. lia.
Qed.

Lemma escape1_ends c :
  isWhiteSpace c = false ->
  (exists x r, escape1 c = x :: r /\ isWhiteSpace x = false)
  /\ (exists r y, escape1 c = r ++ [y] /\ isWhiteSpace y = false).
Proof.
  intros Hc. unfold escape1.
  destruct (c =? 38)%N;
    [split; [now exists 38%N, (u16 "amp;") | now exists (u16 "&amp"), 59%N]|].
  destruct (c =? 60)%N;
    [split; [now exists 38%N, (u16 "lt;") | now exists (u16 "&lt"), 59%N]|].
  destruct (c =? 62)%N;
    [split; [now exists 38%N, (u16 "gt;") | now exists (u16 "&gt"), 59%N]|].
  destruct (c =? 34)%N;
    [split; [now exists 38%N, (u16 "quot;") | now exists (u16 "&quot"), 59%N]|].
  destruct (c =? 39)%N;
    [split; [now exists 38%N, (u16 "#x27;") | now exists (u16 "&#x27"), 59%N]|].
  destruct (c =? 47)%N;
    [split; [now exists 38%N, (u16 "#x2F;") | now exists (u16 "&#x2F"), 59%N]|].
  split; [now exists c, [] | now exists [], c].
Qed.

Lemma trimEnd_snoc g y :
  isWhiteSpace y = false -> trimEnd (g ++ [y]) = g ++ [y].
Proof.
  intros Hy. unfold trimEnd. rewrite rev_app_distr. cbn [rev app].
  rewrite (trimStart_fix y _ Hy). cbn [rev]. now rewrite rev_involutive.
Qed.

(** The two ends of a trimmed text. *)
Lemma trim_ends s :
  (forall c t, trim s = c :: t -> isWhiteSpace c = false)
  /\ (forall c f, trim s = f ++ [c] -> isWhiteSpace c = false).
Proof.
  split.
  - intros c t H. unfold trim in H.
    destruct (trimStart s) as [|c0 t0] eqn:E; [discriminate H|].
    pose proof (trimStart_head _ _ _ E) as Hc0.
    rewrite (trimEnd_cons c0 t0 Hc0) in H. now injection H as <- _.
  - intros c f H. unfold trim, trimEnd in H.
    apply (f_equal (@rev N)) in H.
    rewrite rev_involutive, rev_app_distr in H. cbn [rev app] in H.
    exact (trimStart_head _ _ _ H).
Qed.

(** Escaping a text that has no white space at its ends gives a text
    that has none either. *)
Lemma escapeHtml_trimmed s : trim s = s -> trim (escapeHtml s) = escapeHtml s.
Proof.
  intros Hs. destruct (trim_ends s) as [Hhead Hlast]. rewrite Hs in Hhead, Hlast.
  destruct s as [|c t]; [reflexivity|].
  pose proof (Hhead c t eq_refl) as Hc.
  destruct (exists_last (l := c :: t) ltac:(discriminate)) as (f & l & Hfl).
  pose proof (Hlast l f Hfl) as Hl.
  destruct (proj1 (escape1_ends c Hc)) as (x & r & Hx & Hxw).
  destruct (proj2 (escape1_ends l Hl)) as (r' & y & Hy & Hyw).
  unfold trim.
  assert (Hstart : trimStart (escapeHtml (c :: t)) = escapeHtml (c :: t)).
  { rewrite escapeHtml_flat_map. cbn [flat_map]. rewrite Hx. cbn [app].
    now apply trimStart_fix. }
  rewrite Hstart, Hfl, escapeHtml_app, (escapeHtml_flat_map [l]).
  cbn [flat_map]. rewrite app_nil_r, Hy, app_assoc.
  now apply trimEnd_snoc.
Qed.

Lemma char_length_plain s :
  plain_plane s = true -> Db.char_length s = List.length s.
Proof.
  unfold plain_plane. induction s as [|c s IH]; [reflexivity|].
  cbn [forallb]. intros H. apply andb_prop in H as [Hc Hs].
  apply negb_true_iff in Hc. cbn [Db.char_length List.length].
  rewrite Hc. cbn [andb]. rewrite <- (IH Hs). now destruct s.
Qed.

Lemma escape1_plain_plane c :
  Db.isHighSurrogate c = false -> plain_plane (escape1 c) = true.
Proof.
  intros Hc. unfold escape1.
  repeat (destruct (_ =? _)%N; [reflexivity|]).
  unfold plain_plane. cbn [forallb]. now rewrite Hc.
Qed.

Lemma escapeHtml_plain_plane s :
  plain_plane s = true -> plain_plane (escapeHtml s) = true.
Proof.
  rewrite escapeHtml_flat_map. unfold plain_plane.
  induction s as [|c s IH]; [reflexivity|].
  cbn [forallb flat_map]. intros H. apply andb_prop in H as [Hc Hs].
  apply negb_true_iff in Hc. rewrite forallb_app.
  rewrite (IH Hs), andb_true_r. exact (escape1_plain_plane c Hc).
Qed.

(** In a text without surrogate pairs and without white space at its
    ends, the sanitized form has as many characters as the text has
    code units, and as many more as the replacements add. *)
Lemma sanitized_length body :
  trim body = body -> plain_plane body = true ->
  Db.char_length (sanitizeMessageContent (JStr body))
  = (List.length body + growth body)%nat.
Proof.
  intros Htrim Hplain. cbn [sanitizeMessageContent].
  rewrite (escapeHtml_trimmed body Htrim).
  rewrite (char_length_plain _ (escapeHtml_plain_plane body Hplain)).
  apply escapeHtml_length.
Qed.

End EscapedLength.

(** X30: escaping can push a valid message over the limit of the
    column.  For a body of at most 1000 code units that the validators
    accept, without surrogate pairs and without white space at its ends,
    the sanitized text has as many characters as the body has code units
    plus those the replacements add; when that sum exceeds 1000, the
    message of a buddy who is not blocked, on a working store, is not
    stored, and the sender is told that it failed to send. *)
Theorem escaped_message_outgrows_the_column
        (w : World) (ws : conn) (s : Socket) (a to : Z) (body : jsstring)
        (now : Z) :
  sockets w !! ws = Some s ->
  throws s = false ->
  userId s = Some a ->
  Db.faults (db w) = [] ->
  buddy_edge (db w) a to = true ->
  has_blocked (db w) to a = false ->
  Security.validateMessageContent (JStr body) = true ->
  (List.length body <= 1000)%nat ->
  trim body = body ->
  plain_plane body = true ->
  (1000 < List.length body + growth body)%nat ->
  let w' := run (MessageHandler.handlePrivateMessage
                   ws (private_message to body) now) w in
  Security.validateMessageStructure (private_message to body) = true
  /\ Db.char_length (Security.sanitizeMessageContent (JStr body))
     = (List.length body + growth body)%nat
  /\ Db.messages (db w') = Db.messages (db w)
  /\ trace w' = trace w ++ [EvLog "Private message handling error:";
                            EvSend ws (MsgError "Failed to send message")].
Proof.
  intros Hs Ht Hu Hf Hb Hk Hvalid Hlen Htrim Hplain Hgrow w'.
  pose proof (sanitized_length body Htrim Hplain) as Hchars.
  assert (Hacc : Db.messages_accepts (db w) (Some a) to
                   (Security.sanitizeMessageContent (JStr body)) = false).
  { unfold Db.messages_accepts. rewrite Hchars.
    rewrite (proj2 (Nat.leb_gt _ 1000) Hgrow).
    now rewrite andb_false_r. }
  destruct (pm_rejected w ws s a (private_message to body) to body now
              Hs Ht Hu Hf eq_refl eq_refl Hvalid Hb Hk Hacc) as [Htr Hm].
  split; [|split; [exact Hchars | split; [exact Hm | exact Htr]]].
  change (Security.validateMessageStructure (private_message to body))
    with (Nat.leb (List.length body) 1000).
  now apply Nat.leb_le.
Qed.

(** Alice sends Bob 999 letters and an ampersand. *)
Lemma escaped_message_outgrows_the_column_witness :
  List.length Cases.long_body = 1000%nat
  /\ Db.char_length (Security.sanitizeMessageContent (JStr Cases.long_body))
     = (List.length Cases.long_body + 4)%nat
  /\ trace (run (MessageHandler.handlePrivateMessage
                   10 (private_message 2 Cases.long_body) 77) Scenario.world)
     = [] ++ [EvLog "Private message handling error:";
              EvSend 10%nat (MsgError "Failed to send message")].
Proof.
  destruct (escaped_message_outgrows_the_column
              Scenario.world 10 (Scenario.open_socket 1 false) 1 2
              Cases.long_body 77
              eq_refl eq_refl eq_refl eq_refl eq_refl eq_refl
              ltac:(vm_compute; reflexivity)
              ltac:(apply Nat.leb_le; vm_compute; reflexivity)
              ltac:(vm_compute; reflexivity)
              ltac:(vm_compute; reflexivity)
              ltac:(apply Nat.ltb_lt; vm_compute; reflexivity))
    as (_ & Hchars & _ & Htr).
  split; [vm_compute; reflexivity|]. split; [exact Hchars | exact Htr].
Defined.
